(** * CellsGrid: a shallow embedding of [cells_grid.py]

    The class [CellsGrid] of [cells_grid.py] normalises spacing arguments
    and (re)builds a matrix of toolkit frames.  This development embeds

    - the Python values the methods inspect at run time ([PyVal]),
      with IEEE-754 binary64 floats taken from the Standard Library's
      [SpecFloat];
    - the exceptions the methods raise ([exn]);
    - the two spacing normalisers and [__ensure_numeric_sequence];
    - the object state of a [CellsGrid] together with a trace of the calls
      made to the GUI toolkit, and the methods [__init__], [load_cells],
      [get_cells_grid] and [__destroy_all_cells] as computations in a
      state-and-exception monad.

    The GUI toolkit itself (customtkinter) is an external collaborator:
    its calls are recorded, in order, and always return. *)

From Stdlib Require Import ZArith List String Bool Lia Arith.
From Stdlib Require Import SpecFloat.
Import ListNotations.

Local Open Scope string_scope.
Local Open Scope Z_scope.
Local Open Scope list_scope.
Set Warnings "-register-all".

(* ================================================================== *)
(** * Python values *)
(* ================================================================== *)

Module Py.

(** The run-time values that reach the methods.  [bool] is a subclass of
    [int] in Python, so [VBool] answers [isinstance(_, int)]. *)
Inductive PyVal : Type :=
| VNone
| VBool (b : bool)
| VInt (z : Z)
| VFloat (f : spec_float)
| VStr (s : string)
| VTuple (items : list PyVal)
| VList (items : list PyVal).

(** [type(value).__name__] *)
Definition type_name (v : PyVal) : string :=
  match v with
  | VNone => "NoneType"
  | VBool _ => "bool"
  | VInt _ => "int"
  | VFloat _ => "float"
  | VStr _ => "str"
  | VTuple _ => "tuple"
  | VList _ => "list"
  end.

(** The classes named in [isinstance] tests of the source. *)
Inductive pyclass := C_int | C_float | C_tuple | C_list.

Definition instance_of (v : PyVal) (c : pyclass) : bool :=
  match c, v with
  | C_int, (VBool _ | VInt _) => true
  | C_float, VFloat _ => true
  | C_tuple, VTuple _ => true
  | C_list, VList _ => true
  | _, _ => false
  end.

(** [isinstance(v, (c1, ..., cn))] *)
Definition isinstance (v : PyVal) (cs : list pyclass) : bool :=
  existsb (instance_of v) cs.

(** ** Exceptions *)

Inductive exc_class :=
| TypeError | ValueError | IndexError | OverflowError | AttributeError.

(** A message is kept as the pieces of its (f-)string: literal text and
    interpolated values ([{seq}] is [Shown seq]). *)
Inductive piece :=
| Text (s : string)
| Shown (v : PyVal).

(** [Raised] is a [raise] statement of the source with its message;
    [Builtin] is an exception raised by the interpreter itself. *)
Inductive exn :=
| Raised (c : exc_class) (message : list piece)
| Builtin (c : exc_class).

Inductive result (A : Type) :=
| Ok (a : A)
| Raise (e : exn).
Arguments Ok {A} a.
Arguments Raise {A} e.

Definition rbind {A B} (r : result A) (k : A -> result B) : result B :=
  match r with
  | Ok a => k a
  | Raise e => Raise e
  end.

Notation "'let?' x ':=' r 'in' k" := (rbind r (fun x => k))
  (at level 10, x pattern, r at level 100, k at level 200).

(** ** Sequences *)

(** [l[i]] on a Python list or tuple: negative indexes count from the end,
    anything out of range is an [IndexError]. *)
Definition getitem {A} (l : list A) (i : Z) : result A :=
  let n := Z.of_nat (List.length l) in
  let j := if i <? 0 then i + n else i in
  if (j <? 0) || (n <=? j) then Raise (Builtin IndexError)
  else match nth_error l (Z.to_nat j) with
       | Some a => Ok a
       | None => Raise (Builtin IndexError)
       end.

(** [len(value)] *)
Definition len (v : PyVal) : result nat :=
  match v with
  | VTuple l | VList l => Ok (List.length l)
  | VStr s => Ok (String.length s)
  | _ => Raise (Builtin TypeError)
  end.

(** [value[i]] *)
Definition item (v : PyVal) (i : Z) : result PyVal :=
  match v with
  | VTuple l | VList l => getitem l i
  | _ => Raise (Builtin TypeError)
  end.

(** [tuple(array)]: the items of an iterable, as a tuple.  A string
    iterates over its characters. *)
Definition tuple_of (v : PyVal) : result (list PyVal) :=
  match v with
  | VTuple l | VList l => Ok l
  | VStr s => Ok (map (fun c => VStr (String c EmptyString)) (list_ascii_of_string s))
  | _ => Raise (Builtin TypeError)
  end.

(** ** Numbers *)

Definition prec : Z := 53.
Definition emax : Z := 1024.

Definition f_zero : spec_float := S754_zero false.
Definition f_one : spec_float := S754_finite false 4503599627370496 (-52).
Definition f_two : spec_float := S754_finite false 4503599627370496 (-51).

(** The float of a [bool]: [True] is [1.0], [False] is [0.0]. *)
Definition float_of_bool (b : bool) : spec_float :=
  if b then f_one else f_zero.

Definition int_of_bool (b : bool) : Z := if b then 1 else 0.

(** [n / 2] on an int: the correctly rounded quotient, or
    [OverflowError] when it does not fit a float. *)
Definition int_truediv_2 (n : Z) : result spec_float :=
  match binary_normalize prec emax n (-1) false with
  | S754_infinity _ => Raise (Builtin OverflowError)
  | f => Ok f
  end.

(** [v / 2] *)
Definition truediv_2 (v : PyVal) : result spec_float :=
  match v with
  | VBool b => int_truediv_2 (int_of_bool b)
  | VInt n => int_truediv_2 n
  | VFloat f => Ok (SFdiv prec emax f f_two)
  | _ => Raise (Builtin TypeError)
  end.

(** [x * b] for a float [x] and a bool [b]: the bool is converted to a
    float first. *)
Definition mul_bool (x : spec_float) (b : bool) : spec_float :=
  SFmul prec emax x (float_of_bool b).


Definition is_finite (x : spec_float) : bool :=
  match x with
  | S754_zero _ | S754_finite _ _ _ => true
  | _ => false
  end.

(** A float is a binary64 value when its mantissa and exponent are in
    canonical form. *)
Definition is_binary64 (x : spec_float) : bool := valid_binary prec emax x.

(** The exact value of a float compared with an int ([f == n]). *)
Definition float_eq_int (f : spec_float) (n : Z) : bool :=
  match f with
  | S754_zero _ => n =? 0
  | S754_finite s m e =>
      let sm := if s then Z.neg m else Z.pos m in
      if 0 <=? e then n =? sm * 2 ^ e
      else (sm mod 2 ^ (- e) =? 0) && (n =? sm / 2 ^ (- e))
  | _ => false
  end.

(** [v - 1] *)
Definition sub_1 (v : PyVal) : result PyVal :=
  match v with
  | VBool b => Ok (VInt (int_of_bool b - 1))
  | VInt n => Ok (VInt (n - 1))
  | VFloat f => Ok (VFloat (SFsub prec emax f f_one))
  | _ => Raise (Builtin TypeError)
  end.

(** [n != v] for an int [n] *)
Definition int_ne (n : Z) (v : PyVal) : bool :=
  match v with
  | VBool b => negb (n =? int_of_bool b)
  | VInt m => negb (n =? m)
  | VFloat f => negb (float_eq_int f n)
  | _ => true
  end.

(** [range(v)]: [v] must be an int (or bool); a negative count is empty. *)
Definition range (v : PyVal) : result (list Z) :=
  match v with
  | VBool b => Ok (map Z.of_nat (seq 0 (Z.to_nat (int_of_bool b))))
  | VInt n => Ok (map Z.of_nat (seq 0 (Z.to_nat n)))
  | _ => Raise (Builtin TypeError)
  end.

End Py.
Import Py.

(* ================================================================== *)
(** * The spacing normalisers *)
(* ================================================================== *)

(** A normalised box spacing: (left, top, right, bottom), the values as
    they were given. *)
Definition SpacingBox : Type := PyVal * PyVal * PyVal * PyVal.

(** A normalised cell spacing: four floats, since [/] always yields one. *)
Definition CellSpacing : Type :=
  spec_float * spec_float * spec_float * spec_float.

Definition raise {A} (c : exc_class) (message : list piece) : result A :=
  Raise (Raised c message).

(** [__ensure_numeric_sequence(seq, name)] *)
Definition ensure_numeric_sequence (seq : PyVal) (name : string) : result unit :=
  let? vs := tuple_of seq in
  if negb (forallb (fun v => isinstance v [C_int; C_float]) vs) then
    raise TypeError
      [Text "All values in `"; Text name;
       Text "` must be int or float. Received: "; Shown seq]
  else Ok tt.

(** [__normalize_cell_spacing(value)] *)
Definition normalize_cell_spacing (value : PyVal) : result CellSpacing :=
  if negb (isinstance value [C_int; C_tuple; C_list]) then
    raise TypeError
      [Text "`cells_spacing` must be int, tuple, or list, but received ";
       Text (type_name value); Text "."]
  else if isinstance value [C_int] then
    let? a := truediv_2 value in
    let? b := truediv_2 value in
    let? c := truediv_2 value in
    let? d := truediv_2 value in
    Ok (a, b, c, d)
  else
    let? n := len value in
    if Nat.eqb n 2 then
      let? _ := ensure_numeric_sequence value "cells_spacing" in
      let? v0 := item value 0 in let? a := truediv_2 v0 in
      let? v1 := item value 1 in let? b := truediv_2 v1 in
      let? v0' := item value 0 in let? c := truediv_2 v0' in
      let? v1' := item value 1 in let? d := truediv_2 v1' in
      Ok (a, b, c, d)
    else if Nat.eqb n 4 then
      let? _ := ensure_numeric_sequence value "cells_spacing" in
      let? v0 := item value 0 in let? a := truediv_2 v0 in
      let? v1 := item value 1 in let? b := truediv_2 v1 in
      let? v2 := item value 2 in let? c := truediv_2 v2 in
      let? v3 := item value 3 in let? d := truediv_2 v3 in
      Ok (a, b, c, d)
    else
      raise ValueError
        [Text "`cells_spacing` must contain 2 or 4 values. ";
         Text "Valid examples: 10, (10, 20), (10, 5, 10, 5)."].

(** [__normalize_box_spacing(value, name)] *)
Definition normalize_box_spacing (value : PyVal) (name : string)
  : result SpacingBox :=
  if negb (isinstance value [C_int; C_tuple; C_list]) then
    raise TypeError
      [Text "`"; Text name;
       Text "` must be int, tuple, or list, but received ";
       Text (type_name value); Text "."]
  else if isinstance value [C_int] then
    Ok (value, value, value, value)
  else
    let? n := len value in
    if Nat.eqb n 2 then
      let? _ := ensure_numeric_sequence value name in
      let? v0 := item value 0 in
      let? v1 := item value 1 in
      let? v0' := item value 0 in
      let? v1' := item value 1 in
      Ok (v0, v1, v0', v1')
    else if Nat.eqb n 4 then
      let? _ := ensure_numeric_sequence value name in
      let? v0 := item value 0 in
      let? v1 := item value 1 in
      let? v2 := item value 2 in
      let? v3 := item value 3 in
      Ok (v0, v1, v2, v3)
    else
      raise ValueError
        [Text "`"; Text name; Text "` must contain 2 or 4 values. ";
         Text "Valid examples: 10, (10, 20), (10, 5, 10, 5)."].

(* ================================================================== *)
(** * The toolkit and the object state *)
(* ================================================================== *)

(** A handle on a toolkit frame ([ctk.CTkFrame]). *)
Abbreviation widget := nat (only parsing).

(** The keyword arguments of [ctk.CTkFrame(self.container_frame, ...)]. *)
Record frame_args := {
  bg_color : PyVal;
  border_color : PyVal;
  border_width : PyVal;
  corner_radius : PyVal;
  fg_color : PyVal;
  height : PyVal;
  width : PyVal
}.

(** The calls [load_cells] makes on cell frames, as the toolkit sees
    them.  (The calls of [__init__] on the container frames are not
    recorded.) *)
Inductive tk_call :=
| Create (w : widget) (args : frame_args)
| Grid (w : widget) (row column : Z) (padx pady : spec_float * spec_float)
| Destroy (w : widget).

(** The attributes of a [CellsGrid] object.  An attribute that has not
    been assigned yet is [None]. *)
Record CellsGrid := {
  outer_margin : SpacingBox;
  inner_padding : SpacingBox;
  grid_shape : option (list PyVal);
  cell_border_color : option PyVal;
  cell_border_width : option PyVal;
  cell_corner_radius : option PyVal;
  cell_fg_color : option PyVal;
  cell_height : option PyVal;
  cell_width : option PyVal;
  cell_spacing : option CellSpacing;
  _last_row_index : option PyVal;
  _last_column_index : option PyVal;
  _cells_matrix : list (list widget)
}.

(** The object together with the toolkit: the next fresh handle and the
    calls made so far, oldest first. *)
Record World := {
  self : CellsGrid;
  next_widget : widget;
  calls : list tk_call
}.

(** ** Attribute assignment *)

Definition set_grid_shape (v : list PyVal) (o : CellsGrid) : CellsGrid :=
  {| outer_margin := outer_margin o; inner_padding := inner_padding o;
     grid_shape := Some v;
     cell_border_color := cell_border_color o;
     cell_border_width := cell_border_width o;
     cell_corner_radius := cell_corner_radius o;
     cell_fg_color := cell_fg_color o;
     cell_height := cell_height o; cell_width := cell_width o;
     cell_spacing := cell_spacing o;
     _last_row_index := _last_row_index o;
     _last_column_index := _last_column_index o;
     _cells_matrix := _cells_matrix o |}.

(** The six styling attributes, assigned one after the other with nothing
    that can fail in between. *)
Definition set_style (bc bw cr fg h w : PyVal) (o : CellsGrid) : CellsGrid :=
  {| outer_margin := outer_margin o; inner_padding := inner_padding o;
     grid_shape := grid_shape o;
     cell_border_color := Some bc;
     cell_border_width := Some bw;
     cell_corner_radius := Some cr;
     cell_fg_color := Some fg;
     cell_height := Some h; cell_width := Some w;
     cell_spacing := cell_spacing o;
     _last_row_index := _last_row_index o;
     _last_column_index := _last_column_index o;
     _cells_matrix := _cells_matrix o |}.

Definition set_cell_spacing (v : CellSpacing) (o : CellsGrid) : CellsGrid :=
  {| outer_margin := outer_margin o; inner_padding := inner_padding o;
     grid_shape := grid_shape o;
     cell_border_color := cell_border_color o;
     cell_border_width := cell_border_width o;
     cell_corner_radius := cell_corner_radius o;
     cell_fg_color := cell_fg_color o;
     cell_height := cell_height o; cell_width := cell_width o;
     cell_spacing := Some v;
     _last_row_index := _last_row_index o;
     _last_column_index := _last_column_index o;
     _cells_matrix := _cells_matrix o |}.

Definition set_last_row_index (v : PyVal) (o : CellsGrid) : CellsGrid :=
  {| outer_margin := outer_margin o; inner_padding := inner_padding o;
     grid_shape := grid_shape o;
     cell_border_color := cell_border_color o;
     cell_border_width := cell_border_width o;
     cell_corner_radius := cell_corner_radius o;
     cell_fg_color := cell_fg_color o;
     cell_height := cell_height o; cell_width := cell_width o;
     cell_spacing := cell_spacing o;
     _last_row_index := Some v;
     _last_column_index := _last_column_index o;
     _cells_matrix := _cells_matrix o |}.

Definition set_last_column_index (v : PyVal) (o : CellsGrid) : CellsGrid :=
  {| outer_margin := outer_margin o; inner_padding := inner_padding o;
     grid_shape := grid_shape o;
     cell_border_color := cell_border_color o;
     cell_border_width := cell_border_width o;
     cell_corner_radius := cell_corner_radius o;
     cell_fg_color := cell_fg_color o;
     cell_height := cell_height o; cell_width := cell_width o;
     cell_spacing := cell_spacing o;
     _last_row_index := _last_row_index o;
     _last_column_index := Some v;
     _cells_matrix := _cells_matrix o |}.

Definition set_cells_matrix (m : list (list widget)) (o : CellsGrid)
  : CellsGrid :=
  {| outer_margin := outer_margin o; inner_padding := inner_padding o;
     grid_shape := grid_shape o;
     cell_border_color := cell_border_color o;
     cell_border_width := cell_border_width o;
     cell_corner_radius := cell_corner_radius o;
     cell_fg_color := cell_fg_color o;
     cell_height := cell_height o; cell_width := cell_width o;
     cell_spacing := cell_spacing o;
     _last_row_index := _last_row_index o;
     _last_column_index := _last_column_index o;
     _cells_matrix := m |}.

(** ** The monad of methods: state that survives an exception *)

Definition M (A : Type) : Type := World -> result A * World.

Definition ret {A} (a : A) : M A := fun w => (Ok a, w).

Definition bind {A B} (m : M A) (k : A -> M B) : M B :=
  fun w =>
    match m w with
    | (Ok a, w') => k a w'
    | (Raise e, w') => (Raise e, w')
    end.

Notation "x <- m ;; k" := (bind m (fun x => k))
  (at level 61, m at next level, right associativity).
Notation "m ;;; k" := (bind m (fun _ => k))
  (at level 61, right associativity).

(** A pure computation that may raise. *)
Definition lift {A} (r : result A) : M A := fun w => (r, w).

(** [self.<attribute>]: reading an attribute that was never assigned is
    an [AttributeError]. *)
Definition attr {A} (f : CellsGrid -> option A) : M A :=
  fun w =>
    match f (self w) with
    | Some a => (Ok a, w)
    | None => (Raise (Builtin AttributeError), w)
    end.

(** [self.<attribute> = v] *)
Definition assign (f : CellsGrid -> CellsGrid) : M unit :=
  fun w =>
    (Ok tt, {| self := f (self w); next_widget := next_widget w;
               calls := calls w |}).

(** A call into the toolkit. *)
Definition tk (c : tk_call) : M unit :=
  fun w =>
    (Ok tt, {| self := self w; next_widget := next_widget w;
               calls := calls w ++ [c] |}).

(** [ctk.CTkFrame(self.container_frame, ...)]: a new frame. *)
Definition new_frame (args : frame_args) : M widget :=
  fun w =>
    (Ok (next_widget w),
     {| self := self w; next_widget := S (next_widget w);
        calls := calls w ++ [Create (next_widget w) args] |}).

(** [for x in l: body(x)] *)
Fixpoint for_each {A} (l : list A) (body : A -> M unit) : M unit :=
  match l with
  | [] => ret tt
  | x :: l' => body x ;;; for_each l' body
  end.

(** [l[i].append(x)] on a list of lists. *)
Definition append_at {A} (l : list (list A)) (i : Z) (x : A)
  : result (list (list A)) :=
  let? r := getitem l i in
  let n := Z.of_nat (List.length l) in
  let j := Z.to_nat (if i <? 0 then i + n else i) in
  Ok (firstn j l ++ (r ++ [x]) :: skipn (S j) l).

(* ================================================================== *)
(** * The methods of [CellsGrid] *)
(* ================================================================== *)

(** [__init__(master, bg_color, fg_color, height, margin, padding, width)]:
    the colours and sizes go to the toolkit's constructor; the object keeps
    the two normalised spacings and an empty matrix.  A failing
    normalisation leaves no object. *)
Definition init (margin padding : PyVal) : result World :=
  let? om := normalize_box_spacing margin "margin" in
  let? ip := normalize_box_spacing padding "padding" in
  Ok {| self :=
          {| outer_margin := om; inner_padding := ip;
             grid_shape := None;
             cell_border_color := None; cell_border_width := None;
             cell_corner_radius := None; cell_fg_color := None;
             cell_height := None; cell_width := None;
             cell_spacing := None;
             _last_row_index := None; _last_column_index := None;
             _cells_matrix := [] |};
        next_widget := O;
        calls := [] |}.

(** [get_cells_grid()] *)
Definition get_cells_grid : M (list (list widget)) :=
  fun w => (Ok (_cells_matrix (self w)), w).

(** [self.grid_shape[i]] *)
Definition shape_at (i : Z) : M PyVal :=
  shape <- attr grid_shape ;;
  lift (getitem shape i).

(** The body of the inner loop of [__destroy_all_cells]:
    [self._cells_matrix[row][col].destroy()] *)
Definition destroy_cell (row col : Z) : M unit :=
  m <- get_cells_grid ;;
  r <- lift (getitem m row) ;;
  cell <- lift (getitem r col) ;;
  tk (Destroy cell).

(** The body of its outer loop:
    [for col in range(self.grid_shape[1]): ...] *)
Definition destroy_row (row : Z) : M unit :=
  s1 <- shape_at 1 ;;
  cols <- lift (range s1) ;;
  for_each cols (destroy_cell row).

(** [__destroy_all_cells()] *)
Definition destroy_all_cells : M unit :=
  m <- get_cells_grid ;;
  match m with
  | [] => ret tt
  | _ :: _ =>
      s0 <- shape_at 0 ;;
      rows <- lift (range s0) ;;
      for_each rows destroy_row
  end.

(** The arguments of [load_cells], with their defaults. *)
Record load_args := {
  array : PyVal;
  cells_border_color : PyVal;
  cells_border_width : PyVal;
  cells_corner_radius : PyVal;
  cells_fg_color : PyVal;
  cells_height : PyVal;
  cells_size : PyVal;
  cells_spacing : PyVal;
  cells_width : PyVal
}.

Definition default_args : load_args :=
  {| array := VInt 4;
     cells_border_color := VNone;
     cells_border_width := VInt 0;
     cells_corner_radius := VInt 30;
     cells_fg_color := VNone;
     cells_height := VNone;
     cells_size := VInt 100;
     cells_spacing := VInt 10;
     cells_width := VNone |}.

(** [a if a is not None else b] *)
Definition if_not_none (a b : PyVal) : PyVal :=
  match a with
  | VNone => b
  | _ => a
  end.

(** [padx=(self.cell_spacing[0] * (col != 0),
          self.cell_spacing[2] * (col != self._last_column_index))] *)
Definition padx (sp : CellSpacing) (last_col : PyVal) (col : Z)
  : spec_float * spec_float :=
  let '(l, _, r, _) := sp in
  (mul_bool l (negb (col =? 0)), mul_bool r (int_ne col last_col)).

(** [pady=(self.cell_spacing[1] * (row != 0),
          self.cell_spacing[3] * (row != self._last_row_index))] *)
Definition pady (sp : CellSpacing) (last_row : PyVal) (row : Z)
  : spec_float * spec_float :=
  let '(_, t, _, b) := sp in
  (mul_bool t (negb (row =? 0)), mul_bool b (int_ne row last_row)).

(** [cell.grid(row=row, column=col, padx=(...), pady=(...))] *)
Definition grid_call (sp : CellSpacing) (last_row last_col : PyVal)
    (cell : widget) (row col : Z) : tk_call :=
  Grid cell row col (padx sp last_col col) (pady sp last_row row).

(** The body of the inner loop of [load_cells]: create the frame, place
    it, append it to its row. *)
Definition place_cell (row col : Z) : M unit :=
  bc <- attr cell_border_color ;;
  bw <- attr cell_border_width ;;
  cr <- attr cell_corner_radius ;;
  fg <- attr cell_fg_color ;;
  h <- attr cell_height ;;
  wd <- attr cell_width ;;
  cell <- new_frame {| bg_color := VStr "transparent";
                       border_color := bc; border_width := bw;
                       corner_radius := cr; fg_color := fg;
                       height := h; width := wd |} ;;
  sp <- attr cell_spacing ;;
  last_col <- attr _last_column_index ;;
  last_row <- attr _last_row_index ;;
  tk (grid_call sp last_row last_col cell row col) ;;;
  m <- get_cells_grid ;;
  m' <- lift (append_at m row cell) ;;
  assign (set_cells_matrix m').

(** The body of the outer loop of [load_cells]: a new empty row, then
    one cell per column. *)
Definition build_row (row : Z) : M unit :=
  m <- get_cells_grid ;;
  assign (set_cells_matrix (m ++ [[]])) ;;;
  s1 <- shape_at 1 ;;
  cols <- lift (range s1) ;;
  for_each cols (place_cell row).

(** [(array, array) if isinstance(array, int) else tuple(array)] *)
Definition shape_of (array : PyVal) : result (list PyVal) :=
  if isinstance array [C_int] then Ok [array; array] else tuple_of array.

Definition invalid_shape_message : list piece :=
  [Text "`array` must be an int or a tuple/list with exactly 2 values: (rows, columns)."].

(** [load_cells], from [# Normalize grid size] on: everything after the
    destruction of the previous cells. *)
Definition rebuild (a : load_args) : M unit :=
  shape <- lift (shape_of (array a)) ;;
  assign (set_grid_shape shape) ;;;
  shape <- attr grid_shape ;;
  if negb (Nat.eqb (List.length shape) 2) then
    lift (raise ValueError invalid_shape_message)
  else
    assign (set_style (cells_border_color a) (cells_border_width a)
                      (cells_corner_radius a) (cells_fg_color a)
                      (if_not_none (cells_height a) (cells_size a))
                      (if_not_none (cells_width a) (cells_size a))) ;;;
    sp <- lift (normalize_cell_spacing (cells_spacing a)) ;;
    assign (set_cell_spacing sp) ;;;
    s0 <- shape_at 0 ;;
    last_row <- lift (sub_1 s0) ;;
    assign (set_last_row_index last_row) ;;;
    s1 <- shape_at 1 ;;
    last_col <- lift (sub_1 s1) ;;
    assign (set_last_column_index last_col) ;;;
    assign (set_cells_matrix []) ;;;
    s0 <- shape_at 0 ;;
    rows <- lift (range s0) ;;
    for_each rows build_row.

(** [load_cells(array, cells_border_color, ..., cells_width)] *)
Definition load_cells (a : load_args) : M unit :=
  destroy_all_cells ;;;
  rebuild a.

(** Running a method: the outcome and the world it leaves. *)
Definition outcome {A} (m : M A) (w : World) : result A := fst (m w).
Definition after {A} (m : M A) (w : World) : World := snd (m w).

Definition with_array (v : PyVal) (a : load_args) : load_args :=
  {| array := v;
     cells_border_color := cells_border_color a;
     cells_border_width := cells_border_width a;
     cells_corner_radius := cells_corner_radius a;
     cells_fg_color := cells_fg_color a;
     cells_height := cells_height a;
     cells_size := cells_size a;
     cells_spacing := cells_spacing a;
     cells_width := cells_width a |}.

Definition with_spacing (v : PyVal) (a : load_args) : load_args :=
  {| array := array a;
     cells_border_color := cells_border_color a;
     cells_border_width := cells_border_width a;
     cells_corner_radius := cells_corner_radius a;
     cells_fg_color := cells_fg_color a;
     cells_height := cells_height a;
     cells_size := cells_size a;
     cells_spacing := v;
     cells_width := cells_width a |}.

(* ================================================================== *)
(** * Vocabulary of the statements *)
(* ================================================================== *)

(** ** Numbers, spacings and messages *)




(** An int whose half fits a float; floats always do. *)
Definition in_float_range (v : PyVal) : bool :=
  match v with
  | VInt n => Z.abs n <? 2 ^ 1024
  | _ => true
  end.


(** An element the normalisers take for a number. *)
Definition numeric (v : PyVal) : bool := isinstance v [C_int; C_float].

(** A tuple or a list with the given items. *)
Definition sequence_of (value : PyVal) (items : list PyVal) : Prop :=
  value = VTuple items \/ value = VList items.

(** The property holds of the tuple and of the list with these items. *)
Definition both_sequences (items : list PyVal) (P : PyVal -> Prop) : Prop :=
  P (VTuple items) /\ P (VList items).

Definition invalid_type_message (name : string) (value : PyVal) : list piece :=
  [Text "`"; Text name;
   Text "` must be int, tuple, or list, but received ";
   Text (type_name value); Text "."].

Definition invalid_length_message (name : string) : list piece :=
  [Text "`"; Text name; Text "` must contain 2 or 4 values. ";
   Text "Valid examples: 10, (10, 20), (10, 5, 10, 5)."].

Definition non_numeric_message (name : string) (seq : PyVal) : list piece :=
  [Text "All values in `"; Text name;
   Text "` must be int or float. Received: "; Shown seq].

(** The message the cell normaliser gives for a wrong type or length: the
    parameter name [cells_spacing] is part of the literal text. *)
Definition cell_invalid_type_message (value : PyVal) : list piece :=
  [Text "`cells_spacing` must be int, tuple, or list, but received ";
   Text (type_name value); Text "."].

Definition cell_invalid_length_message : list piece :=
  [Text "`cells_spacing` must contain 2 or 4 values. ";
   Text "Valid examples: 10, (10, 20), (10, 5, 10, 5)."].

Definition f_five : spec_float := S754_finite false 5629499534213120 (-50).
Definition f_half : spec_float := S754_finite false 4503599627370496 (-53).

(** ** Worlds, matrices and toolkit calls *)

(** The world after some more toolkit calls. *)
Definition add_calls (cs : list tk_call) (w : World) : World :=
  {| self := self w; next_widget := next_widget w; calls := calls w ++ cs |}.

(** The indexes [k, k+1, ..., k+n-1], as [range] yields them. *)
Definition iota (k n : nat) : list Z := map Z.of_nat (seq k n).

Definition is_destroy (c : tk_call) : bool :=
  match c with
  | Destroy _ => true
  | _ => false
  end.

(** [m] leaves the object alone and makes only calls accepted by [P]. *)
Definition only_calls {A} (P : tk_call -> bool) (m : M A) : Prop :=
  forall w, exists cs,
    snd (m w) = add_calls cs w /\ forallb P cs = true.

(** [grid_shape] describes the stored matrix: as many rows and columns
    as the two [range]s of the destruction loops yield.  An empty matrix
    needs no shape at all. *)
Definition shape_matches (w : World) : bool :=
  match _cells_matrix (self w) with
  | [] => true
  | m =>
      match grid_shape (self w) with
      | Some [s0; s1] =>
          match range s0, range s1 with
          | Ok rows, Ok cols =>
              Nat.eqb (List.length m) (List.length rows)
              && forallb (fun r => Nat.eqb (List.length r) (List.length cols)) m
          | _, _ => false
          end
      | _ => false
      end
  end.

Definition mk_world (o : CellsGrid) (n : widget) (cs : list tk_call) : World :=
  {| self := o; next_widget := n; calls := cs |}.

(** The attributes the building loops read: the style of the frames, the
    half-gaps and the two last indexes. *)
Definition styled (o : CellsGrid) (fa : frame_args) (sp : CellSpacing)
    (lr lc : PyVal) : Prop :=
  bg_color fa = VStr "transparent"
  /\ cell_border_color o = Some (border_color fa)
  /\ cell_border_width o = Some (border_width fa)
  /\ cell_corner_radius o = Some (corner_radius fa)
  /\ cell_fg_color o = Some (fg_color fa)
  /\ cell_height o = Some (height fa)
  /\ cell_width o = Some (width fa)
  /\ cell_spacing o = Some sp
  /\ _last_row_index o = Some lr
  /\ _last_column_index o = Some lc.

(** The calls of one row of the building loop: for the columns
    [j, j+1, ..., j+m-1] of row [i], frames [cell, cell+1, ...]. *)
Fixpoint row_calls (fa : frame_args) (sp : CellSpacing) (lr lc : PyVal)
    (cell : widget) (i j m : nat) : list tk_call :=
  match m with
  | O => []
  | S m' =>
      Create cell fa
      :: grid_call sp lr lc cell (Z.of_nat i) (Z.of_nat j)
      :: row_calls fa sp lr lc (S cell) i (S j) m'
  end.

(** [R] rows of [C] fresh frames each, from [cell] on. *)
Fixpoint fresh_rows (cell : widget) (C R : nat) : list (list widget) :=
  match R with
  | O => []
  | S R' => seq cell C :: fresh_rows (cell + C)%nat C R'
  end.

(** The calls of the rows [i, i+1, ..., i+R-1]. *)
Fixpoint build_calls (fa : frame_args) (sp : CellSpacing) (lr lc : PyVal)
    (cell : widget) (i C R : nat) : list tk_call :=
  match R with
  | O => []
  | S R' =>
      row_calls fa sp lr lc cell i 0 C
      ++ build_calls fa sp lr lc (cell + C)%nat (S i) C R'
  end.

(** The frame arguments [load_cells] derives from its own arguments. *)
Definition style_args (a : load_args) : frame_args :=
  {| bg_color := VStr "transparent";
     border_color := cells_border_color a;
     border_width := cells_border_width a;
     corner_radius := cells_corner_radius a;
     fg_color := cells_fg_color a;
     height := if_not_none (cells_height a) (cells_size a);
     width := if_not_none (cells_width a) (cells_size a) |}.

Definition set_style_of (a : load_args) : CellsGrid -> CellsGrid :=
  set_style (cells_border_color a) (cells_border_width a)
            (cells_corner_radius a) (cells_fg_color a)
            (if_not_none (cells_height a) (cells_size a))
            (if_not_none (cells_width a) (cells_size a)).

(** The object once every attribute of a build is assigned and the matrix
    is reset. *)
Definition restyled (a : load_args) (s0 s1 : PyVal) (sp : CellSpacing)
    (lr lc : PyVal) (o : CellsGrid) : CellsGrid :=
  set_cells_matrix []
    (set_last_column_index lc
       (set_last_row_index lr
          (set_cell_spacing sp
             (set_style_of a (set_grid_shape [s0; s1] o))))).

(** The world a successful build of [R] rows and [C] columns leaves. *)
Definition built (a : load_args) (s0 s1 : PyVal) (sp : CellSpacing)
    (lr lc : PyVal) (R C : nat) (w : World) : World :=
  mk_world
    (set_cells_matrix (fresh_rows (next_widget w) C R)
       (restyled a s0 s1 sp lr lc (self w)))
    (next_widget w + R * C)%nat
    (calls w ++ build_calls (style_args a) sp lr lc (next_widget w) 0 C R).

(** What a successful build computes from the arguments alone. *)
Definition plan (a : load_args) (s0 s1 : PyVal) (sp : CellSpacing)
    (lr lc : PyVal) (R C : nat) : Prop :=
  shape_of (array a) = Ok [s0; s1]
  /\ normalize_cell_spacing (cells_spacing a) = Ok sp
  /\ sub_1 s0 = Ok lr
  /\ sub_1 s1 = Ok lc
  /\ range s0 = Ok (iota 0 R)
  /\ (R = O \/ range s1 = Ok (iota 0 C)).

(** The cell stored at row [i], column [j] of a matrix, if any. *)
Definition cell_at (m : list (list widget)) (i j : nat) : option widget :=
  match nth_error m i with
  | Some r => nth_error r j
  | None => None
  end.

(** A placement: row, column, [padx] (left, right), [pady] (top, bottom). *)
Definition placing : Type :=
  Z * Z * (spec_float * spec_float) * (spec_float * spec_float).

(** The most recent [grid] call on a frame. *)
Fixpoint placement_in (cs : list tk_call) (cell : widget) : option placing :=
  match cs with
  | [] => None
  | c :: cs' =>
      match placement_in cs' cell with
      | Some p => Some p
      | None =>
          match c with
          | Grid w row col px py =>
              if Nat.eqb w cell then Some (row, col, px, py) else None
          | _ => None
          end
      end
  end.

Definition placement (w : World) (cell : widget) : option placing :=
  placement_in (calls w) cell.

(** A frame on which [destroy] was called. *)
Definition destroyed (w : World) (cell : widget) : bool :=
  existsb (fun c => match c with
                    | Destroy x => Nat.eqb x cell
                    | _ => false
                    end) (calls w).

(** The arguments of the most recent creation of a frame. *)
Fixpoint frame_in (cs : list tk_call) (cell : widget) : option frame_args :=
  match cs with
  | [] => None
  | c :: cs' =>
      match frame_in cs' cell with
      | Some fa => Some fa
      | None =>
          match c with
          | Create w fa => if Nat.eqb w cell then Some fa else None
          | _ => None
          end
      end
  end.

Definition frame_of (w : World) (cell : widget) : option frame_args :=
  frame_in (calls w) cell.

(** The frames created by a list of calls, in order. *)
Definition created (cs : list tk_call) : list widget :=
  flat_map (fun c => match c with
                     | Create w _ => [w]
                     | _ => []
                     end) cs.

(** The number of iterations of [for _ in range(v)]. *)
Definition count_of (v : PyVal) : nat :=
  match range v with
  | Ok l => List.length l
  | Raise _ => O
  end.


(** The six styling attributes of the object. *)
Definition style_attrs (o : CellsGrid)
  : option PyVal * option PyVal * option PyVal
    * option PyVal * option PyVal * option PyVal :=
  (cell_border_color o, cell_border_width o, cell_corner_radius o,
   cell_fg_color o, cell_height o, cell_width o).

(** The containers a program can hold as long as every [load_cells] it
    called has returned. *)
Inductive sound : World -> Prop :=
| sound_new (margin padding : PyVal) (w : World) :
    init margin padding = Ok w -> sound w
| sound_load (a : load_args) (w w' : World) :
    sound w -> load_cells a w = (Ok tt, w') -> sound w'.

(** ** Some containers and calls *)

(** A new container, as [CellsGrid(master)] makes it with the default
    margin and padding. *)
Definition new_world : World :=
  {| self :=
       {| outer_margin := (VInt 0, VInt 0, VInt 0, VInt 0);
          inner_padding := (VInt 0, VInt 0, VInt 0, VInt 0);
          grid_shape := None;
          cell_border_color := None; cell_border_width := None;
          cell_corner_radius := None; cell_fg_color := None;
          cell_height := None; cell_width := None;
          cell_spacing := None;
          _last_row_index := None; _last_column_index := None;
          _cells_matrix := [] |};
     next_widget := O;
     calls := [] |}.



(** [load_cells(array=2, cells_spacing=10)] *)
Definition two_by_two : load_args :=
  with_spacing (VInt 10) (with_array (VInt 2) default_args).

(** [load_cells(array=(1, 3))] *)
Definition one_by_three : load_args :=
  with_array (VTuple [VInt 1; VInt 3]) default_args.

(** [load_cells(array=(5, 5, 5))] *)
Definition five_cubed : load_args :=
  with_array (VTuple [VInt 5; VInt 5; VInt 5]) default_args.

(** [load_cells(array=(1, 2, 3))] *)
Definition one_two_three : load_args :=
  with_array (VTuple [VInt 1; VInt 2; VInt 3]) default_args.

(* ================================================================== *)
(** * The placement of the container itself *)
(* ================================================================== *)

(** The object with another margin. *)
Definition set_outer_margin (m : SpacingBox) (o : CellsGrid) : CellsGrid :=
  {| outer_margin := m; inner_padding := inner_padding o;
     grid_shape := grid_shape o;
     cell_border_color := cell_border_color o;
     cell_border_width := cell_border_width o;
     cell_corner_radius := cell_corner_radius o;
     cell_fg_color := cell_fg_color o;
     cell_height := cell_height o; cell_width := cell_width o;
     cell_spacing := cell_spacing o;
     _last_row_index := _last_row_index o;
     _last_column_index := _last_column_index o;
     _cells_matrix := _cells_matrix o |}.

(** The object with another padding. *)
Definition set_inner_padding (p : SpacingBox) (o : CellsGrid) : CellsGrid :=
  {| outer_margin := outer_margin o; inner_padding := p;
     grid_shape := grid_shape o;
     cell_border_color := cell_border_color o;
     cell_border_width := cell_border_width o;
     cell_corner_radius := cell_corner_radius o;
     cell_fg_color := cell_fg_color o;
     cell_height := cell_height o; cell_width := cell_width o;
     cell_spacing := cell_spacing o;
     _last_row_index := _last_row_index o;
     _last_column_index := _last_column_index o;
     _cells_matrix := _cells_matrix o |}.

(** Keyword arguments of a call, in the order given. *)
Definition kwargs : Type := list (string * PyVal).

Definition has_keyword (name : string) (kw : kwargs) : bool :=
  existsb (fun entry => String.eqb (fst entry) name) kw.

(** The method [grid], called with the keyword arguments [kw]: the
    keyword arguments that reach the toolkit's own [grid], which the
    method calls with [padx=(m[0], m[2])], [pady=(m[1], m[3])] and then
    all of [kw], for [m = self.outer_margin].  A keyword that the call
    spells out and that [kw] holds as well is a [TypeError] of the call
    itself. *)
Definition grid (o : CellsGrid) (kw : kwargs) : result kwargs :=
  let '(l, t, r, b) := outer_margin o in
  if has_keyword "padx" kw || has_keyword "pady" kw then
    Raise (Builtin TypeError)
  else
    Ok (("padx", VTuple [l; r]) :: ("pady", VTuple [t; b]) :: kw).

(** The keyword arguments of
    [self.container_frame.grid(padx=(p[0], p[2]), pady=(p[1], p[3]))] in
    [__init__], with [p = self.inner_padding]. *)
Definition container_frame_grid (o : CellsGrid) : kwargs :=
  let '(l, t, r, b) := inner_padding o in
  [("padx", VTuple [l; r]); ("pady", VTuple [t; b])].

(* ================================================================== *)
(** * Vocabulary of the further properties *)
(* ================================================================== *)

(** [m] relates every world to the world it leaves by [Q]. *)
Definition keeps {A} (Q : World -> World -> Prop) (m : M A) : Prop :=
  forall w, Q w (snd (m w)).

(** What [Q] has to allow for [load_cells] to keep it: the assignments
    of the method, the creation and the placement of a frame. *)
Definition allows_build (Q : World -> World -> Prop) : Prop :=
  (forall w, Q w w)
  /\ (forall w1 w2 w3, Q w1 w2 -> Q w2 w3 -> Q w1 w3)
  /\ (forall v, keeps Q (assign (set_grid_shape v)))
  /\ (forall bc bw cr fg h wd, keeps Q (assign (set_style bc bw cr fg h wd)))
  /\ (forall v, keeps Q (assign (set_cell_spacing v)))
  /\ (forall v, keeps Q (assign (set_last_row_index v)))
  /\ (forall v, keeps Q (assign (set_last_column_index v)))
  /\ (forall v, keeps Q (assign (set_cells_matrix v)))
  /\ (forall args, keeps Q (new_frame args))
  /\ (forall cell row col px py, keeps Q (tk (Grid cell row col px py))).

(** The margin and the padding are the same in both worlds. *)
Definition same_box (w w' : World) : Prop :=
  outer_margin (self w') = outer_margin (self w)
  /\ inner_padding (self w') = inner_padding (self w).

(** [m] looks at the object only, and leaves it as it is. *)
Definition reads_object {A} (m : M A) : Prop :=
  forall w,
    self (snd (m w)) = self w
    /\ forall w', self w' = self w -> fst (m w') = fst (m w).

(** The outcomes of a series of [load_cells] calls, one after the other. *)
Fixpoint outcomes (calls_made : list load_args) (w : World)
  : list (result unit) :=
  match calls_made with
  | [] => []
  | a :: rest =>
      outcome (load_cells a) w :: outcomes rest (after (load_cells a) w)
  end.

(** A frame that was created and on which [destroy] was never called. *)
Definition alive (w : World) (cell : widget) : bool :=
  existsb (Nat.eqb cell) (created (calls w)) && negb (destroyed w cell).

(** The cells of the first [C] columns of the first [R] rows, row by row. *)
Definition block (R C : nat) (m : list (list widget)) : list widget :=
  List.concat (map (firstn C) (firstn R m)).

(** [R] rows of [C] cells each. *)
Definition rectangular (m : list (list widget)) (R C : nat) : Prop :=
  List.length m = R /\ Forall (fun row => List.length row = C) m.

(** The calls of [w'] are those of [w] followed by calls accepted by [P]. *)
Definition adds_calls (P : tk_call -> bool) (w w' : World) : Prop :=
  exists cs, calls w' = calls w ++ cs /\ forallb P cs = true.

(** A call other than [destroy]. *)
Definition not_destroy (c : tk_call) : bool := negb (is_destroy c).

(** The cells of the matrix, row by row. *)
Definition cells_of (w : World) : list widget :=
  List.concat (_cells_matrix (self w)).

(** A [destroy] call on one of the given frames. *)
Definition destroys_within (cells : list widget) (c : tk_call) : bool :=
  match c with
  | Destroy x => existsb (Nat.eqb x) cells
  | _ => false
  end.

(** From [w] to [w'] the object and the handles are left as they are, and
    the only calls added are [destroy] calls on cells of the matrix. *)
Definition destroys_held (w w' : World) : Prop :=
  self w' = self w /\ next_widget w' = next_widget w
  /\ adds_calls (destroys_within (cells_of w)) w w'.

(** The containers a program can hold as long as the calls into the
    toolkit return: a new one, and the one any [load_cells] call leaves,
    whether it returned or raised in one of its own steps. *)
Inductive reachable : World -> Prop :=
| reachable_new (margin padding : PyVal) (w : World) :
    init margin padding = Ok w -> reachable w
| reachable_load (a : load_args) (w : World) :
    reachable w -> reachable (after (load_cells a) w).

(** The matrix holds live cells only, each once, and [grid_shape]
    describes it. *)
Definition fresh (w : World) : Prop :=
  shape_matches w = true
  /\ NoDup (cells_of w)
  /\ forall cell, In cell (cells_of w) -> alive w cell = true.

(** The matrix holds destroyed cells only. *)
Definition spent (w : World) : Prop :=
  forall cell, In cell (cells_of w) -> destroyed w cell = true.

(** The invariant of the container: the handles created are
    [0, 1, ..., next_widget - 1], a destroyed frame is one of them, a live
    frame is in the matrix, and the matrix is either fresh or spent. *)
Definition tidy (w : World) : Prop :=
  created (calls w) = seq 0 (next_widget w)
  /\ (forall cell, destroyed w cell = true -> (cell < next_widget w)%nat)
  /\ (forall cell, alive w cell = true -> In cell (cells_of w))
  /\ (fresh w \/ spent w).

(** A [destroy] call on the given frame. *)
Definition destroys (cell : widget) (c : tk_call) : bool :=
  match c with
  | Destroy x => Nat.eqb x cell
  | _ => false
  end.

(** The class of an exception. *)
Definition error_class (e : exn) : exc_class :=
  match e with
  | Raised c _ => c
  | Builtin c => c
  end.

(** The four values of a box, each divided by two, left to right. *)
Definition halves (box : SpacingBox) : result CellSpacing :=
  let '(l, t, r, b) := box in
  let? hl := truediv_2 l in
  let? ht := truediv_2 t in
  let? hr := truediv_2 r in
  let? hb := truediv_2 b in
  Ok (hl, ht, hr, hb).

(** [grid_shape] has been assigned. *)
Definition has_shape (w : World) : Prop :=
  exists shape, grid_shape (self w) = Some shape.

(** From a world with a shape, [m] leaves one with a shape, and raises
    nothing but exceptions in [P]. *)
Definition raises_only {A} (P : exn -> Prop) (m : M A) : Prop :=
  forall w,
    has_shape w ->
    has_shape (snd (m w)) /\ forall e, fst (m w) = Raise e -> P e.

(** The exceptions of indexing and of counting. *)
Definition index_or_type (e : exn) : Prop :=
  e = Builtin IndexError \/ e = Builtin TypeError.

(** [e] is raised by one of the steps of [load_cells] that come after
    the destruction and are no toolkit calls: [tuple(array)], the test of
    the shape, the spacing normaliser, the subtractions
    [self.grid_shape[k] - 1] and the calls [range(self.grid_shape[k])]. *)
Definition build_failure (a : load_args) (e : exn) : Prop :=
  shape_of (array a) = Raise e
  \/ exists shape,
       shape_of (array a) = Ok shape
       /\ ((List.length shape <> 2%nat
            /\ e = Raised ValueError invalid_shape_message)
           \/ normalize_cell_spacing (cells_spacing a) = Raise e
           \/ exists s,
                In s shape /\ (sub_1 s = Raise e \/ range s = Raise e)).

(* ================================================================== *)
(** * Properties of the numbers *)
(* ================================================================== *)

Section Floats.






Lemma fexp_eq (e : Z) : fexp prec emax e = Z.max (e - 53) (-1074).
Proof. reflexivity. Qed.

Lemma digits2_size (p : positive) : digits2_pos p = Pos.size p.
Proof. induction p; cbn; now rewrite ?IHp. Qed.

Lemma Zdigits2_log2 (m : Z) : 0 < m -> Zdigits2 m = Z.log2 m + 1.
Proof.
  destruct m as [|p|p]; try lia. intros _. cbn [Zdigits2].
  rewrite digits2_size. destruct p; cbn; lia.
Qed.

Lemma Zdigits2_nonneg (m : Z) : 0 <= Zdigits2 m.
Proof. destruct m; cbn; lia. Qed.

Lemma Zdigits2_pos (m : Z) : 0 < m -> 0 < Zdigits2 m.
Proof. destruct m; cbn; lia. Qed.

Lemma Zdigits2_shiftr (m n : Z) :
  0 <= m -> 0 <= n -> Zdigits2 (Z.shiftr m n) = Z.max 0 (Zdigits2 m - n).
Proof.
  intros Hm Hn.
  destruct (Z.eq_dec m 0) as [->|Hm0].
  - rewrite Z.shiftr_0_l. cbn. lia.
  - assert (Hpos : 0 < m) by lia.
    destruct (Z.eq_dec (Z.shiftr m n) 0) as [E|E].
    + rewrite E. cbn [Zdigits2].
      apply Z.shiftr_eq_0_iff in E. rewrite Zdigits2_log2 by trivial. lia.
    + assert (0 <= Z.shiftr m n) by (apply Z.shiftr_nonneg; lia).
      rewrite !Zdigits2_log2 by lia.
      rewrite Z.log2_shiftr by lia.
      assert (~ (m = 0 \/ 0 < m /\ Z.log2 m < n))
        by (intros X; apply Z.shiftr_eq_0_iff in X; contradiction).
      lia.
Qed.


Lemma Zdigits2_le (m k : Z) : 0 <= k -> 0 <= m -> (Zdigits2 m <= k <-> m < 2 ^ k).
Proof.
  intros Hk Hm. destruct (Z.eq_dec m 0) as [->|Hm0].
  - cbn. split; intros _; [apply Z.pow_pos_nonneg|]; lia.
  - rewrite Zdigits2_log2 by lia.
    split; intros H.
    + apply Z.log2_lt_pow2; lia.
    + apply Z.log2_lt_pow2 in H; lia.
Qed.

Lemma Zdigits2_mono (m m' : Z) : 0 <= m -> m <= m' -> Zdigits2 m <= Zdigits2 m'.
Proof.
  intros Hm Hle. destruct (Z.eq_dec m 0) as [->|Hm0].
  - apply Zdigits2_nonneg.
  - rewrite !Zdigits2_log2 by lia.
    pose proof (Z.log2_le_mono m m' Hle). lia.
Qed.

Lemma iter_pos_Pos_iter {A} (f : A -> A) (n : positive) (x : A) :
  iter_pos f n x = Pos.iter f x n.
Proof.
  revert x. induction n as [n IH|n IH|]; intros x; cbn [iter_pos Pos.iter].
  - rewrite !IH. now rewrite <- !Pos.iter_swap.
  - now rewrite !IH.
  - reflexivity.
Qed.

Lemma shr_1_m (mrs : shr_record) :
  0 <= shr_m mrs -> shr_m (shr_1 mrs) = Z.div2 (shr_m mrs).
Proof.
  destruct mrs as [m r s]. cbn [shr_m]. intros H.
  destruct m as [|[p|p|]|p]; try lia; reflexivity.
Qed.

Lemma shr_1_nonneg (mrs : shr_record) :
  0 <= shr_m mrs -> 0 <= shr_m (shr_1 mrs).
Proof.
  intros H. rewrite shr_1_m by trivial. now apply Z.div2_nonneg.
Qed.

Lemma iter_shr_m (n : positive) (mrs : shr_record) :
  0 <= shr_m mrs ->
  shr_m (iter_pos shr_1 n mrs) = Z.shiftr (shr_m mrs) (Z.pos n).
Proof.
  rewrite iter_pos_Pos_iter. cbn [Z.shiftr Z.shiftl Z.opp].
  revert mrs. pattern n. apply Pos.peano_ind; clear n.
  - intros mrs H. cbn [Pos.iter]. now apply shr_1_m.
  - intros n IH mrs H. rewrite !Pos.iter_succ.
    rewrite shr_1_m.
    + now rewrite IH.
    + rewrite IH by trivial.
      clear IH. pattern n. apply Pos.peano_ind; clear n.
      * cbn. now apply Z.div2_nonneg.
      * intros n IH. rewrite Pos.iter_succ. now apply Z.div2_nonneg.
Qed.

(** The first component of [shr_fexp]: the mantissa shifted to the
    exponent [fexp]. *)
Lemma shr_fexp_spec (m ex : Z) (l : location) :
  0 <= m -> ex <= fexp prec emax (Zdigits2 m + ex) ->
  let e' := fexp prec emax (Zdigits2 m + ex) in
  snd (shr_fexp prec emax m ex l) = e'
  /\ shr_m (fst (shr_fexp prec emax m ex l)) = Z.shiftr m (e' - ex).
Proof.
  intros Hm Hex e'. unfold shr_fexp. fold e'.
  assert (Hrec : shr_m (shr_record_of_loc m l) = m)
    by (destruct l as [|[]]; reflexivity).
  unfold shr. destruct (e' - ex) as [|n|n] eqn:En; try lia.
  - cbn [fst snd]. rewrite Hrec. split; [lia|]. now rewrite Z.shiftr_0_r.
  - cbn [fst snd]. rewrite iter_shr_m by (rewrite Hrec; trivial).
    rewrite Hrec. split; [lia|reflexivity].
Qed.

Lemma round_nearest_even_bounds (m : Z) (l : location) :
  m <= round_nearest_even m l <= m + 1.
Proof.
  destruct l as [|[]]; cbn; try lia. destruct (Z.even m); lia.
Qed.

Lemma shiftr_nonneg (m n : Z) : 0 <= m -> 0 <= Z.shiftr m n.
Proof. intros H. now apply Z.shiftr_nonneg. Qed.

(** Rounding a non-negative mantissa that has digits enough yields a
    binary64 value, never a NaN, and a finite one below the last binade. *)
Lemma binary_round_aux_valid (sx : bool) (mx ex : Z) (lx : location) :
  0 <= mx -> ex <= fexp prec emax (Zdigits2 mx + ex) ->
  is_binary64 (binary_round_aux prec emax sx mx ex lx) = true
  /\ binary_round_aux prec emax sx mx ex lx <> S754_nan
  /\ (fexp prec emax (Zdigits2 mx + ex) < 971 ->
      is_finite (binary_round_aux prec emax sx mx ex lx) = true).
Proof.
  intros Hm Hex. unfold binary_round_aux.
  destruct (shr_fexp_spec mx ex lx Hm Hex) as [He' Hm'].
  destruct (shr_fexp prec emax mx ex lx) as [mrs' e'].
  cbn [fst snd] in He', Hm'. rewrite <- He' in Hm'.
  set (m' := shr_m mrs') in *.
  set (m1 := round_nearest_even m' (loc_of_shr_record mrs')).
  pose proof (round_nearest_even_bounds m' (loc_of_shr_record mrs')) as Hr.
  fold m1 in Hr.
  assert (Hm'0 : 0 <= m') by (rewrite Hm'; now apply shiftr_nonneg).
  assert (Hd' : Zdigits2 m' = Z.max 0 (Zdigits2 mx - (e' - ex)))
    by (rewrite Hm'; apply Zdigits2_shiftr; lia).
  pose proof (Zdigits2_nonneg mx) as Hdx.
  symmetry in He'. rewrite fexp_eq in He', Hex.
  assert (Hd'53 : Zdigits2 m' <= 53) by lia.
  assert (Hcan : Zdigits2 m' = 53 \/ e' = -1074) by lia.
  assert (He'min : -1074 <= e') by lia.
  assert (Hlt : m' < 2 ^ 53) by (apply Zdigits2_le; lia).
  assert (Hm10 : 0 <= m1) by lia.
  destruct (Z.eq_dec m1 (2 ^ 53)) as [E1|E1].
  - (* the rounding carried into a new digit *)
    assert (Hsh : fexp prec emax (Zdigits2 m1 + e') = e' + 1).
    { rewrite E1, fexp_eq.
      change (Zdigits2 (2 ^ 53)) with 54. lia. }
    assert (Hex1 : e' <= fexp prec emax (Zdigits2 m1 + e')) by lia.
    destruct (shr_fexp_spec m1 e' loc_Exact Hm10 Hex1) as [He'' Hm''].
    destruct (shr_fexp prec emax m1 e' loc_Exact) as [mrs'' e''].
    cbn [fst snd] in He'', Hm''.
    rewrite Hsh in He'', Hm''. subst e''.
    replace (e' + 1 - e') with 1 in Hm'' by lia.
    rewrite E1 in Hm''.
    cbn in Hm''. rewrite Hm''.
    destruct (Z.leb_spec (e' + 1) (emax - prec)) as [Hle|Hgt].
    + split; [|split; [discriminate|reflexivity]].
      unfold is_binary64, valid_binary, bounded, canonical_mantissa.
      apply andb_true_intro. split.
      * apply Z.eqb_eq. rewrite fexp_eq.
        change (Z.pos (digits2_pos 4503599627370496)) with 53. lia.
      * now apply Z.leb_le.
    + split; [reflexivity|]. split; [discriminate|].
      intros Hb. rewrite fexp_eq in Hb. unfold emax, prec in Hgt. lia.
  - (* no new digit *)
    assert (Hlt1 : m1 < 2 ^ 53) by lia.
    assert (Hd1 : Zdigits2 m1 <= 53) by (apply Zdigits2_le; lia).
    pose proof (Zdigits2_mono m' m1 Hm'0 ltac:(lia)) as Hmono.
    assert (Hf1 : fexp prec emax (Zdigits2 m1 + e') = e')
      by (rewrite fexp_eq; lia).
    assert (Hex1 : e' <= fexp prec emax (Zdigits2 m1 + e')) by lia.
    destruct (shr_fexp_spec m1 e' loc_Exact Hm10 Hex1) as [He'' Hm''].
    destruct (shr_fexp prec emax m1 e' loc_Exact) as [mrs'' e''].
    cbn [fst snd] in He'', Hm''.
    rewrite Hf1 in He'', Hm''. subst e''.
    rewrite Z.sub_diag, Z.shiftr_0_r in Hm''. rewrite Hm''.
    destruct m1 as [|p|p] eqn:Ep; try lia.
    + split; [reflexivity|]. split; [discriminate|reflexivity].
    + destruct (Z.leb_spec e' (emax - prec)) as [Hle|Hgt].
      * split; [|split; [discriminate|reflexivity]].
        unfold is_binary64, valid_binary, bounded, canonical_mantissa.
        apply andb_true_intro. split.
        -- apply Z.eqb_eq. exact Hf1.
        -- now apply Z.leb_le.
      * split; [reflexivity|]. split; [discriminate|].
        intros Hb. rewrite fexp_eq in Hb. unfold emax, prec in Hgt. lia.
Qed.

Lemma digits2_iter_xO (m d : positive) :
  Z.pos (digits2_pos (Pos.iter xO m d)) = Z.pos (digits2_pos m) + Z.pos d.
Proof.
  pattern d. apply Pos.peano_ind; clear d.
  - cbn [Pos.iter digits2_pos]. lia.
  - intros d IH. rewrite Pos.iter_succ. cbn [digits2_pos]. lia.
Qed.

Lemma binary_round_valid (s : bool) (mx : positive) (ex : Z) :
  is_binary64 (binary_round prec emax s mx ex) = true
  /\ binary_round prec emax s mx ex <> S754_nan
  /\ (fexp prec emax (Z.pos (digits2_pos mx) + ex) < 971 ->
      is_finite (binary_round prec emax s mx ex) = true).
Proof.
  unfold binary_round, shl_align.
  set (ex' := fexp prec emax (Z.pos (digits2_pos mx) + ex)).
  assert (Hex' : ex' = Z.max (Z.pos (digits2_pos mx) + ex - 53) (-1074))
    by apply fexp_eq.
  destruct (ex' - ex) as [|d|d] eqn:Ed.
  - apply binary_round_aux_valid; [lia | cbn [Zdigits2]; fold ex'; lia].
  - apply binary_round_aux_valid; [lia | cbn [Zdigits2]; fold ex'; lia].
  - assert (Hd : fexp prec emax (Zdigits2 (Z.pos (Pos.iter xO mx d)) + ex')
                 = ex')
      by (cbn [Zdigits2]; rewrite digits2_iter_xO, fexp_eq; lia).
    destruct (binary_round_aux_valid s (Z.pos (Pos.iter xO mx d)) ex'
                loc_Exact) as (V & N & F); [lia | lia |].
    rewrite Hd in F. now repeat split.
Qed.

Lemma binary_normalize_valid (n e : Z) (s : bool) :
  is_binary64 (binary_normalize prec emax n e s) = true
  /\ binary_normalize prec emax n e s <> S754_nan
  /\ (fexp prec emax (Zdigits2 n + e) < 971 ->
      is_finite (binary_normalize prec emax n e s) = true).
Proof.
  destruct n as [|p|p]; cbn [binary_normalize Zdigits2].
  - split; [reflexivity|]. split; [discriminate|reflexivity].
  - apply binary_round_valid.
  - apply binary_round_valid.
Qed.




(** On an int below [2 ** 1024] in magnitude, [/ 2] does not raise. *)
Lemma int_truediv_2_total (n : Z) :
  Z.abs n < 2 ^ 1024 -> exists h, int_truediv_2 n = Ok h.
Proof.
  intros Hn. unfold int_truediv_2.
  destruct (binary_normalize_valid n (-1) false) as (_ & _ & F).
  assert (Hd : Zdigits2 n <= 1024).
  { replace (Zdigits2 n) with (Zdigits2 (Z.abs n))
      by (destruct n; reflexivity).
    apply Zdigits2_le; lia. }
  assert (Hf : is_finite (binary_normalize prec emax n (-1) false) = true)
    by (apply F; rewrite fexp_eq; lia).
  destruct (binary_normalize prec emax n (-1) false) as [s|s| |s m e];
    try discriminate Hf; eexists; reflexivity.
Qed.

(** On a float, [/ 2] never raises. *)
Lemma truediv_2_float (f : spec_float) :
  truediv_2 (VFloat f) = Ok (SFdiv prec emax f f_two).
Proof. reflexivity. Qed.

End Floats.

Example half_of_ten :
  normalize_cell_spacing (VInt 10)
  = Ok (let five := S754_finite false 5629499534213120 (-50) in
        (five, five, five, five)).
Proof. vm_compute. reflexivity. Qed.


(* ================================================================== *)
(** * Properties of the spacing normalisers *)
(* ================================================================== *)

Lemma ensure_numeric_ok (value : PyVal) (items : list PyVal) (name : string) :
  sequence_of value items -> forallb numeric items = true ->
  ensure_numeric_sequence value name = Ok tt.
Proof.
  intros [-> | ->] H; unfold ensure_numeric_sequence, tuple_of, rbind;
    change (forallb _ items) with (forallb numeric items);
    rewrite H; reflexivity.
Qed.

Lemma ensure_numeric_bad (value : PyVal) (items : list PyVal) (name : string) :
  sequence_of value items -> forallb numeric items = false ->
  ensure_numeric_sequence value name
  = raise TypeError
      [Text "All values in `"; Text name;
       Text "` must be int or float. Received: "; Shown value].
Proof.
  intros [-> | ->] H; unfold ensure_numeric_sequence, tuple_of, rbind;
    change (forallb _ items) with (forallb numeric items);
    rewrite H; reflexivity.
Qed.

Lemma truediv_2_numeric (v : PyVal) (h : spec_float) :
  truediv_2 v = Ok h -> numeric v = true.
Proof. destruct v; cbn; intros H; try discriminate; reflexivity. Qed.

Lemma sequence_of_both (items : list PyVal) (P : PyVal -> Prop) :
  (forall s, sequence_of s items -> P s) -> both_sequences items P.
Proof. intros H; split; apply H; [left | right]; reflexivity. Qed.


(** Every number within the range of floats has a half. *)
Lemma truediv_2_total (v : PyVal) :
  numeric v = true -> in_float_range v = true ->
  exists h, truediv_2 v = Ok h.
Proof.
  destruct v; cbn [truediv_2 in_float_range]; intros Hn Hr;
    try discriminate Hn.
  - apply int_truediv_2_total. destruct b; cbn; lia.
  - apply int_truediv_2_total. now apply Z.ltb_lt.
  - eexists; reflexivity.
Qed.



Lemma cell_spacing_int (v : PyVal) (h : spec_float) :
  isinstance v [C_int] = true -> truediv_2 v = Ok h ->
  normalize_cell_spacing v = Ok (h, h, h, h).
Proof.
  intros Hi Hh. unfold normalize_cell_spacing.
  destruct v; try discriminate Hi;
    cbn [isinstance existsb instance_of negb orb];
    repeat (cbn [rbind]; rewrite ?Hh); reflexivity.
Qed.

Lemma cell_spacing_2 (s x y : PyVal) (hx hy : spec_float) :
  sequence_of s [x; y] -> truediv_2 x = Ok hx -> truediv_2 y = Ok hy ->
  normalize_cell_spacing s = Ok (hx, hy, hx, hy).
Proof.
  intros Hs Hx Hy. unfold normalize_cell_spacing.
  rewrite (ensure_numeric_ok s [x; y]); trivial.
  - destruct Hs as [-> | ->];
      repeat (simpl; rewrite ?Hx, ?Hy); reflexivity.
  - cbn [forallb]. rewrite (truediv_2_numeric _ _ Hx), (truediv_2_numeric _ _ Hy).
    reflexivity.
Qed.

Lemma cell_spacing_4 (s l t r b : PyVal) (hl ht hr hb : spec_float) :
  sequence_of s [l; t; r; b] ->
  truediv_2 l = Ok hl -> truediv_2 t = Ok ht ->
  truediv_2 r = Ok hr -> truediv_2 b = Ok hb ->
  normalize_cell_spacing s = Ok (hl, ht, hr, hb).
Proof.
  intros Hs Hl Ht Hr Hb. unfold normalize_cell_spacing.
  rewrite (ensure_numeric_ok s [l; t; r; b]); trivial.
  - destruct Hs as [-> | ->];
      repeat (simpl; rewrite ?Hl, ?Ht, ?Hr, ?Hb); reflexivity.
  - cbn [forallb]. rewrite (truediv_2_numeric _ _ Hl), (truediv_2_numeric _ _ Ht),
      (truediv_2_numeric _ _ Hr), (truediv_2_numeric _ _ Hb).
    reflexivity.
Qed.

Lemma box_spacing_int (v : PyVal) (name : string) :
  isinstance v [C_int] = true ->
  normalize_box_spacing v name = Ok (v, v, v, v).
Proof.
  intros Hi. unfold normalize_box_spacing.
  destruct v; try discriminate Hi; reflexivity.
Qed.

Lemma box_spacing_2 (s x y : PyVal) (name : string) :
  sequence_of s [x; y] -> numeric x = true -> numeric y = true ->
  normalize_box_spacing s name = Ok (x, y, x, y).
Proof.
  intros Hs Hx Hy. unfold normalize_box_spacing.
  rewrite (ensure_numeric_ok s [x; y]); trivial.
  - destruct Hs as [-> | ->]; reflexivity.
  - cbn [forallb]. rewrite Hx, Hy. reflexivity.
Qed.

Lemma box_spacing_4 (s l t r b : PyVal) (name : string) :
  sequence_of s [l; t; r; b] ->
  numeric l = true -> numeric t = true ->
  numeric r = true -> numeric b = true ->
  normalize_box_spacing s name = Ok (l, t, r, b).
Proof.
  intros Hs Hl Ht Hr Hb. unfold normalize_box_spacing.
  rewrite (ensure_numeric_ok s [l; t; r; b]); trivial.
  - destruct Hs as [-> | ->]; reflexivity.
  - cbn [forallb]. rewrite Hl, Ht, Hr, Hb. reflexivity.
Qed.

Lemma spacing_wrong_type (bad : PyVal) (name : string) :
  isinstance bad [C_int; C_tuple; C_list] = false ->
  normalize_box_spacing bad name
    = raise TypeError (invalid_type_message name bad)
  /\ normalize_cell_spacing bad
    = raise TypeError (cell_invalid_type_message bad).
Proof.
  intros H. unfold normalize_box_spacing, normalize_cell_spacing.
  rewrite H. split; reflexivity.
Qed.

Lemma spacing_wrong_length (s : PyVal) (items : list PyVal) (name : string) :
  sequence_of s items ->
  List.length items <> 2%nat -> List.length items <> 4%nat ->
  normalize_box_spacing s name
    = raise ValueError (invalid_length_message name)
  /\ normalize_cell_spacing s
    = raise ValueError cell_invalid_length_message.
Proof.
  intros Hs H2 H4.
  destruct items as [|a [|b [|c [|d [|e rest]]]]];
    try (exfalso; apply H2; reflexivity);
    try (exfalso; apply H4; reflexivity);
    destruct Hs as [-> | ->]; split; reflexivity.
Qed.

Lemma spacing_non_numeric (s : PyVal) (items : list PyVal) (name : string) :
  sequence_of s items ->
  List.length items = 2%nat \/ List.length items = 4%nat ->
  forallb numeric items = false ->
  normalize_box_spacing s name
    = raise TypeError (non_numeric_message name s)
  /\ normalize_cell_spacing s
    = raise TypeError (non_numeric_message "cells_spacing" s).
Proof.
  intros Hs Hlen Hbad.
  assert (Hl : len s = Ok (List.length items))
    by (destruct Hs as [-> | ->]; reflexivity).
  assert (Hi : isinstance s [C_int; C_tuple; C_list] = true)
    by (destruct Hs as [-> | ->]; reflexivity).
  assert (Hn : isinstance s [C_int] = false)
    by (destruct Hs as [-> | ->]; reflexivity).
  unfold normalize_box_spacing, normalize_cell_spacing.
  rewrite Hi, Hn, Hl, !(ensure_numeric_bad s items) by assumption.
  destruct Hlen as [-> | ->]; split; reflexivity.
Qed.

(* ================================================================== *)
(** * Running the methods *)
(* ================================================================== *)

Lemma add_calls_nil (w : World) : add_calls [] w = w.
Proof. destruct w; unfold add_calls; cbn. now rewrite app_nil_r. Qed.

Lemma add_calls_app (cs1 cs2 : list tk_call) (w : World) :
  add_calls cs2 (add_calls cs1 w) = add_calls (cs1 ++ cs2) w.
Proof. unfold add_calls; cbn. now rewrite app_assoc. Qed.

Lemma range_iota (v : PyVal) (l : list Z) :
  range v = Ok l -> l = iota 0 (List.length l).
Proof.
  unfold iota.
  destruct v; cbn; intros H; inversion H; subst;
    now rewrite length_map, length_seq.
Qed.

Lemma iota_length (k n : nat) : List.length (iota k n) = n.
Proof. unfold iota. now rewrite length_map, length_seq. Qed.

Lemma iota_S (k n : nat) : iota k (S n) = Z.of_nat k :: iota (S k) n.
Proof. reflexivity. Qed.

Lemma getitem_nat {A} (l : list A) (i : nat) (a : A) :
  nth_error l i = Some a -> getitem l (Z.of_nat i) = Ok a.
Proof.
  intros H. unfold getitem.
  assert (Hlt : (i < List.length l)%nat)
    by (apply nth_error_Some; congruence).
  destruct (Z.ltb_spec (Z.of_nat i) 0) as [?|_]; [lia|].
  destruct (Z.ltb_spec (Z.of_nat i) 0) as [?|_]; [lia|].
  destruct (Z.leb_spec (Z.of_nat (List.length l)) (Z.of_nat i)) as [?|_];
    [lia|].
  cbn [orb]. now rewrite Nat2Z.id, H.
Qed.

Lemma getitem_beyond {A} (l : list A) (i : nat) :
  (List.length l <= i)%nat ->
  getitem l (Z.of_nat i) = Raise (Builtin IndexError).
Proof.
  intros H. unfold getitem.
  destruct (Z.ltb_spec (Z.of_nat i) 0) as [?|_]; [lia|].
  destruct (Z.ltb_spec (Z.of_nat i) 0) as [?|_]; [lia|].
  destruct (Z.leb_spec (Z.of_nat (List.length l)) (Z.of_nat i)) as [_|?];
    [reflexivity|lia].
Qed.

Lemma bind_ok {A B} (m : M A) (k : A -> M B) (w w' : World) (a : A) :
  m w = (Ok a, w') -> bind m k w = k a w'.
Proof. intros H. unfold bind. now rewrite H. Qed.

Lemma bind_raise {A B} (m : M A) (k : A -> M B) (w w' : World) (e : exn) :
  m w = (Raise e, w') -> bind m k w = (Raise e, w').
Proof. intros H. unfold bind. now rewrite H. Qed.

Lemma for_each_cons {A} (x : A) (l : list A) (body : A -> M unit) :
  for_each (x :: l) body = bind (body x) (fun _ => for_each l body).
Proof. reflexivity. Qed.

Lemma bind_fst_raise {A B} (m : M A) (k : A -> M B) (w : World) (e : exn) :
  fst (m w) = Raise e -> fst (bind m k w) = Raise e.
Proof.
  unfold bind. destruct (m w) as [[x|e'] w1]; cbn; intros H;
    [discriminate|now inversion H].
Qed.

Lemma for_each_raise {A} (x : A) (l : list A) (body : A -> M unit)
    (w w' : World) (e : exn) :
  body x w = (Raise e, w') -> for_each (x :: l) body w = (Raise e, w').
Proof. intros H. cbn [for_each]. now apply bind_raise. Qed.

(** ** Computations that only call the toolkit *)

Lemma only_calls_pure {A} (P : tk_call -> bool) (m : M A) :
  (forall w, snd (m w) = w) -> only_calls P m.
Proof.
  intros H w. exists []. rewrite H, add_calls_nil. now split.
Qed.

Lemma only_calls_bind {A B} (P : tk_call -> bool) (m : M A) (k : A -> M B) :
  only_calls P m -> (forall a, only_calls P (k a)) ->
  only_calls P (bind m k).
Proof.
  intros Hm Hk w. unfold bind.
  destruct (Hm w) as [cs1 [E1 F1]].
  destruct (m w) as [[a|e] w1]; cbn [snd] in E1; subst w1.
  - destruct (Hk a (add_calls cs1 w)) as [cs2 [E2 F2]].
    exists (cs1 ++ cs2). rewrite E2, add_calls_app, forallb_app, F1, F2.
    now split.
  - exists cs1. now split.
Qed.

Lemma only_calls_for_each {A} (P : tk_call -> bool) (l : list A)
    (body : A -> M unit) :
  (forall x, only_calls P (body x)) -> only_calls P (for_each l body).
Proof.
  intros H. induction l as [|x l IH]; cbn [for_each].
  - now apply only_calls_pure.
  - apply only_calls_bind; auto.
Qed.

Lemma only_calls_attr {A} (P : tk_call -> bool) (f : CellsGrid -> option A) :
  only_calls P (attr f).
Proof.
  apply only_calls_pure. intros w. unfold attr. now destruct (f (self w)).
Qed.

Lemma only_calls_lift {A} (P : tk_call -> bool) (r : result A) :
  only_calls P (lift r).
Proof. now apply only_calls_pure. Qed.

Lemma only_calls_shape_at (P : tk_call -> bool) (i : Z) :
  only_calls P (shape_at i).
Proof.
  apply only_calls_bind; [apply only_calls_attr|].
  intros a. apply only_calls_lift.
Qed.

Lemma only_calls_tk (P : tk_call -> bool) (c : tk_call) :
  P c = true -> only_calls P (tk c).
Proof.
  intros H w. exists [c]. cbn. now rewrite H.
Qed.

(** Whatever its outcome, [__destroy_all_cells] changes no attribute and
    creates no frame: it only destroys. *)
Lemma destroy_only_destroys : only_calls is_destroy destroy_all_cells.
Proof.
  unfold destroy_all_cells.
  apply only_calls_bind; [now apply only_calls_pure|].
  intros [|r m].
  - now apply only_calls_pure.
  - apply only_calls_bind; [apply only_calls_shape_at|]. intros s0.
    apply only_calls_bind; [apply only_calls_lift|]. intros rows.
    apply only_calls_for_each. intros row. unfold destroy_row.
    apply only_calls_bind; [apply only_calls_shape_at|]. intros s1.
    apply only_calls_bind; [apply only_calls_lift|]. intros cols.
    apply only_calls_for_each. intros col. unfold destroy_cell.
    apply only_calls_bind; [now apply only_calls_pure|]. intros m'.
    apply only_calls_bind; [apply only_calls_lift|]. intros r'.
    apply only_calls_bind; [apply only_calls_lift|]. intros cell.
    now apply only_calls_tk.
Qed.

(** ** Destroying a matrix that the shape describes *)

Lemma self_add_calls (cs : list tk_call) (w : World) :
  self (add_calls cs w) = self w.
Proof. reflexivity. Qed.

Lemma destroy_cell_run (w : World) (i k : nat) (r : list widget) (c : widget) :
  nth_error (_cells_matrix (self w)) i = Some r ->
  nth_error r k = Some c ->
  destroy_cell (Z.of_nat i) (Z.of_nat k) w = (Ok tt, add_calls [Destroy c] w).
Proof.
  intros Hr Hc. unfold destroy_cell, bind, get_cells_grid, lift.
  now rewrite (getitem_nat _ _ _ Hr), (getitem_nat _ _ _ Hc).
Qed.

Lemma destroy_cells_run (i : nat) (r : list widget) (n : nat) :
  forall (k : nat) (w : World),
    nth_error (_cells_matrix (self w)) i = Some r ->
    (k + n)%nat = List.length r ->
    for_each (iota k n) (destroy_cell (Z.of_nat i)) w
    = (Ok tt, add_calls (map Destroy (skipn k r)) w).
Proof.
  induction n as [|n IH]; intros k w Hr Hk.
  - rewrite skipn_all2 by lia. cbn. now rewrite add_calls_nil.
  - rewrite iota_S. cbn [for_each].
    destruct (nth_error r k) as [c|] eqn:Hc.
    2:{ apply nth_error_None in Hc. lia. }
    rewrite (bind_ok _ _ _ _ _ (destroy_cell_run w i k r c Hr Hc)).
    rewrite IH by (rewrite ?self_add_calls; trivial; lia).
    rewrite add_calls_app.
    assert (E : skipn k r = c :: skipn (S k) r).
    { clear - Hc. revert k Hc. induction r as [|x r IHr]; intros [|k] Hc;
        cbn in *; try discriminate.
      - now inversion Hc.
      - now apply IHr. }
    now rewrite E.
Qed.

Lemma shape_at_run (w : World) (shape : list PyVal) (i : nat) (v : PyVal) :
  grid_shape (self w) = Some shape -> nth_error shape i = Some v ->
  shape_at (Z.of_nat i) w = (Ok v, w).
Proof.
  intros Hs Hv. unfold shape_at, bind, attr, lift.
  now rewrite Hs, (getitem_nat _ _ _ Hv).
Qed.

Lemma destroy_row_run (w : World) (i : nat) (r : list widget)
    (s0 s1 : PyVal) :
  nth_error (_cells_matrix (self w)) i = Some r ->
  grid_shape (self w) = Some [s0; s1] ->
  range s1 = Ok (iota 0 (List.length r)) ->
  destroy_row (Z.of_nat i) w = (Ok tt, add_calls (map Destroy r) w).
Proof.
  intros Hr Hs Hc. unfold destroy_row.
  rewrite (bind_ok _ _ _ _ _ (shape_at_run w [s0; s1] 1 s1 Hs eq_refl)).
  unfold bind at 1, lift. rewrite Hc.
  now rewrite (destroy_cells_run i r) by (trivial; lia).
Qed.

Lemma destroy_rows_run (s0 s1 : PyVal) (C n : nat) :
  forall (k : nat) (w : World),
    grid_shape (self w) = Some [s0; s1] ->
    range s1 = Ok (iota 0 C) ->
    Forall (fun r => List.length r = C) (_cells_matrix (self w)) ->
    (k + n)%nat = List.length (_cells_matrix (self w)) ->
    for_each (iota k n) destroy_row w
    = (Ok tt,
       add_calls (map Destroy (List.concat (skipn k (_cells_matrix (self w))))) w).
Proof.
  induction n as [|n IH]; intros k w Hs Hc Hall Hk.
  - rewrite skipn_all2 by lia. cbn. now rewrite add_calls_nil.
  - rewrite iota_S. cbn [for_each].
    destruct (nth_error (_cells_matrix (self w)) k) as [r|] eqn:Hr.
    2:{ apply nth_error_None in Hr. lia. }
    assert (Hlen : List.length r = C).
    { rewrite Forall_forall in Hall. apply Hall.
      eapply nth_error_In; eauto. }
    rewrite (bind_ok _ _ _ _ _ (destroy_row_run w k r s0 s1 Hr Hs
                                  ltac:(now rewrite Hlen))).
    rewrite IH by (rewrite ?self_add_calls; trivial; lia).
    rewrite add_calls_app, self_add_calls.
    assert (E : skipn k (_cells_matrix (self w))
                = r :: skipn (S k) (_cells_matrix (self w))).
    { clear - Hr. revert k Hr.
      induction (_cells_matrix (self w)) as [|x m IHm]; intros [|k] Hr;
        cbn in *; try discriminate.
      - now inversion Hr.
      - now apply IHm. }
    rewrite E. cbn [List.concat]. now rewrite map_app.
Qed.

Lemma shape_matches_inv (w : World) :
  shape_matches w = true ->
  _cells_matrix (self w) = []
  \/ exists s0 s1 C,
       grid_shape (self w) = Some [s0; s1]
       /\ range s0 = Ok (iota 0 (List.length (_cells_matrix (self w))))
       /\ range s1 = Ok (iota 0 C)
       /\ Forall (fun r => List.length r = C) (_cells_matrix (self w)).
Proof.
  unfold shape_matches.
  destruct (_cells_matrix (self w)) as [|r0 m] eqn:Hm; [now left|].
  destruct (grid_shape (self w)) as [[|s0 [|s1 [|? ?]]]|]; try discriminate.
  destruct (range s0) as [rows|] eqn:H0; try discriminate.
  destruct (range s1) as [cols|] eqn:H1; try discriminate.
  intros H. apply andb_prop in H. destruct H as [Hr Hc].
  apply Nat.eqb_eq in Hr. right. exists s0, s1, (List.length cols).
  repeat split.
  - rewrite Hr, H0. f_equal. now apply (range_iota s0).
  - rewrite H1. f_equal. now apply (range_iota s1).
  - rewrite forallb_forall in Hc. apply Forall_forall. intros r Hin.
    apply Nat.eqb_eq. now apply Hc.
Qed.

(** On a matrix that the shape describes, [__destroy_all_cells] succeeds
    and destroys every cell of the matrix, row by row. *)
Lemma destroy_all_cells_run (w : World) :
  shape_matches w = true ->
  destroy_all_cells w
  = (Ok tt, add_calls (map Destroy (List.concat (_cells_matrix (self w)))) w).
Proof.
  intros H. apply shape_matches_inv in H.
  unfold destroy_all_cells, bind at 1, get_cells_grid.
  destruct H as [H | (s0 & s1 & C & Hs & H0 & H1 & Hall)].
  - rewrite H. cbn. now rewrite add_calls_nil.
  - destruct (_cells_matrix (self w)) as [|r0 m] eqn:Hm.
    + cbn. now rewrite add_calls_nil.
    + rewrite (bind_ok _ _ _ _ _ (shape_at_run w [s0; s1] 0 s0 Hs eq_refl)).
      unfold bind at 1, lift. rewrite H0.
      rewrite (destroy_rows_run s0 s1 C) by (rewrite ?Hm; trivial).
      now rewrite Hm.
Qed.

(** ** Building the matrix *)

Lemma styled_set_cells_matrix (o : CellsGrid) (m : list (list widget))
    fa sp lr lc :
  styled o fa sp lr lc -> styled (set_cells_matrix m o) fa sp lr lc.
Proof. intros H. exact H. Qed.

Lemma set_cells_matrix_twice (o : CellsGrid) (m m' : list (list widget)) :
  set_cells_matrix m' (set_cells_matrix m o) = set_cells_matrix m' o.
Proof. reflexivity. Qed.

Lemma append_at_last {A} (pre : list (list A)) (cur : list A) (x : A) :
  append_at (pre ++ [cur]) (Z.of_nat (List.length pre)) x
  = Ok (pre ++ [cur ++ [x]]).
Proof.
  unfold append_at.
  assert (Hn : nth_error (pre ++ [cur]) (List.length pre) = Some cur).
  { rewrite nth_error_app2 by lia. now rewrite Nat.sub_diag. }
  rewrite (getitem_nat _ _ _ Hn). cbn [rbind].
  destruct (Z.ltb_spec (Z.of_nat (List.length pre)) 0) as [?|_]; [lia|].
  rewrite Nat2Z.id. f_equal.
  rewrite firstn_app, Nat.sub_diag, firstn_all. cbn [firstn].
  rewrite app_nil_r. f_equal.
  replace (S (List.length pre)) with (List.length (pre ++ [cur]))
    by (rewrite length_app; cbn; lia).
  now rewrite skipn_all.
Qed.

Lemma place_cell_run (o : CellsGrid) (n : widget) (cs : list tk_call)
    fa sp lr lc (pre : list (list widget)) (cur : list widget) (j : nat) :
  styled o fa sp lr lc ->
  _cells_matrix o = pre ++ [cur] ->
  place_cell (Z.of_nat (List.length pre)) (Z.of_nat j) (mk_world o n cs)
  = (Ok tt,
     mk_world (set_cells_matrix (pre ++ [cur ++ [n]]) o) (S n)
       (cs ++ [Create n fa;
               grid_call sp lr lc n (Z.of_nat (List.length pre))
                 (Z.of_nat j)])).
Proof.
  intros (Hbg & Hbc & Hbw & Hcr & Hfg & Hh & Hw & Hsp & Hlr & Hlc) Hm.
  unfold place_cell, bind, attr, new_frame, tk, get_cells_grid, lift,
    assign, mk_world.
  repeat (cbn [self next_widget calls];
          rewrite ?Hbc, ?Hbw, ?Hcr, ?Hfg, ?Hh, ?Hw, ?Hsp, ?Hlc, ?Hlr, ?Hm,
            ?append_at_last).
  rewrite <- app_assoc. cbn [app].
  destruct fa; cbn in Hbg |- *. now rewrite Hbg.
Qed.

Lemma place_cells_run fa sp lr lc (pre : list (list widget)) (m : nat) :
  forall (j : nat) (o : CellsGrid) (n : widget) (cs : list tk_call)
         (cur : list widget),
    styled o fa sp lr lc ->
    _cells_matrix o = pre ++ [cur] ->
    for_each (iota j m) (place_cell (Z.of_nat (List.length pre)))
      (mk_world o n cs)
    = (Ok tt,
       mk_world (set_cells_matrix (pre ++ [cur ++ seq n m]) o) (n + m)%nat
         (cs ++ row_calls fa sp lr lc n (List.length pre) j m)).
Proof.
  induction m as [|m IH]; intros j o n cs cur Hst Hm.
  - cbn. rewrite !app_nil_r, Nat.add_0_r. rewrite <- Hm.
    now destruct o.
  - rewrite iota_S. cbn [for_each].
    rewrite (bind_ok _ _ _ _ _
               (place_cell_run o n cs fa sp lr lc pre cur j Hst Hm)).
    rewrite (IH (S j) _ (S n) _ (cur ++ [n])); trivial.
    rewrite set_cells_matrix_twice.
    cbn [row_calls seq]. rewrite <- !app_assoc. cbn [app].
    now rewrite Nat.add_succ_r.
Qed.

Lemma build_row_run fa sp lr lc (s0 s1 : PyVal) (C : nat)
    (o : CellsGrid) (n : widget) (cs : list tk_call) :
  styled o fa sp lr lc ->
  grid_shape o = Some [s0; s1] ->
  range s1 = Ok (iota 0 C) ->
  build_row (Z.of_nat (List.length (_cells_matrix o))) (mk_world o n cs)
  = (Ok tt,
     mk_world (set_cells_matrix (_cells_matrix o ++ [seq n C]) o) (n + C)%nat
       (cs ++ row_calls fa sp lr lc n (List.length (_cells_matrix o)) 0 C)).
Proof.
  intros Hst Hs Hc. unfold build_row.
  unfold bind at 1, get_cells_grid. unfold bind at 1, assign.
  cbn [self next_widget calls mk_world].
  erewrite bind_ok.
  2:{ apply (shape_at_run _ [s0; s1] 1 s1); [exact Hs | reflexivity]. }
  unfold bind at 1, lift. rewrite Hc.
  change {| self := set_cells_matrix (_cells_matrix o ++ [[]]) o;
            next_widget := n; calls := cs |}
    with (mk_world (set_cells_matrix (_cells_matrix o ++ [[]]) o) n cs).
  rewrite (place_cells_run fa sp lr lc (_cells_matrix o) C 0 _ n cs []);
    trivial.
Qed.

Lemma build_rows_run fa sp lr lc (s0 s1 : PyVal) (C R : nat) :
  forall (o : CellsGrid) (n : widget) (cs : list tk_call),
    styled o fa sp lr lc ->
    grid_shape o = Some [s0; s1] ->
    range s1 = Ok (iota 0 C) ->
    for_each (iota (List.length (_cells_matrix o)) R) build_row
      (mk_world o n cs)
    = (Ok tt,
       mk_world (set_cells_matrix (_cells_matrix o ++ fresh_rows n C R) o)
         (n + R * C)%nat
         (cs ++ build_calls fa sp lr lc n
                  (List.length (_cells_matrix o)) C R)).
Proof.
  induction R as [|R IH]; intros o n cs Hst Hs Hc.
  - cbn. rewrite !app_nil_r, Nat.add_0_r. now destruct o.
  - rewrite iota_S. cbn [for_each].
    rewrite (bind_ok _ _ _ _ _
               (build_row_run fa sp lr lc s0 s1 C o n cs Hst Hs Hc)).
    pose (o' := set_cells_matrix (_cells_matrix o ++ [seq n C]) o).
    assert (Hlen : S (List.length (_cells_matrix o))
                   = List.length (_cells_matrix o')).
    { cbn. rewrite length_app. cbn. lia. }
    rewrite Hlen. fold o'.
    rewrite (IH o'); trivial.
    unfold o'. rewrite set_cells_matrix_twice.
    cbn [_cells_matrix set_cells_matrix fresh_rows build_calls].
    rewrite <- !app_assoc. cbn [app].
    rewrite length_app. cbn [List.length].
    replace (List.length (_cells_matrix o) + 1)%nat
      with (S (List.length (_cells_matrix o))) by lia.
    f_equal. f_equal. cbn [Nat.mul]. lia.
Qed.

(** ** The whole of [load_cells] *)

(** [rebuild], step by step: where it stops and what it has assigned by
    then. *)
Lemma rebuild_eq (a : load_args) (w : World) :
  rebuild a w =
  match shape_of (array a) with
  | Raise e => (Raise e, w)
  | Ok shape =>
      let o1 := set_grid_shape shape (self w) in
      match shape with
      | [s0; s1] =>
          let o2 := set_style_of a o1 in
          match normalize_cell_spacing (cells_spacing a) with
          | Raise e => (Raise e, mk_world o2 (next_widget w) (calls w))
          | Ok sp =>
              let o3 := set_cell_spacing sp o2 in
              match sub_1 s0 with
              | Raise e => (Raise e, mk_world o3 (next_widget w) (calls w))
              | Ok lr =>
                  let o4 := set_last_row_index lr o3 in
                  match sub_1 s1 with
                  | Raise e =>
                      (Raise e, mk_world o4 (next_widget w) (calls w))
                  | Ok lc =>
                      let o5 := restyled a s0 s1 sp lr lc (self w) in
                      match range s0 with
                      | Raise e =>
                          (Raise e, mk_world o5 (next_widget w) (calls w))
                      | Ok rows =>
                          for_each rows build_row
                            (mk_world o5 (next_widget w) (calls w))
                      end
                  end
              end
          end
      | _ =>
          (raise ValueError invalid_shape_message,
           mk_world o1 (next_widget w) (calls w))
      end
  end.
Proof.
  unfold rebuild, bind, lift, assign, attr, shape_at, set_style_of, mk_world.
  destruct (shape_of (array a)) as [shape|e]; [|reflexivity].
  cbn [self next_widget calls grid_shape set_grid_shape].
  destruct shape as [|s0 [|s1 [|s2 shape]]]; reflexivity.
Qed.

Lemma styled_restyled (a : load_args) (s0 s1 : PyVal) (sp : CellSpacing)
    (lr lc : PyVal) (o : CellsGrid) :
  styled (restyled a s0 s1 sp lr lc o) (style_args a) sp lr lc.
Proof. repeat split. Qed.

Lemma build_row_raise (o : CellsGrid) (n : widget) (cs : list tk_call)
    (s0 s1 : PyVal) (e : exn) (row : Z) :
  grid_shape o = Some [s0; s1] -> range s1 = Raise e ->
  fst (build_row row (mk_world o n cs)) = Raise e.
Proof.
  intros Hs Hr. unfold build_row.
  unfold bind at 1, get_cells_grid. unfold bind at 1, assign.
  cbn [self next_widget calls mk_world].
  erewrite bind_ok.
  2:{ apply (shape_at_run _ [s0; s1] 1 s1); [exact Hs | reflexivity]. }
  unfold bind, lift. now rewrite Hr.
Qed.

Lemma built_no_rows (a : load_args) (s0 s1 : PyVal) (sp : CellSpacing)
    (lr lc : PyVal) (C : nat) (w : World) :
  built a s0 s1 sp lr lc 0 C w
  = mk_world (restyled a s0 s1 sp lr lc (self w)) (next_widget w) (calls w).
Proof.
  unfold built. cbn [fresh_rows build_calls Nat.mul].
  now rewrite app_nil_r, Nat.add_0_r.
Qed.

(** The building loop from the reset matrix. *)
Lemma build_loop_run (a : load_args) (s0 s1 : PyVal) (sp : CellSpacing)
    (lr lc : PyVal) (R C : nat) (w : World) :
  R = O \/ range s1 = Ok (iota 0 C) ->
  for_each (iota 0 R) build_row
    (mk_world (restyled a s0 s1 sp lr lc (self w)) (next_widget w) (calls w))
  = (Ok tt, built a s0 s1 sp lr lc R C w).
Proof.
  intros [-> | H1].
  - now rewrite built_no_rows.
  - pose (o5 := restyled a s0 s1 sp lr lc (self w)).
    change (iota 0 R) with (iota (List.length (_cells_matrix o5)) R).
    fold o5.
    rewrite (build_rows_run (style_args a) sp lr lc s0 s1 C R o5); trivial.
    apply styled_restyled.
Qed.

(** A build whose [plan] exists runs to its end. *)
Lemma rebuild_run (a : load_args) (s0 s1 : PyVal) (sp : CellSpacing)
    (lr lc : PyVal) (R C : nat) (w : World) :
  plan a s0 s1 sp lr lc R C ->
  rebuild a w = (Ok tt, built a s0 s1 sp lr lc R C w).
Proof.
  intros (Hs & Hsp & Hlr & Hlc & H0 & H1).
  rewrite rebuild_eq, Hs. cbn zeta. rewrite Hsp, Hlr, Hlc, H0.
  now apply build_loop_run.
Qed.

Lemma build_loop_inv (a : load_args) (s0 s1 : PyVal) (sp : CellSpacing)
    (lr lc : PyVal) (R : nat) (w w' : World) :
  for_each (iota 0 R) build_row
    (mk_world (restyled a s0 s1 sp lr lc (self w)) (next_widget w) (calls w))
  = (Ok tt, w') ->
  exists C, (R = O \/ range s1 = Ok (iota 0 C))
            /\ w' = built a s0 s1 sp lr lc R C w.
Proof.
  intros H.
  assert (HC : exists C, R = O \/ range s1 = Ok (iota 0 C)).
  { destruct R as [|R']; [exists O; now left|].
    destruct (range s1) as [cols|e] eqn:H1.
    - exists (List.length cols). right. f_equal. now apply (range_iota s1).
    - exfalso. apply (f_equal fst) in H.
      rewrite iota_S, for_each_cons in H.
      rewrite (bind_fst_raise _ _ _ e) in H; [discriminate|].
      apply (build_row_raise _ _ _ s0 s1); [reflexivity|exact H1]. }
  destruct HC as [C HC]. exists C. split; [exact HC|].
  rewrite (build_loop_run a s0 s1 sp lr lc R C w HC) in H.
  symmetry. exact (f_equal snd H).
Qed.

(** A build that runs to its end had a [plan]. *)
Lemma rebuild_inv (a : load_args) (w w' : World) :
  rebuild a w = (Ok tt, w') ->
  exists s0 s1 sp lr lc R C,
    plan a s0 s1 sp lr lc R C /\ w' = built a s0 s1 sp lr lc R C w.
Proof.
  intros H. rewrite rebuild_eq in H.
  destruct (shape_of (array a)) as [shape|e] eqn:Hs; [|discriminate].
  destruct shape as [|s0 [|s1 [|s2 shape]]]; try discriminate.
  cbn zeta in H.
  destruct (normalize_cell_spacing (cells_spacing a)) as [sp|e] eqn:Hsp;
    [|discriminate].
  destruct (sub_1 s0) as [lr|e] eqn:Hlr; [|discriminate].
  destruct (sub_1 s1) as [lc|e] eqn:Hlc; [|discriminate].
  destruct (range s0) as [rows|e] eqn:H0; [|discriminate].
  assert (H0' : range s0 = Ok (iota 0 (List.length rows)))
    by (rewrite H0; f_equal; exact (range_iota _ _ H0)).
  rewrite (range_iota _ _ H0) in H. clear H0.
  apply build_loop_inv in H. destruct H as (C & HC & ->).
  exists s0, s1, sp, lr, lc, (List.length rows), C.
  split; [now repeat split|reflexivity].
Qed.

Lemma load_cells_eq (a : load_args) (w : World) :
  load_cells a w =
  match destroy_all_cells w with
  | (Ok _, w1) => rebuild a w1
  | (Raise e, w1) => (Raise e, w1)
  end.
Proof. reflexivity. Qed.

(** A [load_cells] that returns has destroyed, then built. *)
Lemma load_cells_inv (a : load_args) (w w' : World) :
  load_cells a w = (Ok tt, w') ->
  exists ds s0 s1 sp lr lc R C,
    destroy_all_cells w = (Ok tt, add_calls ds w)
    /\ forallb is_destroy ds = true
    /\ plan a s0 s1 sp lr lc R C
    /\ w' = built a s0 s1 sp lr lc R C (add_calls ds w).
Proof.
  intros H. rewrite load_cells_eq in H.
  destruct (destroy_only_destroys w) as [ds [Hd Hf]].
  destruct (destroy_all_cells w) as [[[]|e] w1] eqn:Hw; [|discriminate].
  cbn [snd] in Hd. subst w1.
  apply rebuild_inv in H.
  destruct H as (s0 & s1 & sp & lr & lc & R & C & Hp & ->).
  now exists ds, s0, s1, sp, lr, lc, R, C.
Qed.

(** From a matrix that the shape describes, a build with a [plan] returns. *)
Lemma load_cells_run (a : load_args) (s0 s1 : PyVal) (sp : CellSpacing)
    (lr lc : PyVal) (R C : nat) (w : World) :
  shape_matches w = true ->
  plan a s0 s1 sp lr lc R C ->
  load_cells a w
  = (Ok tt,
     built a s0 s1 sp lr lc R C
       (add_calls (map Destroy (List.concat (_cells_matrix (self w)))) w)).
Proof.
  intros Hm Hp. rewrite load_cells_eq, (destroy_all_cells_run w Hm).
  now apply rebuild_run.
Qed.

(** ** The fresh matrix *)

Lemma fresh_rows_length (n C R : nat) : List.length (fresh_rows n C R) = R.
Proof. revert n. induction R as [|R IH]; intros n; cbn; auto. Qed.

Lemma fresh_rows_nth (C R : nat) :
  forall (n i : nat), (i < R)%nat ->
    nth_error (fresh_rows n C R) i = Some (seq (n + i * C) C).
Proof.
  induction R as [|R IH]; intros n i Hi; [lia|].
  destruct i as [|i]; cbn [fresh_rows nth_error].
  - now rewrite Nat.add_0_r.
  - rewrite IH by lia. do 2 f_equal. cbn [Nat.mul]. lia.
Qed.

Lemma fresh_rows_widths (C R : nat) :
  forall n, Forall (fun r => List.length r = C) (fresh_rows n C R).
Proof.
  induction R as [|R IH]; intros n; cbn [fresh_rows]; constructor; auto.
  apply length_seq.
Qed.

Lemma fresh_rows_concat (C R : nat) :
  forall n, List.concat (fresh_rows n C R) = seq n (R * C).
Proof.
  induction R as [|R IH]; intros n; cbn [fresh_rows List.concat Nat.mul].
  - reflexivity.
  - now rewrite IH, seq_app.
Qed.

Lemma seq_nth (n len j : nat) :
  (j < len)%nat -> nth_error (seq n len) j = Some (n + j)%nat.
Proof.
  revert n j. induction len as [|len IH]; intros n j Hj; [lia|].
  destruct j as [|j]; cbn.
  - now rewrite Nat.add_0_r.
  - rewrite IH by lia. f_equal. lia.
Qed.

Lemma cell_at_fresh (n C R i j : nat) :
  (i < R)%nat -> (j < C)%nat ->
  cell_at (fresh_rows n C R) i j = Some (n + i * C + j)%nat.
Proof.
  intros Hi Hj. unfold cell_at.
  now rewrite fresh_rows_nth, seq_nth.
Qed.

Lemma cell_at_fresh_inv (n C R i j : nat) (c : widget) :
  cell_at (fresh_rows n C R) i j = Some c ->
  (i < R)%nat /\ (j < C)%nat /\ c = (n + i * C + j)%nat.
Proof.
  unfold cell_at. intros H.
  destruct (Nat.lt_ge_cases i R) as [Hi|Hi].
  - rewrite fresh_rows_nth in H by trivial. cbn beta iota in H.
    destruct (Nat.lt_ge_cases j C) as [Hj|Hj].
    + rewrite seq_nth in H by trivial. inversion H. auto.
    + assert (E : nth_error (seq (n + i * C) C) j = None)
        by (apply nth_error_None; now rewrite length_seq).
      congruence.
  - assert (E : nth_error (fresh_rows n C R) i = None)
      by (apply nth_error_None; now rewrite fresh_rows_length).
    rewrite E in H. discriminate.
Qed.

Lemma shape_matches_built (a : load_args) (s0 s1 : PyVal) (sp : CellSpacing)
    (lr lc : PyVal) (R C : nat) (w : World) :
  plan a s0 s1 sp lr lc R C ->
  shape_matches (built a s0 s1 sp lr lc R C w) = true.
Proof.
  intros (Hs & Hsp & Hlr & Hlc & H0 & H1).
  unfold shape_matches, built.
  cbn [self mk_world _cells_matrix set_cells_matrix grid_shape restyled
       set_last_column_index set_last_row_index set_cell_spacing
       set_style_of set_style set_grid_shape].
  destruct (fresh_rows (next_widget w) C R) as [|r0 m] eqn:Hm; [reflexivity|].
  destruct H1 as [-> | H1]; [discriminate|].
  rewrite H0, H1, !iota_length, <- Hm, fresh_rows_length, Nat.eqb_refl.
  cbn [andb]. apply forallb_forall. intros r Hin. apply Nat.eqb_eq.
  pose proof (fresh_rows_widths C R (next_widget w)) as Hall.
  rewrite Forall_forall in Hall. now apply Hall.
Qed.

Lemma shape_matches_init (margin padding : PyVal) (w : World) :
  init margin padding = Ok w -> shape_matches w = true.
Proof.
  unfold init. destruct (normalize_box_spacing margin "margin"); cbn;
    [|discriminate].
  destruct (normalize_box_spacing padding "padding"); cbn; [|discriminate].
  intros H. inversion H. reflexivity.
Qed.

(** The shape describes the matrix of a new container, and of a container
    after any [load_cells] that returned. *)
Lemma sound_shape_matches (w : World) : sound w -> shape_matches w = true.
Proof.
  intros H. destruct H as [margin padding w H | a w w' _ H].
  - now apply (shape_matches_init margin padding).
  - apply load_cells_inv in H.
    destruct H as (ds & s0 & s1 & sp & lr & lc & R & C & _ & _ & Hp & ->).
    now apply shape_matches_built.
Qed.

(** ** Where the toolkit has placed a frame *)

Lemma placement_in_app (cs1 cs2 : list tk_call) (cell : widget) :
  placement_in (cs1 ++ cs2) cell
  = match placement_in cs2 cell with
    | Some p => Some p
    | None => placement_in cs1 cell
    end.
Proof.
  induction cs1 as [|c cs1 IH]; cbn [app placement_in].
  - now destruct (placement_in cs2 cell).
  - rewrite IH. now destruct (placement_in cs2 cell).
Qed.

Lemma placement_row_calls fa sp lr lc (m : nat) :
  forall (cell i j x : nat),
    placement_in (row_calls fa sp lr lc cell i j m) x
    = if ((cell <=? x) && (x <? cell + m))%nat
      then Some (Z.of_nat i, Z.of_nat (j + (x - cell)),
                 padx sp lc (Z.of_nat (j + (x - cell))),
                 pady sp lr (Z.of_nat i))
      else None.
Proof.
  induction m as [|m IH]; intros cell i j x.
  - cbn [row_calls placement_in].
    destruct (Nat.leb_spec cell x); destruct (Nat.ltb_spec x (cell + 0));
      cbn [andb]; trivial; lia.
  - cbn [row_calls placement_in]. rewrite IH. unfold grid_call.
    destruct (Nat.leb_spec (S cell) x); destruct (Nat.ltb_spec x (S cell + m));
      destruct (Nat.leb_spec cell x); destruct (Nat.ltb_spec x (cell + S m));
      destruct (Nat.eqb_spec cell x);
      cbn [andb]; try lia; trivial.
    + replace (S j + (x - S cell))%nat with (j + (x - cell))%nat by lia.
      reflexivity.
    + subst x. rewrite Nat.sub_diag, Nat.add_0_r. reflexivity.
Qed.

Lemma placement_build_calls_below fa sp lr lc (C R : nat) :
  forall (cell i x : nat), (x < cell)%nat ->
    placement_in (build_calls fa sp lr lc cell i C R) x = None.
Proof.
  induction R as [|R IH]; intros cell i x Hx; cbn [build_calls].
  - reflexivity.
  - rewrite placement_in_app, IH by lia.
    rewrite placement_row_calls.
    destruct (Nat.leb_spec cell x); [lia|reflexivity].
Qed.

Lemma placement_build_calls fa sp lr lc (C R : nat) :
  forall (cell i di dj : nat), (di < R)%nat -> (dj < C)%nat ->
    placement_in (build_calls fa sp lr lc cell i C R) (cell + di * C + dj)
    = Some (Z.of_nat (i + di), Z.of_nat dj,
            padx sp lc (Z.of_nat dj), pady sp lr (Z.of_nat (i + di))).
Proof.
  induction R as [|R IH]; intros cell i di dj Hi Hj; [lia|].
  cbn [build_calls]. rewrite placement_in_app.
  destruct di as [|di].
  - rewrite placement_build_calls_below by (cbn [Nat.mul]; lia).
    rewrite placement_row_calls.
    cbn [Nat.mul]. rewrite !Nat.add_0_r.
    destruct (Nat.leb_spec cell (cell + dj)); [|lia].
    destruct (Nat.ltb_spec (cell + dj) (cell + C)); [|lia].
    cbn [andb Nat.add].
    now replace (cell + dj - cell)%nat with dj by lia.
  - replace (cell + S di * C + dj)%nat with (cell + C + di * C + dj)%nat
      by (cbn [Nat.mul]; lia).
    rewrite IH by lia.
    now replace (S i + di)%nat with (i + S di)%nat by lia.
Qed.

(** After a build, the cell stored at row [i], column [j] was placed
    there, with the margins of [padx] and [pady]. *)
Lemma placement_built (a : load_args) (s0 s1 : PyVal) (sp : CellSpacing)
    (lr lc : PyVal) (R C : nat) (w : World) (i j : nat) (cell : widget) :
  cell_at (_cells_matrix (self (built a s0 s1 sp lr lc R C w))) i j
    = Some cell ->
  placement (built a s0 s1 sp lr lc R C w) cell
  = Some (Z.of_nat i, Z.of_nat j,
          padx sp lc (Z.of_nat j), pady sp lr (Z.of_nat i)).
Proof.
  unfold built, placement.
  cbn [self mk_world _cells_matrix set_cells_matrix calls].
  intros H. apply cell_at_fresh_inv in H. destruct H as (Hi & Hj & ->).
  rewrite placement_in_app, placement_build_calls by trivial.
  reflexivity.
Qed.

(** ** The last indexes *)





(** ** What the toolkit was asked to create *)

Lemma frame_in_app (cs1 cs2 : list tk_call) (cell : widget) :
  frame_in (cs1 ++ cs2) cell
  = match frame_in cs2 cell with
    | Some p => Some p
    | None => frame_in cs1 cell
    end.
Proof.
  induction cs1 as [|c cs1 IH]; cbn [app frame_in].
  - now destruct (frame_in cs2 cell).
  - rewrite IH. now destruct (frame_in cs2 cell).
Qed.

Lemma frame_row_calls fa sp lr lc (m : nat) :
  forall (cell i j x : nat),
    frame_in (row_calls fa sp lr lc cell i j m) x
    = if ((cell <=? x) && (x <? cell + m))%nat then Some fa else None.
Proof.
  induction m as [|m IH]; intros cell i j x.
  - cbn [row_calls frame_in].
    destruct (Nat.leb_spec cell x); destruct (Nat.ltb_spec x (cell + 0));
      cbn [andb]; trivial; lia.
  - cbn [row_calls frame_in]. rewrite IH. unfold grid_call.
    destruct (Nat.leb_spec (S cell) x); destruct (Nat.ltb_spec x (S cell + m));
      destruct (Nat.leb_spec cell x); destruct (Nat.ltb_spec x (cell + S m));
      destruct (Nat.eqb_spec cell x);
      cbn [andb]; try lia; trivial.
Qed.

Lemma frame_build_calls fa sp lr lc (C R : nat) :
  forall (cell i x : nat),
    frame_in (build_calls fa sp lr lc cell i C R) x
    = if ((cell <=? x) && (x <? cell + R * C))%nat then Some fa else None.
Proof.
  induction R as [|R IH]; intros cell i x; cbn [build_calls].
  - cbn [frame_in Nat.mul].
    destruct (Nat.leb_spec cell x); destruct (Nat.ltb_spec x (cell + 0));
      cbn [andb]; trivial; lia.
  - rewrite frame_in_app, IH, frame_row_calls. cbn [Nat.mul].
    destruct (Nat.leb_spec (cell + C) x);
      destruct (Nat.ltb_spec x (cell + C + R * C));
      destruct (Nat.leb_spec cell x); destruct (Nat.ltb_spec x (cell + C));
      destruct (Nat.ltb_spec x (cell + (C + R * C)));
      cbn [andb]; try lia; trivial.
Qed.

Lemma frame_built (a : load_args) (s0 s1 : PyVal) (sp : CellSpacing)
    (lr lc : PyVal) (R C : nat) (w : World) (i j : nat) (cell : widget) :
  cell_at (_cells_matrix (self (built a s0 s1 sp lr lc R C w))) i j
    = Some cell ->
  frame_of (built a s0 s1 sp lr lc R C w) cell = Some (style_args a).
Proof.
  unfold built, frame_of.
  cbn [self mk_world _cells_matrix set_cells_matrix calls].
  intros H. apply cell_at_fresh_inv in H. destruct H as (Hi & Hj & ->).
  rewrite frame_in_app, frame_build_calls.
  destruct (Nat.leb_spec (next_widget w) (next_widget w + i * C + j)); [|lia].
  destruct (Nat.ltb_spec (next_widget w + i * C + j)
              (next_widget w + R * C)); [reflexivity|nia].
Qed.

Lemma created_app (cs1 cs2 : list tk_call) :
  created (cs1 ++ cs2) = created cs1 ++ created cs2.
Proof. apply flat_map_app. Qed.

Lemma created_destroys (cs : list tk_call) :
  forallb is_destroy cs = true -> created cs = [].
Proof.
  induction cs as [|c cs IH]; [reflexivity|].
  cbn [forallb]. intros H. apply andb_prop in H. destruct H as [Hc Hcs].
  destruct c; try discriminate. cbn. now apply IH.
Qed.

Lemma created_row_calls fa sp lr lc (m : nat) :
  forall (cell i j : nat),
    created (row_calls fa sp lr lc cell i j m) = seq cell m.
Proof.
  induction m as [|m IH]; intros cell i j; [reflexivity|].
  cbn [row_calls seq]. unfold grid_call.
  change (created (Create cell fa :: ?x)) with (cell :: created x).
  cbn. f_equal. apply IH.
Qed.

Lemma created_build_calls fa sp lr lc (C R : nat) :
  forall (cell i : nat),
    created (build_calls fa sp lr lc cell i C R) = seq cell (R * C).
Proof.
  induction R as [|R IH]; intros cell i; [reflexivity|].
  cbn [build_calls Nat.mul].
  now rewrite created_app, created_row_calls, IH, seq_app.
Qed.

Lemma no_destroy_build_calls fa sp lr lc (C R : nat) :
  forall (cell i : nat),
    existsb is_destroy (build_calls fa sp lr lc cell i C R) = false.
Proof.
  assert (Hrow : forall m cell i j,
             existsb is_destroy (row_calls fa sp lr lc cell i j m) = false).
  { induction m as [|m IHm]; intros cell i j; [reflexivity|].
    cbn [row_calls existsb]. unfold grid_call. cbn. apply IHm. }
  induction R as [|R IH]; intros cell i; [reflexivity|].
  cbn [build_calls]. now rewrite existsb_app, Hrow, IH.
Qed.

(* ================================================================== *)
(** * The claims *)
(* ================================================================== *)

(** C3. For every valid cell-spacing input the Cell normaliser returns
    the four sides with every value halved ([truediv_2] is Python's
    [/ 2]): an int [v] yields [(v/2, v/2, v/2, v/2)], a 2-sequence
    [(x, y)] yields [(x/2, y/2, x/2, y/2)], a 4-sequence [(l, t, r, b)]
    yields [(l/2, t/2, r/2, b/2)].  An input is valid when each of its
    values can be halved: it is an int or a float, and the half of an int
    fits a float. *)
Theorem cell_spacing_halved :
  forall (v x y l t r b : PyVal) (hv hx hy hl ht hr hb : spec_float),
    isinstance v [C_int] = true ->
    truediv_2 v = Ok hv ->
    truediv_2 x = Ok hx -> truediv_2 y = Ok hy ->
    truediv_2 l = Ok hl -> truediv_2 t = Ok ht ->
    truediv_2 r = Ok hr -> truediv_2 b = Ok hb ->
    normalize_cell_spacing v = Ok (hv, hv, hv, hv)
    /\ both_sequences [x; y]
         (fun s => normalize_cell_spacing s = Ok (hx, hy, hx, hy))
    /\ both_sequences [l; t; r; b]
         (fun s => normalize_cell_spacing s = Ok (hl, ht, hr, hb)).
Proof.
  intros v x y l t r b hv hx hy hl ht hr hb Hi Hv Hx Hy Hl Ht Hr Hb.
  split; [|split].
  - now apply cell_spacing_int.
  - apply sequence_of_both. intros s Hs. now apply (cell_spacing_2 s x y).
  - apply sequence_of_both. intros s Hs.
    now apply (cell_spacing_4 s l t r b).
Qed.

Lemma cell_spacing_halved_witness :
  (isinstance (VInt 10) [C_int] = true
   /\ truediv_2 (VInt 10) = Ok f_five
   /\ truediv_2 (VFloat f_one) = Ok f_half)
  /\ normalize_cell_spacing (VInt 10) = Ok (f_five, f_five, f_five, f_five)
  /\ both_sequences [VInt 10; VFloat f_one]
       (fun s => normalize_cell_spacing s
                 = Ok (f_five, f_half, f_five, f_half))
  /\ both_sequences [VInt 10; VFloat f_one; VFloat f_one; VInt 10]
       (fun s => normalize_cell_spacing s
                 = Ok (f_five, f_half, f_half, f_five)).
Proof.
  split.
  - repeat split; reflexivity.
  - apply (cell_spacing_halved (VInt 10) (VInt 10) (VFloat f_one)
             (VInt 10) (VFloat f_one) (VFloat f_one) (VInt 10));
      reflexivity.
Defined.

(** C4. For every valid box-spacing input the Box normaliser returns the
    four sides without halving: an int [v] yields [(v, v, v, v)], a
    2-sequence [(x, y)] of numbers yields [(x, y, x, y)], a 4-sequence of
    numbers is returned unchanged.  It is the normaliser [__init__]
    applies to [margin] and [padding]. *)
Theorem box_spacing_unchanged :
  forall (name : string) (v x y l t r b : PyVal),
    isinstance v [C_int] = true ->
    numeric x = true -> numeric y = true ->
    numeric l = true -> numeric t = true ->
    numeric r = true -> numeric b = true ->
    normalize_box_spacing v name = Ok (v, v, v, v)
    /\ both_sequences [x; y]
         (fun s => normalize_box_spacing s name = Ok (x, y, x, y))
    /\ both_sequences [l; t; r; b]
         (fun s => normalize_box_spacing s name = Ok (l, t, r, b))
    /\ both_sequences [l; t; r; b]
         (fun s => exists w, init v s = Ok w
                             /\ outer_margin (self w) = (v, v, v, v)
                             /\ inner_padding (self w) = (l, t, r, b)).
Proof.
  intros name v x y l t r b Hi Hx Hy Hl Ht Hr Hb.
  split; [|split; [|split]].
  - now apply box_spacing_int.
  - apply sequence_of_both. intros s Hs. now apply box_spacing_2.
  - apply sequence_of_both. intros s Hs. now apply box_spacing_4.
  - apply sequence_of_both. intros s Hs. unfold init.
    rewrite (box_spacing_int v "margin" Hi).
    rewrite (box_spacing_4 s l t r b "padding" Hs Hl Ht Hr Hb).
    cbn [rbind]. eexists. split; [reflexivity|]. now split.
Qed.

Lemma box_spacing_unchanged_witness :
  (isinstance (VInt 7) [C_int] = true
   /\ numeric (VInt 3) = true /\ numeric (VFloat f_half) = true)
  /\ normalize_box_spacing (VInt 7) "margin"
     = Ok (VInt 7, VInt 7, VInt 7, VInt 7)
  /\ both_sequences [VInt 3; VFloat f_half]
       (fun s => normalize_box_spacing s "margin"
                 = Ok (VInt 3, VFloat f_half, VInt 3, VFloat f_half))
  /\ both_sequences [VInt 3; VFloat f_half; VInt 3; VInt 3]
       (fun s => normalize_box_spacing s "margin"
                 = Ok (VInt 3, VFloat f_half, VInt 3, VInt 3))
  /\ both_sequences [VInt 3; VFloat f_half; VInt 3; VInt 3]
       (fun s => exists w,
            init (VInt 7) s = Ok w
            /\ outer_margin (self w) = (VInt 7, VInt 7, VInt 7, VInt 7)
            /\ inner_padding (self w)
               = (VInt 3, VFloat f_half, VInt 3, VInt 3)).
Proof.
  split.
  - repeat split; reflexivity.
  - apply (box_spacing_unchanged "margin" (VInt 7) (VInt 3) (VFloat f_half)
             (VInt 3) (VFloat f_half) (VInt 3) (VInt 3));
      reflexivity.
Defined.

(** C6. For both normalisers: an argument that is not an int, a tuple
    or a list fails with a [TypeError] naming the parameter; a sequence
    of 2 or 4 items with a non-numeric item fails with a [TypeError]
    naming the parameter and showing the sequence; a sequence of any
    other length (such as a 3-tuple) fails with a [ValueError] giving the
    valid forms.  (The length is tested first: for a sequence of another
    length the error is the one about the length whatever its items.) *)
Theorem spacing_errors :
  forall (name : string) (bad odd mixed : PyVal)
         (odd_items mixed_items : list PyVal),
    isinstance bad [C_int; C_tuple; C_list] = false ->
    sequence_of odd odd_items ->
    List.length odd_items <> 2%nat -> List.length odd_items <> 4%nat ->
    sequence_of mixed mixed_items ->
    List.length mixed_items = 2%nat \/ List.length mixed_items = 4%nat ->
    forallb numeric mixed_items = false ->
    (normalize_box_spacing bad name
       = raise TypeError (invalid_type_message name bad)
     /\ normalize_cell_spacing bad
       = raise TypeError (cell_invalid_type_message bad))
    /\ (normalize_box_spacing mixed name
          = raise TypeError (non_numeric_message name mixed)
        /\ normalize_cell_spacing mixed
          = raise TypeError (non_numeric_message "cells_spacing" mixed))
    /\ (normalize_box_spacing odd name
          = raise ValueError (invalid_length_message name)
        /\ normalize_cell_spacing odd
          = raise ValueError cell_invalid_length_message).
Proof.
  intros name bad odd mixed odd_items mixed_items Hbad Ho H2 H4 Hm Hl Hn.
  split; [|split].
  - now apply spacing_wrong_type.
  - now apply (spacing_non_numeric mixed mixed_items).
  - now apply (spacing_wrong_length odd odd_items).
Qed.

Lemma spacing_errors_witness :
  (isinstance (VStr "10") [C_int; C_tuple; C_list] = false
   /\ sequence_of (VTuple [VInt 1; VInt 2; VInt 3]) [VInt 1; VInt 2; VInt 3]
   /\ sequence_of (VTuple [VInt 1; VStr "a"]) [VInt 1; VStr "a"]
   /\ forallb numeric [VInt 1; VStr "a"] = false)
  /\ (normalize_box_spacing (VStr "10") "padding"
        = raise TypeError (invalid_type_message "padding" (VStr "10"))
      /\ normalize_cell_spacing (VStr "10")
        = raise TypeError (cell_invalid_type_message (VStr "10")))
  /\ (normalize_box_spacing (VTuple [VInt 1; VStr "a"]) "padding"
        = raise TypeError
            (non_numeric_message "padding" (VTuple [VInt 1; VStr "a"]))
      /\ normalize_cell_spacing (VTuple [VInt 1; VStr "a"])
        = raise TypeError
            (non_numeric_message "cells_spacing"
               (VTuple [VInt 1; VStr "a"])))
  /\ (normalize_box_spacing (VTuple [VInt 1; VInt 2; VInt 3]) "padding"
        = raise ValueError (invalid_length_message "padding")
      /\ normalize_cell_spacing (VTuple [VInt 1; VInt 2; VInt 3])
        = raise ValueError cell_invalid_length_message).
Proof.
  split.
  - repeat split; try reflexivity; left; reflexivity.
  - apply (spacing_errors "padding" (VStr "10")
             (VTuple [VInt 1; VInt 2; VInt 3]) (VTuple [VInt 1; VStr "a"])
             [VInt 1; VInt 2; VInt 3] [VInt 1; VStr "a"]).
    + reflexivity.
    + left; reflexivity.
    + discriminate.
    + discriminate.
    + left; reflexivity.
    + left; reflexivity.
    + reflexivity.
Defined.

(** C10. A scalar float given as [margin], [padding] or [cells_spacing]
    is rejected with a [TypeError] (only int scalars pass the
    [isinstance] test of the two normalisers), although floats are
    accepted as the items of 2- and 4-sequences. *)
Theorem scalar_float_rejected :
  forall (name : string) (f x y z u : spec_float),
    normalize_box_spacing (VFloat f) name
      = raise TypeError
          [Text "`"; Text name;
           Text "` must be int, tuple, or list, but received ";
           Text "float"; Text "."]
    /\ normalize_cell_spacing (VFloat f)
      = raise TypeError
          [Text "`cells_spacing` must be int, tuple, or list, but received ";
           Text "float"; Text "."]
    /\ both_sequences [VFloat x; VFloat y]
         (fun s =>
            normalize_box_spacing s name
              = Ok (VFloat x, VFloat y, VFloat x, VFloat y)
            /\ normalize_cell_spacing s
              = Ok (SFdiv prec emax x f_two, SFdiv prec emax y f_two,
                    SFdiv prec emax x f_two, SFdiv prec emax y f_two))
    /\ both_sequences [VFloat x; VFloat y; VFloat z; VFloat u]
         (fun s =>
            normalize_box_spacing s name
              = Ok (VFloat x, VFloat y, VFloat z, VFloat u)
            /\ normalize_cell_spacing s
              = Ok (SFdiv prec emax x f_two, SFdiv prec emax y f_two,
                    SFdiv prec emax z f_two, SFdiv prec emax u f_two)).
Proof.
  intros name f x y z u. repeat split; reflexivity.
Qed.

Lemma init_default : init (VInt 0) (VInt 0) = Ok new_world.
Proof. reflexivity. Qed.





(** An int beyond the range of floats has no half. *)
Example huge_gap_overflows :
  normalize_cell_spacing (VInt (2 ^ 1025)) = Raise (Builtin OverflowError).
Proof. vm_compute. reflexivity. Qed.

(** The same two placements, computed. *)
Example margins_two_by_two :
  let w' := after (load_cells two_by_two) new_world in
  placement w' 0%nat = Some (0, 0, (f_zero, f_five), (f_zero, f_five))
  /\ placement w' 3%nat = Some (1, 1, (f_five, f_zero), (f_five, f_zero)).
Proof. split; vm_compute; reflexivity. Qed.


(** A [load_cells] whose shape has not two dimensions, on a matrix that
    the shape describes: the cells are destroyed, the shape is assigned,
    the error is raised; nothing else has happened. *)
Lemma load_cells_bad_shape (a : load_args) (w : World) (dims : list PyVal) :
  shape_matches w = true ->
  shape_of (array a) = Ok dims ->
  List.length dims <> 2%nat ->
  load_cells a w
  = (raise ValueError invalid_shape_message,
     mk_world (set_grid_shape dims (self w)) (next_widget w)
       (calls w ++ map Destroy (List.concat (_cells_matrix (self w))))).
Proof.
  intros Hm Hs Hl.
  rewrite load_cells_eq, (destroy_all_cells_run w Hm), rebuild_eq.
  cbn [self next_widget calls add_calls]. rewrite Hs.
  destruct dims as [|s0 [|s1 [|s2 dims]]]; try reflexivity.
  now elim Hl.
Qed.






Lemma count_of_iota (s : PyVal) (n : nat) :
  range s = Ok (iota 0 n) -> count_of s = n.
Proof. intros H. unfold count_of. now rewrite H, iota_length. Qed.

Lemma add_calls_inj (cs cs' : list tk_call) (w : World) :
  add_calls cs w = add_calls cs' w -> cs = cs'.
Proof.
  intros H. apply (f_equal calls) in H. cbn in H.
  now apply app_inv_head in H.
Qed.

(** Two builds in a row: the shape of the first describes its matrix, so
    the second destroys exactly the cells of the first. *)
Lemma load_cells_twice (a1 a2 : load_args) (w0 w1 w2 : World) :
  load_cells a1 w0 = (Ok tt, w1) ->
  load_cells a2 w1 = (Ok tt, w2) ->
  exists ds s0 s1 sp lr lc R C s0' s1' sp' lr' lc' R' C',
    forallb is_destroy ds = true
    /\ plan a1 s0 s1 sp lr lc R C
    /\ w1 = built a1 s0 s1 sp lr lc R C (add_calls ds w0)
    /\ plan a2 s0' s1' sp' lr' lc' R' C'
    /\ w2 = built a2 s0' s1' sp' lr' lc' R' C'
              (add_calls (map Destroy (List.concat (_cells_matrix (self w1))))
                 w1).
Proof.
  intros H1 H2.
  apply load_cells_inv in H1.
  destruct H1 as (ds & s0 & s1 & sp & lr & lc & R & C & _ & Hds & Hp & E1).
  pose proof (shape_matches_built a1 s0 s1 sp lr lc R C (add_calls ds w0) Hp)
    as Hm.
  rewrite <- E1 in Hm.
  apply load_cells_inv in H2.
  destruct H2
    as (ds' & s0' & s1' & sp' & lr' & lc' & R' & C' & Hd & _ & Hp' & E2).
  rewrite (destroy_all_cells_run w1 Hm) in Hd.
  assert (Eds : map Destroy (List.concat (_cells_matrix (self w1))) = ds').
  { apply (add_calls_inj _ _ w1). exact (f_equal snd Hd). }
  subst ds'.
  now exists ds, s0, s1, sp, lr, lc, R, C, s0', s1', sp', lr', lc', R', C'.
Qed.

(** C7. After two [load_cells] calls that return, one after the other,
    the matrix holds exactly the rows and columns of the second shape and
    none of the cells of the first call; and the second call destroys
    every cell the first one created before it creates any cell. *)
Theorem reload_replaces :
  forall (a1 a2 : load_args) (w0 w1 w2 : World),
    load_cells a1 w0 = (Ok tt, w1) ->
    load_cells a2 w1 = (Ok tt, w2) ->
    exists (s0 s1 : PyVal) (olds news : list tk_call),
      shape_of (array a2) = Ok [s0; s1]
      /\ List.length (_cells_matrix (self w2)) = count_of s0
      /\ Forall (fun row => List.length row = count_of s1)
           (_cells_matrix (self w2))
      /\ List.length (List.concat (_cells_matrix (self w2)))
         = (count_of s0 * count_of s1)%nat
      /\ (forall cell,
            In cell (List.concat (_cells_matrix (self w1))) ->
            ~ In cell (List.concat (_cells_matrix (self w2))))
      /\ calls w1 = calls w0 ++ olds
      /\ created olds = List.concat (_cells_matrix (self w1))
      /\ calls w2
         = calls w1
             ++ map Destroy (List.concat (_cells_matrix (self w1)))
             ++ news
      /\ created news = List.concat (_cells_matrix (self w2))
      /\ existsb is_destroy news = false.
Proof.
  intros a1 a2 w0 w1 w2 H1 H2.
  destruct (load_cells_twice a1 a2 w0 w1 w2 H1 H2)
    as (ds & s0 & s1 & sp & lr & lc & R & C
        & s0' & s1' & sp' & lr' & lc' & R' & C' & Hds & Hp & E1 & Hp' & E2).
  set (m1 := _cells_matrix (self w1)) in *.
  assert (Em1 : m1 = fresh_rows (next_widget w0) C R)
    by (unfold m1; rewrite E1; reflexivity).
  assert (En1 : next_widget w1 = (next_widget w0 + R * C)%nat)
    by (rewrite E1; reflexivity).
  assert (Ec1 : calls w1
                = calls w0
                    ++ (ds ++ build_calls (style_args a1) sp lr lc
                                (next_widget w0) 0 C R)).
  { rewrite E1. cbn [built mk_world calls add_calls next_widget].
    now rewrite app_assoc. }
  assert (Em2 : _cells_matrix (self w2) = fresh_rows (next_widget w1) C' R')
    by (rewrite E2; reflexivity).
  assert (Ec2 : calls w2
                = calls w1 ++ map Destroy (List.concat m1)
                    ++ build_calls (style_args a2) sp' lr' lc'
                         (next_widget w1) 0 C' R').
  { rewrite E2. cbn [built mk_world calls add_calls next_widget].
    now rewrite app_assoc. }
  destruct Hp' as (Hs' & _ & _ & _ & H0' & H1').
  pose proof (count_of_iota _ _ H0') as Ec0.
  exists s0', s1',
    (ds ++ build_calls (style_args a1) sp lr lc (next_widget w0) 0 C R),
    (build_calls (style_args a2) sp' lr' lc' (next_widget w1) 0 C' R').
  rewrite Em2, Ec0, fresh_rows_length, fresh_rows_concat, length_seq.
  split; [exact Hs'|]. split; [reflexivity|].
  split.
  { destruct H1' as [-> | H1']; [constructor|].
    rewrite (count_of_iota _ _ H1'). apply fresh_rows_widths. }
  split.
  { destruct H1' as [-> | H1']; [reflexivity|].
    now rewrite (count_of_iota _ _ H1'). }
  split.
  { intros cell Hin1 Hin2. rewrite Em1, fresh_rows_concat in Hin1.
    apply in_seq in Hin1. apply in_seq in Hin2. lia. }
  split; [exact Ec1|].
  split.
  { rewrite created_app, (created_destroys ds Hds), created_build_calls.
    rewrite Em1, fresh_rows_concat. reflexivity. }
  split; [exact Ec2|].
  split; [apply created_build_calls | apply no_destroy_build_calls].
Qed.

Lemma reload_replaces_witness :
  let w1 := after (load_cells two_by_two) new_world in
  let w2 := after (load_cells one_by_three) w1 in
  (load_cells two_by_two new_world = (Ok tt, w1)
   /\ load_cells one_by_three w1 = (Ok tt, w2))
  /\ exists (s0 s1 : PyVal) (olds news : list tk_call),
      shape_of (array one_by_three) = Ok [s0; s1]
      /\ List.length (_cells_matrix (self w2)) = count_of s0
      /\ Forall (fun row => List.length row = count_of s1)
           (_cells_matrix (self w2))
      /\ List.length (List.concat (_cells_matrix (self w2)))
         = (count_of s0 * count_of s1)%nat
      /\ (forall cell,
            In cell (List.concat (_cells_matrix (self w1))) ->
            ~ In cell (List.concat (_cells_matrix (self w2))))
      /\ calls w1 = calls new_world ++ olds
      /\ created olds = List.concat (_cells_matrix (self w1))
      /\ calls w2
         = calls w1
             ++ map Destroy (List.concat (_cells_matrix (self w1)))
             ++ news
      /\ created news = List.concat (_cells_matrix (self w2))
      /\ existsb is_destroy news = false.
Proof.
  intros w1 w2.
  assert (H1 : load_cells two_by_two new_world = (Ok tt, w1))
    by (vm_compute; reflexivity).
  assert (H2 : load_cells one_by_three w1 = (Ok tt, w2))
    by (vm_compute; reflexivity).
  split; [exact (conj H1 H2)|].
  exact (reload_replaces two_by_two one_by_three new_world w1 w2 H1 H2).
Defined.

(** The same two calls, computed: the four cells of the first matrix are
    destroyed, then three new cells are created. *)
Example reload_two_then_three :
  let w1 := after (load_cells two_by_two) new_world in
  let w2 := after (load_cells one_by_three) w1 in
  _cells_matrix (self w1) = [[0; 1]; [2; 3]]%nat
  /\ _cells_matrix (self w2) = [[4; 5; 6]]%nat
  /\ map is_destroy (skipn (List.length (calls w1)) (calls w2))
     = [true; true; true; true; false; false; false; false; false; false].
Proof. repeat split; vm_compute; reflexivity. Qed.

Lemma fresh_rows_lengths (C R : nat) :
  forall n, map (@List.length nat) (fresh_rows n C R) = repeat C R.
Proof.
  induction R as [|R IH]; intros n; cbn [fresh_rows map repeat].
  - reflexivity.
  - now rewrite length_seq, IH.
Qed.

(** C8. Calling [load_cells] again with the arguments of a call that
    returned, returns again, and leaves a matrix of the same shape, the
    same styling attributes and half-gaps, and, position by position, a
    new cell created with the same frame arguments and placed with the
    same row, column and margins. *)
Theorem load_cells_idempotent :
  forall (a : load_args) (w0 w1 : World),
    load_cells a w0 = (Ok tt, w1) ->
    exists w2,
      load_cells a w1 = (Ok tt, w2)
      /\ grid_shape (self w2) = grid_shape (self w1)
      /\ map (@List.length nat) (_cells_matrix (self w2))
         = map (@List.length nat) (_cells_matrix (self w1))
      /\ style_attrs (self w2) = style_attrs (self w1)
      /\ cell_spacing (self w2) = cell_spacing (self w1)
      /\ forall i j c1,
           cell_at (_cells_matrix (self w1)) i j = Some c1 ->
           exists c2,
             cell_at (_cells_matrix (self w2)) i j = Some c2
             /\ c2 <> c1
             /\ frame_of w2 c2 = frame_of w1 c1
             /\ placement w2 c2 = placement w1 c1.
Proof.
  intros a w0 w1 H.
  apply load_cells_inv in H.
  destruct H as (ds & s0 & s1 & sp & lr & lc & R & C & _ & _ & Hp & E1).
  pose proof (shape_matches_built a s0 s1 sp lr lc R C (add_calls ds w0) Hp)
    as Hm.
  rewrite <- E1 in Hm.
  eexists. split; [exact (load_cells_run a s0 s1 sp lr lc R C w1 Hm Hp)|].
  set (w1' := add_calls _ w1).
  split; [rewrite E1; reflexivity|].
  split.
  { rewrite E1. unfold built.
    cbn [self mk_world _cells_matrix set_cells_matrix].
    now rewrite !fresh_rows_lengths. }
  split; [rewrite E1; reflexivity|]. split; [rewrite E1; reflexivity|].
  intros i j c1 Hc1.
  assert (Hc1' : cell_at (_cells_matrix
                   (self (built a s0 s1 sp lr lc R C (add_calls ds w0))))
                   i j = Some c1) by (rewrite <- E1; exact Hc1).
  pose proof Hc1' as Hat.
  unfold built in Hat. cbn [self mk_world _cells_matrix set_cells_matrix] in Hat.
  apply cell_at_fresh_inv in Hat. destruct Hat as (Hi & Hj & Ec1).
  exists (next_widget w1' + i * C + j)%nat.
  assert (Hc2 : cell_at (_cells_matrix (self (built a s0 s1 sp lr lc R C w1')))
                  i j = Some (next_widget w1' + i * C + j)%nat)
    by (apply cell_at_fresh; trivial).
  split; [exact Hc2|].
  split.
  { assert (En : next_widget w1'
                 = (next_widget (add_calls ds w0) + R * C)%nat)
      by (unfold w1'; rewrite E1; reflexivity).
    rewrite Ec1, En. nia. }
  split.
  - rewrite (frame_built _ _ _ _ _ _ _ _ _ _ _ _ Hc2).
    rewrite E1. now rewrite (frame_built _ _ _ _ _ _ _ _ _ _ _ _ Hc1').
  - rewrite (placement_built _ _ _ _ _ _ _ _ _ _ _ _ Hc2).
    rewrite E1. now rewrite (placement_built _ _ _ _ _ _ _ _ _ _ _ _ Hc1').
Qed.

Lemma load_cells_idempotent_witness :
  let w1 := after (load_cells two_by_two) new_world in
  load_cells two_by_two new_world = (Ok tt, w1)
  /\ exists w2,
      load_cells two_by_two w1 = (Ok tt, w2)
      /\ grid_shape (self w2) = grid_shape (self w1)
      /\ map (@List.length nat) (_cells_matrix (self w2))
         = map (@List.length nat) (_cells_matrix (self w1))
      /\ style_attrs (self w2) = style_attrs (self w1)
      /\ cell_spacing (self w2) = cell_spacing (self w1)
      /\ forall i j c1,
           cell_at (_cells_matrix (self w1)) i j = Some c1 ->
           exists c2,
             cell_at (_cells_matrix (self w2)) i j = Some c2
             /\ c2 <> c1
             /\ frame_of w2 c2 = frame_of w1 c1
             /\ placement w2 c2 = placement w1 c1.
Proof.
  intros w1.
  assert (H1 : load_cells two_by_two new_world = (Ok tt, w1))
    by (vm_compute; reflexivity).
  split; [exact H1|].
  exact (load_cells_idempotent two_by_two new_world w1 H1).
Defined.

(** C9. The destruction loops take their ranges from [grid_shape], not
    from the stored matrix, and a [load_cells] that fails the shape test
    has already assigned [grid_shape] without rebuilding the matrix.  So
    after [load_cells(2)] and a failing [load_cells((5, 5, 5))], the shape
    no longer describes the matrix, and every further [load_cells],
    whatever its arguments (an invalid shape such as [(1, 2, 3)]
    included), raises [IndexError] from the destruction loop instead of
    building or reporting the shape. *)
Theorem stale_shape_breaks_destroy :
  let w1 := after (load_cells two_by_two) new_world in
  let w2 := after (load_cells five_cubed) w1 in
  outcome (load_cells two_by_two) new_world = Ok tt
  /\ outcome (load_cells five_cubed) w1
     = raise ValueError invalid_shape_message
  /\ grid_shape (self w2) = Some [VInt 5; VInt 5; VInt 5]
  /\ _cells_matrix (self w2) = [[0; 1]; [2; 3]]%nat
  /\ _cells_matrix (self w1) = [[0; 1]; [2; 3]]%nat
  /\ shape_matches w2 = false
  /\ outcome (load_cells one_two_three) w2 = Raise (Builtin IndexError)
  /\ forall a : load_args,
       outcome (load_cells a) w2 = Raise (Builtin IndexError).
Proof.
  intros w1 w2.
  assert (E : fst (destroy_all_cells w2) = Raise (Builtin IndexError))
    by (vm_compute; reflexivity).
  split; [vm_compute; reflexivity|].
  split; [vm_compute; reflexivity|].
  split; [vm_compute; reflexivity|].
  split; [vm_compute; reflexivity|].
  split; [vm_compute; reflexivity|].
  split; [vm_compute; reflexivity|].
  split; [vm_compute; reflexivity|].
  intros a. exact (bind_fst_raise destroy_all_cells _ w2 _ E).
Qed.

(** C1, as the spec states it, fails: [load_cells(2)] then
    [load_cells((1, 2, 3))] raises the shape error, and by then the four
    cells of the matrix, which the accessor still returns, are
    destroyed. *)
Lemma shape_error_destroys_cells :
  let w1 := after (load_cells two_by_two) new_world in
  let w2 := after (load_cells one_two_three) w1 in
  outcome (load_cells two_by_two) new_world = Ok tt
  /\ outcome (load_cells one_two_three) w1
     = raise ValueError invalid_shape_message
  /\ outcome get_cells_grid w2 = Ok [[0; 1]; [2; 3]]%nat
  /\ map (destroyed w1) [0; 1; 2; 3]%nat = [false; false; false; false]
  /\ map (destroyed w2) [0; 1; 2; 3]%nat = [true; true; true; true]
  /\ calls w2 <> calls w1.
Proof.
  intros w1 w2.
  split; [vm_compute; reflexivity|].
  split; [vm_compute; reflexivity|].
  split; [vm_compute; reflexivity|].
  split; [vm_compute; reflexivity|].
  split; [vm_compute; reflexivity|].
  intros H. apply (f_equal (@List.length tk_call)) in H.
  vm_compute in H. discriminate.
Qed.

(** C1, amended.  When a [load_cells] call fails the shape test, on a
    container whose shape describes its matrix: the shape error is raised
    before the spacing is normalised and before any cell is created, and
    the matrix keeps the handles it had; but every cell of that matrix
    has been destroyed by then, and [grid_shape] holds the rejected
    shape. *)
Theorem shape_error_after_destroy :
  forall (a : load_args) (w : World) (dims : list PyVal),
    shape_matches w = true ->
    shape_of (array a) = Ok dims ->
    List.length dims <> 2%nat ->
    let w' := after (load_cells a) w in
    outcome (load_cells a) w = raise ValueError invalid_shape_message
    /\ _cells_matrix (self w') = _cells_matrix (self w)
    /\ cell_spacing (self w') = cell_spacing (self w)
    /\ style_attrs (self w') = style_attrs (self w)
    /\ next_widget w' = next_widget w
    /\ calls w'
       = calls w ++ map Destroy (List.concat (_cells_matrix (self w)))
    /\ (forall cell,
          In cell (List.concat (_cells_matrix (self w))) ->
          destroyed w' cell = true)
    /\ grid_shape (self w') = Some dims.
Proof.
  intros a w dims Hm Hs Hl w'. unfold w', outcome, after.
  rewrite (load_cells_bad_shape a w dims Hm Hs Hl).
  cbn [fst snd self mk_world calls next_widget].
  repeat (split; [reflexivity|]).
  split; [|reflexivity].
  intros cell Hin. unfold destroyed, mk_world. cbn [calls].
  rewrite existsb_app. apply orb_true_iff. right.
  apply existsb_exists. exists (Destroy cell). split.
  - now apply in_map.
  - apply Nat.eqb_refl.
Qed.

Lemma shape_error_after_destroy_witness :
  let w := after (load_cells two_by_two) new_world in
  let w' := after (load_cells one_two_three) w in
  (shape_matches w = true
   /\ shape_of (array one_two_three) = Ok [VInt 1; VInt 2; VInt 3])
  /\ outcome (load_cells one_two_three) w
     = raise ValueError invalid_shape_message
  /\ _cells_matrix (self w') = _cells_matrix (self w)
  /\ cell_spacing (self w') = cell_spacing (self w)
  /\ style_attrs (self w') = style_attrs (self w)
  /\ next_widget w' = next_widget w
  /\ calls w'
     = calls w ++ map Destroy (List.concat (_cells_matrix (self w)))
  /\ (forall cell,
        In cell (List.concat (_cells_matrix (self w))) ->
        destroyed w' cell = true)
  /\ grid_shape (self w') = Some [VInt 1; VInt 2; VInt 3].
Proof.
  intros w w'.
  assert (Hm : shape_matches w = true) by (vm_compute; reflexivity).
  assert (Hs : shape_of (array one_two_three)
               = Ok [VInt 1; VInt 2; VInt 3]) by reflexivity.
  split; [exact (conj Hm Hs)|].
  exact (shape_error_after_destroy one_two_three w
           [VInt 1; VInt 2; VInt 3] Hm Hs ltac:(discriminate)).
Defined.

(* ================================================================== *)
(** * Further properties of the code *)
(* ================================================================== *)

(** ** What every path of a method keeps *)

Lemma keeps_pure {A} (Q : World -> World -> Prop) (m : M A) :
  (forall w, Q w w) -> (forall w, snd (m w) = w) -> keeps Q m.
Proof. intros Hr H w. rewrite H. apply Hr. Qed.

Lemma keeps_bind {A B} (Q : World -> World -> Prop) (m : M A)
    (k : A -> M B) :
  (forall w1 w2 w3, Q w1 w2 -> Q w2 w3 -> Q w1 w3) ->
  keeps Q m -> (forall a, keeps Q (k a)) -> keeps Q (bind m k).
Proof.
  intros Ht Hm Hk w. unfold bind. specialize (Hm w).
  destruct (m w) as [[a|e] w1]; cbn [snd] in Hm.
  - apply (Ht w w1); [exact Hm | apply Hk].
  - exact Hm.
Qed.

Lemma keeps_for_each {A} (Q : World -> World -> Prop) (l : list A)
    (body : A -> M unit) :
  (forall w, Q w w) ->
  (forall w1 w2 w3, Q w1 w2 -> Q w2 w3 -> Q w1 w3) ->
  (forall x, keeps Q (body x)) -> keeps Q (for_each l body).
Proof.
  intros Hr Ht Hb. induction l as [|x l IH]; cbn [for_each].
  - now apply keeps_pure.
  - apply keeps_bind; auto.
Qed.

Lemma keeps_attr {A} (Q : World -> World -> Prop)
    (f : CellsGrid -> option A) :
  (forall w, Q w w) -> keeps Q (attr f).
Proof.
  intros Hr. apply keeps_pure; trivial.
  intros w. unfold attr. now destruct (f (self w)).
Qed.

Lemma keeps_shape_at (Q : World -> World -> Prop) (i : Z) :
  (forall w, Q w w) ->
  (forall w1 w2 w3, Q w1 w2 -> Q w2 w3 -> Q w1 w3) ->
  keeps Q (shape_at i).
Proof.
  intros Hr Ht.
  apply keeps_bind;
    [exact Ht | now apply keeps_attr | intros a; now apply keeps_pure].
Qed.

Lemma keeps_place_cell (Q : World -> World -> Prop) (row col : Z) :
  allows_build Q -> keeps Q (place_cell row col).
Proof.
  intros (Hr & Ht & _ & _ & _ & _ & _ & Hm & Hn & Hg). unfold place_cell.
  repeat (apply keeps_bind; [exact Ht | now apply keeps_attr | intros ?]).
  apply keeps_bind; [exact Ht | apply Hn | intros cell].
  repeat (apply keeps_bind; [exact Ht | now apply keeps_attr | intros ?]).
  apply keeps_bind; [exact Ht | apply Hg | intros _].
  apply keeps_bind; [exact Ht | now apply keeps_pure | intros m].
  apply keeps_bind; [exact Ht | now apply keeps_pure | intros m'].
  apply Hm.
Qed.

Lemma keeps_build_row (Q : World -> World -> Prop) (row : Z) :
  allows_build Q -> keeps Q (build_row row).
Proof.
  intros HQ. pose proof HQ as (Hr & Ht & _ & _ & _ & _ & _ & Hm & _).
  unfold build_row.
  apply keeps_bind; [exact Ht | now apply keeps_pure | intros m].
  apply keeps_bind; [exact Ht | apply Hm | intros _].
  apply keeps_bind; [exact Ht | now apply keeps_shape_at | intros s1].
  apply keeps_bind; [exact Ht | now apply keeps_pure | intros cols].
  apply keeps_for_each; trivial. intros col. now apply keeps_place_cell.
Qed.

Lemma keeps_rebuild (Q : World -> World -> Prop) (a : load_args) :
  allows_build Q -> keeps Q (rebuild a).
Proof.
  intros HQ.
  pose proof HQ as (Hr & Ht & Hgs & Hst & Hsp & Hlr & Hlc & Hm & _).
  unfold rebuild.
  apply keeps_bind; [exact Ht | now apply keeps_pure | intros shape].
  apply keeps_bind; [exact Ht | apply Hgs | intros _].
  apply keeps_bind; [exact Ht | now apply keeps_attr | intros shape'].
  destruct (negb (Nat.eqb (List.length shape') 2)).
  - now apply keeps_pure.
  - apply keeps_bind; [exact Ht | apply Hst | intros _].
    apply keeps_bind; [exact Ht | now apply keeps_pure | intros sp].
    apply keeps_bind; [exact Ht | apply Hsp | intros _].
    apply keeps_bind; [exact Ht | now apply keeps_shape_at | intros s0].
    apply keeps_bind; [exact Ht | now apply keeps_pure | intros lr].
    apply keeps_bind; [exact Ht | apply Hlr | intros _].
    apply keeps_bind; [exact Ht | now apply keeps_shape_at | intros s1].
    apply keeps_bind; [exact Ht | now apply keeps_pure | intros lc].
    apply keeps_bind; [exact Ht | apply Hlc | intros _].
    apply keeps_bind; [exact Ht | apply Hm | intros _].
    apply keeps_bind; [exact Ht | now apply keeps_shape_at | intros s0'].
    apply keeps_bind; [exact Ht | now apply keeps_pure | intros rows].
    apply keeps_for_each; trivial. intros row. now apply keeps_build_row.
Qed.

Lemma keeps_destroy_all_cells (Q : World -> World -> Prop) :
  (forall w, Q w w) ->
  (forall w1 w2 w3, Q w1 w2 -> Q w2 w3 -> Q w1 w3) ->
  (forall cs w, forallb is_destroy cs = true -> Q w (add_calls cs w)) ->
  keeps Q destroy_all_cells.
Proof.
  intros Hr Ht Hd w.
  destruct (destroy_only_destroys w) as [cs [E F]]. rewrite E. now apply Hd.
Qed.

Lemma keeps_load_cells (Q : World -> World -> Prop) (a : load_args) :
  allows_build Q ->
  (forall cs w, forallb is_destroy cs = true -> Q w (add_calls cs w)) ->
  keeps Q (load_cells a).
Proof.
  intros HQ Hd. pose proof HQ as (Hr & Ht & _). unfold load_cells.
  apply keeps_bind; [exact Ht | now apply keeps_destroy_all_cells |].
  intros _. now apply keeps_rebuild.
Qed.

Lemma same_box_allows_build : allows_build same_box.
Proof.
  unfold allows_build, keeps, same_box.
  split; [now split|].
  split; [intros w1 w2 w3 [A B] [C D]; split; congruence|].
  repeat split.
Qed.

(** ** The container in its parent *)

Lemma init_inv (margin padding : PyVal) (w : World) :
  init margin padding = Ok w ->
  exists om ip,
    normalize_box_spacing margin "margin" = Ok om
    /\ normalize_box_spacing padding "padding" = Ok ip
    /\ outer_margin (self w) = om /\ inner_padding (self w) = ip
    /\ _cells_matrix (self w) = [] /\ calls w = [] /\ next_widget w = O.
Proof.
  unfold init.
  destruct (normalize_box_spacing margin "margin") as [om|]; [|discriminate].
  destruct (normalize_box_spacing padding "padding") as [ip|];
    [|discriminate].
  cbn [rbind]. intros H. inversion H. exists om, ip. now repeat split.
Qed.

(** X1. The method [grid] places the container with the margin given at
    construction: with the margin normalised to [(l, t, r, b)] it passes
    [padx=(l, r)] and [pady=(t, b)] to the toolkit, followed by the
    caller's own keyword arguments (none of them [padx] or [pady]). *)
Theorem grid_applies_margin :
  forall (margin padding : PyVal) (w : World) (kw : kwargs)
         (l t r b : PyVal),
    init margin padding = Ok w ->
    normalize_box_spacing margin "margin" = Ok (l, t, r, b) ->
    has_keyword "padx" kw = false ->
    has_keyword "pady" kw = false ->
    grid (self w) kw
    = Ok (("padx", VTuple [l; r]) :: ("pady", VTuple [t; b]) :: kw).
Proof.
  intros margin padding w kw l t r b Hi Hn Hx Hy.
  apply init_inv in Hi. destruct Hi as (om & ip & Hm & _ & Ho & _).
  unfold grid. rewrite Ho. rewrite Hn in Hm. inversion Hm; subst om.
  now rewrite Hx, Hy.
Qed.

Lemma grid_applies_margin_witness :
  let w := mk_world (set_outer_margin (VInt 3, VInt 4, VInt 3, VInt 4)
                       (self new_world)) O [] in
  (init (VTuple [VInt 3; VInt 4]) (VInt 0) = Ok w
   /\ normalize_box_spacing (VTuple [VInt 3; VInt 4]) "margin"
      = Ok (VInt 3, VInt 4, VInt 3, VInt 4)
   /\ has_keyword "padx" [("row", VInt 0); ("column", VInt 1)] = false
   /\ has_keyword "pady" [("row", VInt 0); ("column", VInt 1)] = false)
  /\ grid (self w) [("row", VInt 0); ("column", VInt 1)]
     = Ok [("padx", VTuple [VInt 3; VInt 3]);
           ("pady", VTuple [VInt 4; VInt 4]);
           ("row", VInt 0); ("column", VInt 1)].
Proof.
  intros w.
  assert (Hi : init (VTuple [VInt 3; VInt 4]) (VInt 0) = Ok w) by reflexivity.
  split; [exact (conj Hi (conj eq_refl (conj eq_refl eq_refl)))|].
  exact (grid_applies_margin (VTuple [VInt 3; VInt 4]) (VInt 0) w
           [("row", VInt 0); ("column", VInt 1)]
           (VInt 3) (VInt 4) (VInt 3) (VInt 4)
           Hi eq_refl eq_refl eq_refl).
Defined.

(** X2. The method [grid] cannot be given a [padx] or a [pady] of the
    caller's own: the call that passes the margin raises a [TypeError]
    for the keyword given twice. *)
Theorem grid_rejects_own_pads :
  forall (o : CellsGrid) (kw : kwargs) (k : string) (v : PyVal),
    In (k, v) kw -> k = "padx" \/ k = "pady" ->
    grid o kw = Raise (Builtin TypeError).
Proof.
  intros o kw k v Hin Hk. unfold grid.
  destruct (outer_margin o) as [[[l t] r] b].
  assert (H : has_keyword "padx" kw || has_keyword "pady" kw = true).
  { apply orb_true_iff. unfold has_keyword.
    destruct Hk as [-> | ->]; [left | right]; apply existsb_exists;
      [exists ("padx", v) | exists ("pady", v)]; now split. }
  now rewrite H.
Qed.

Lemma grid_rejects_own_pads_witness :
  (In ("pady", VInt 5) [("row", VInt 0); ("pady", VInt 5)]
   /\ ("pady" = "padx" \/ "pady" = "pady"))
  /\ grid (self new_world) [("row", VInt 0); ("pady", VInt 5)]
     = Raise (Builtin TypeError).
Proof.
  assert (Hin : In ("pady", VInt 5) [("row", VInt 0); ("pady", VInt 5)])
    by (right; left; reflexivity).
  assert (Hk : "pady" = "padx" \/ "pady" = "pady") by (right; reflexivity).
  split; [exact (conj Hin Hk)|].
  exact (grid_rejects_own_pads (self new_world)
           [("row", VInt 0); ("pady", VInt 5)] "pady" (VInt 5) Hin Hk).
Defined.

(** ** Calls that are only added *)

Lemma adds_calls_allows_build (P : tk_call -> bool) :
  (forall cell args, P (Create cell args) = true) ->
  (forall cell row col px py, P (Grid cell row col px py) = true) ->
  allows_build (adds_calls P).
Proof.
  intros Hc Hg. unfold allows_build, keeps, adds_calls.
  split; [intros w; exists []; now rewrite app_nil_r|].
  split.
  { intros w1 w2 w3 (c1 & E1 & F1) (c2 & E2 & F2). exists (c1 ++ c2).
    rewrite E2, E1, app_assoc, forallb_app, F1, F2. now split. }
  assert (Ha : forall f w, exists cs,
             calls (snd (assign f w)) = calls w ++ cs /\ forallb P cs = true).
  { intros f w. exists []. cbn. now rewrite app_nil_r. }
  repeat (split; [intros; apply Ha|]).
  split.
  - intros args w. exists [Create (next_widget w) args]. cbn.
    now rewrite Hc.
  - intros cell row col px py w. exists [Grid cell row col px py]. cbn.
    now rewrite Hg.
Qed.

Lemma adds_calls_destroys (P : tk_call -> bool) :
  (forall cell, P (Destroy cell) = true) ->
  forall cs w, forallb is_destroy cs = true -> adds_calls P w (add_calls cs w).
Proof.
  intros Hd cs w F. exists cs. split; [reflexivity|].
  apply forallb_forall. intros c Hc.
  rewrite forallb_forall in F. specialize (F c Hc).
  destruct c; try discriminate. apply Hd.
Qed.

Lemma destroy_nothing (w : World) :
  _cells_matrix (self w) = [] -> destroy_all_cells w = (Ok tt, w).
Proof.
  intros H. unfold destroy_all_cells, bind, get_cells_grid. now rewrite H.
Qed.

(** X3. A new container holds no cell: the accessor returns the empty
    list, the inner frame is placed with the padding given at
    construction, normalised, and the first [load_cells], whatever its
    arguments and its outcome, calls [destroy] on nothing. *)
Theorem new_container :
  forall (margin padding : PyVal) (w : World),
    init margin padding = Ok w ->
    outcome get_cells_grid w = Ok []
    /\ (exists l t r b,
          normalize_box_spacing padding "padding" = Ok (l, t, r, b)
          /\ container_frame_grid (self w)
             = [("padx", VTuple [l; r]); ("pady", VTuple [t; b])])
    /\ forall (a : load_args) (c : tk_call),
         In c (calls (after (load_cells a) w)) -> is_destroy c = false.
Proof.
  intros margin padding w Hi.
  apply init_inv in Hi.
  destruct Hi as (om & ip & Hm & Hp & Ho & Hip & Hmx & Hc & Hn).
  split; [unfold outcome, get_cells_grid; cbn [fst]; now rewrite Hmx|].
  split.
  { destruct ip as [[[l t] r] b]. exists l, t, r, b. split; [exact Hp|].
    unfold container_frame_grid. now rewrite Hip. }
  intros a c Hin. unfold after, load_cells in Hin.
  rewrite (bind_ok _ _ w w tt (destroy_nothing w Hmx)) in Hin.
  destruct (keeps_rebuild (adds_calls not_destroy) a
              (adds_calls_allows_build not_destroy
                 (fun _ _ => eq_refl) (fun _ _ _ _ _ => eq_refl)) w)
    as (cs & E & F).
  rewrite E, Hc in Hin. cbn [app] in Hin.
  rewrite forallb_forall in F. specialize (F c Hin).
  unfold not_destroy in F. now destruct (is_destroy c).
Qed.

Lemma new_container_witness :
  init (VInt 0) (VTuple [VInt 8; VInt 6])
  = Ok (mk_world (set_inner_padding (VInt 8, VInt 6, VInt 8, VInt 6)
                    (self new_world)) O [])
  /\ outcome get_cells_grid
       (mk_world (set_inner_padding (VInt 8, VInt 6, VInt 8, VInt 6)
                    (self new_world)) O []) = Ok []
  /\ (exists l t r b,
        normalize_box_spacing (VTuple [VInt 8; VInt 6]) "padding"
        = Ok (l, t, r, b)
        /\ container_frame_grid
             (self (mk_world (set_inner_padding
                                (VInt 8, VInt 6, VInt 8, VInt 6)
                                (self new_world)) O []))
           = [("padx", VTuple [l; r]); ("pady", VTuple [t; b])])
  /\ forall (a : load_args) (c : tk_call),
       In c (calls (after (load_cells a)
                      (mk_world (set_inner_padding
                                   (VInt 8, VInt 6, VInt 8, VInt 6)
                                   (self new_world)) O []))) ->
       is_destroy c = false.
Proof.
  assert (Hi : init (VInt 0) (VTuple [VInt 8; VInt 6])
               = Ok (mk_world (set_inner_padding
                                 (VInt 8, VInt 6, VInt 8, VInt 6)
                                 (self new_world)) O [])) by reflexivity.
  split; [exact Hi|].
  exact (new_container (VInt 0) (VTuple [VInt 8; VInt 6]) _ Hi).
Defined.

(** X4. [load_cells] never touches the margin and the padding of the
    container, whatever its arguments and its outcome: after it the
    method [grid] passes the same keyword arguments as before. *)
Theorem load_cells_keeps_box :
  forall (a : load_args) (w : World),
    outer_margin (self (after (load_cells a) w)) = outer_margin (self w)
    /\ inner_padding (self (after (load_cells a) w)) = inner_padding (self w)
    /\ forall kw, grid (self (after (load_cells a) w)) kw = grid (self w) kw.
Proof.
  intros a w.
  assert (H : same_box w (after (load_cells a) w)).
  { apply (keeps_load_cells same_box a same_box_allows_build).
    intros cs w0 _. now split. }
  destruct H as [Hm Hp]. split; [exact Hm|]. split; [exact Hp|].
  intros kw. unfold grid. now rewrite Hm.
Qed.

(** ** The ways [load_cells] can end *)

Lemma build_row_stops (o : CellsGrid) (n : widget) (cs : list tk_call)
    (s0 s1 : PyVal) (e : exn) (row : Z) :
  grid_shape o = Some [s0; s1] -> range s1 = Raise e ->
  build_row row (mk_world o n cs)
  = (Raise e, mk_world (set_cells_matrix (_cells_matrix o ++ [[]]) o) n cs).
Proof.
  intros Hs Hr. unfold build_row.
  unfold bind at 1, get_cells_grid. unfold bind at 1, assign.
  cbn [self next_widget calls mk_world].
  erewrite bind_ok.
  2:{ apply (shape_at_run _ [s0; s1] 1 s1); [exact Hs | reflexivity]. }
  unfold bind, lift. now rewrite Hr.
Qed.

(** [rebuild] either runs its plan to the end, or raises having created
    no frame, with the matrix as it was, empty, or one empty row. *)
Lemma rebuild_cases (a : load_args) (w : World) :
  (exists s0 s1 sp lr lc R C,
     plan a s0 s1 sp lr lc R C
     /\ rebuild a w = (Ok tt, built a s0 s1 sp lr lc R C w))
  \/ (exists e o,
        rebuild a w = (Raise e, mk_world o (next_widget w) (calls w))
        /\ (_cells_matrix o = _cells_matrix (self w)
            \/ _cells_matrix o = [] \/ _cells_matrix o = [[]])).
Proof.
  rewrite rebuild_eq.
  destruct (shape_of (array a)) as [shape|e] eqn:Hs.
  2:{ right. exists e, (self w). split; [now destruct w | now left]. }
  destruct shape as [|s0 [|s1 [|s2 shape]]];
    try (right; eexists _, _; split; [reflexivity | now left]).
  cbn zeta.
  destruct (normalize_cell_spacing (cells_spacing a)) as [sp|e] eqn:Hsp.
  2:{ right. eexists _, _. split; [reflexivity | now left]. }
  destruct (sub_1 s0) as [lr|e] eqn:Hlr.
  2:{ right. eexists _, _. split; [reflexivity | now left]. }
  destruct (sub_1 s1) as [lc|e] eqn:Hlc.
  2:{ right. eexists _, _. split; [reflexivity | now left]. }
  destruct (range s0) as [rows|e] eqn:H0.
  2:{ right. eexists _, _. split; [reflexivity | right; now left]. }
  assert (H0' : range s0 = Ok (iota 0 (List.length rows)))
    by (rewrite H0; f_equal; exact (range_iota _ _ H0)).
  rewrite (range_iota _ _ H0). clear H0.
  set (R := List.length rows) in *. clearbody R. clear rows.
  assert (HC : (exists C, R = O \/ range s1 = Ok (iota 0 C))
               \/ (exists R' e, R = S R' /\ range s1 = Raise e)).
  { destruct R as [|R']; [left; exists O; now left|].
    destruct (range s1) as [cols|e] eqn:H1.
    - left. exists (List.length cols). right. f_equal.
      now apply (range_iota s1).
    - right. now exists R', e. }
  destruct HC as [[C HC] | (R' & e & -> & H1)].
  - left. exists s0, s1, sp, lr, lc, R, C.
    split; [now repeat split|]. now apply build_loop_run.
  - right. rewrite iota_S.
    eexists _, _. split.
    + apply for_each_raise.
      apply (build_row_stops _ _ _ s0 s1); [reflexivity | exact H1].
    + right; right. reflexivity.
Qed.

(** *** The destruction stays within the matrix *)

Lemma destroys_held_refl (w : World) : destroys_held w w.
Proof.
  split; [reflexivity|]. split; [reflexivity|].
  exists []. now rewrite app_nil_r.
Qed.

Lemma destroys_held_trans (w1 w2 w3 : World) :
  destroys_held w1 w2 -> destroys_held w2 w3 -> destroys_held w1 w3.
Proof.
  intros (S1 & N1 & c1 & E1 & F1) (S2 & N2 & c2 & E2 & F2).
  split; [congruence|]. split; [congruence|].
  exists (c1 ++ c2). split; [now rewrite E2, E1, app_assoc|].
  unfold cells_of in *. rewrite S1 in F2.
  now rewrite forallb_app, F1, F2.
Qed.

Lemma getitem_In {A} (l : list A) (i : Z) (a : A) :
  getitem l i = Ok a -> In a l.
Proof.
  unfold getitem.
  destruct ((_ <? 0) || _); [discriminate|].
  destruct (nth_error l _) as [x|] eqn:E; [|discriminate].
  intros H. inversion H; subst. now apply nth_error_In in E.
Qed.

Lemma destroy_cell_held (row col : Z) :
  keeps destroys_held (destroy_cell row col).
Proof.
  intros w. unfold destroy_cell, bind, get_cells_grid, lift, tk.
  destruct (getitem (_cells_matrix (self w)) row) as [r|e] eqn:Hr;
    [|apply destroys_held_refl].
  destruct (getitem r col) as [cell|e] eqn:Hc; [|apply destroys_held_refl].
  cbn [snd]. split; [reflexivity|]. split; [reflexivity|].
  exists [Destroy cell]. split; [reflexivity|].
  cbn [forallb destroys_within]. rewrite andb_true_r.
  apply existsb_exists. exists cell. split; [|apply Nat.eqb_refl].
  apply in_concat. exists r. split; eauto using getitem_In.
Qed.

Lemma destroy_all_cells_held : keeps destroys_held destroy_all_cells.
Proof.
  pose proof destroys_held_refl as Hr.
  pose proof destroys_held_trans as Ht.
  unfold destroy_all_cells.
  apply keeps_bind; [exact Ht | now apply keeps_pure | intros m].
  destruct m as [|r m]; [now apply keeps_pure|].
  apply keeps_bind; [exact Ht | now apply keeps_shape_at | intros s0].
  apply keeps_bind; [exact Ht | now apply keeps_pure | intros rows].
  apply keeps_for_each; trivial. intros row. unfold destroy_row.
  apply keeps_bind; [exact Ht | now apply keeps_shape_at | intros s1].
  apply keeps_bind; [exact Ht | now apply keeps_pure | intros cols].
  apply keeps_for_each; trivial. intros col. apply destroy_cell_held.
Qed.

(** [load_cells] ends in one of three ways: the destruction raises; the
    destruction returns and the build raises, no frame created; both
    return. *)
Lemma load_cells_cases (a : load_args) (w : World) :
  exists w1,
    destroys_held w w1
    /\ ((exists e, destroy_all_cells w = (Raise e, w1)
                   /\ load_cells a w = (Raise e, w1))
        \/ (destroy_all_cells w = (Ok tt, w1)
            /\ ((exists s0 s1 sp lr lc R C,
                   plan a s0 s1 sp lr lc R C
                   /\ load_cells a w
                      = (Ok tt, built a s0 s1 sp lr lc R C w1))
                \/ (exists e o,
                      load_cells a w
                      = (Raise e, mk_world o (next_widget w1) (calls w1))
                      /\ (_cells_matrix o = _cells_matrix (self w)
                          \/ _cells_matrix o = []
                          \/ _cells_matrix o = [[]]))))).
Proof.
  pose proof (destroy_all_cells_held w) as Hh.
  rewrite load_cells_eq.
  destruct (destroy_all_cells w) as [[[]|e] w1] eqn:Hd; cbn [snd] in Hh;
    exists w1; (split; [exact Hh|]).
  - right. split; [reflexivity|].
    destruct (rebuild_cases a w1)
      as [(s0 & s1 & sp & lr & lc & R & C & Hp & E) | (e & o & E & Hm)].
    + left. now exists s0, s1, sp, lr, lc, R, C.
    + right. exists e, o. split; [exact E|].
      destruct Hh as (Hs & _). now rewrite <- Hs.
  - left. now exists e.
Qed.

(** A build that raises does so in one of its own steps. *)
Lemma rebuild_raise_origin (a : load_args) (w w' : World) (e : exn) :
  rebuild a w = (Raise e, w') -> build_failure a e.
Proof.
  intros H. rewrite rebuild_eq in H. unfold build_failure.
  destruct (shape_of (array a)) as [shape|e0] eqn:Hs.
  2:{ inversion H; subst. now left. }
  right. exists shape. split; [reflexivity|].
  destruct shape as [|s0 [|s1 [|s2 shape]]];
    try (inversion H; subst; left; split; [discriminate | reflexivity]).
  cbn zeta in H.
  destruct (normalize_cell_spacing (cells_spacing a)) as [sp|e0] eqn:Hsp.
  2:{ inversion H; subst. right. now left. }
  right. right.
  destruct (sub_1 s0) as [lr|e0] eqn:Hlr.
  2:{ inversion H; subst. exists s0. split; [now left | now left]. }
  destruct (sub_1 s1) as [lc|e0] eqn:Hlc.
  2:{ inversion H; subst. exists s1. split; [right; now left | now left]. }
  destruct (range s0) as [rows|e0] eqn:H0.
  2:{ inversion H; subst. exists s0. split; [now left | now right]. }
  rewrite (range_iota _ _ H0) in H.
  destruct (List.length rows) as [|R']; [discriminate|].
  destruct (range s1) as [cols|e0] eqn:H1.
  - assert (HC : S R' = O \/ range s1 = Ok (iota 0 (List.length cols))).
    { right. rewrite H1. f_equal. now apply (range_iota s1). }
    now rewrite (build_loop_run a s0 s1 sp lr lc (S R') _ _ HC) in H.
  - rewrite iota_S in H.
    erewrite for_each_raise in H
      by (apply (build_row_stops _ _ _ s0 s1); [reflexivity | exact H1]).
    inversion H; subst. exists s1. split; [right; now left | now right].
Qed.

(** X5. While the calls into the toolkit return, [load_cells] raises
    only in a step of its own, the destruction loops or one of the steps
    of the build that come before the first frame ([tuple(array)], the
    test of the shape, the spacing normaliser, a subtraction, a [range]),
    and then it has created no frame and placed none: the only toolkit
    calls it made are [destroy] calls on cells of the matrix, and the
    matrix it leaves is the one it found, or the empty list, or a single
    empty row. *)
Theorem failed_load_builds_nothing :
  forall (a : load_args) (w : World) (e : exn),
    outcome (load_cells a) w = Raise e ->
    (outcome destroy_all_cells w = Raise e \/ build_failure a e)
    /\ next_widget (after (load_cells a) w) = next_widget w
    /\ (exists ds,
          calls (after (load_cells a) w) = calls w ++ ds
          /\ forallb (destroys_within (cells_of w)) ds = true)
    /\ (_cells_matrix (self (after (load_cells a) w))
        = _cells_matrix (self w)
        \/ _cells_matrix (self (after (load_cells a) w)) = []
        \/ _cells_matrix (self (after (load_cells a) w)) = [[]]).
Proof.
  intros a w e H. unfold outcome in H |- *. unfold after.
  destruct (load_cells_cases a w) as (w1 & (Hs & Hn & Hc) & Hcase).
  destruct Hcase as [(e' & Hd & E)
                    | [Hd [(s0 & s1 & sp & lr & lc & R & C & _ & E)
                          | (e' & o & E & Hm)]]].
  - rewrite E in *. cbn [fst snd] in *. inversion H; subst e'.
    split; [left; now rewrite Hd|].
    split; [exact Hn|]. split; [exact Hc|]. left. now rewrite Hs.
  - rewrite E in H. discriminate.
  - pose proof E as E'. rewrite load_cells_eq, Hd in E'.
    apply rebuild_raise_origin in E'.
    rewrite E in *. cbn [fst snd] in *. inversion H; subst e'.
    split; [right; exact E'|].
    split; [exact Hn|]. split; [exact Hc|]. exact Hm.
Qed.

Lemma failed_load_builds_nothing_witness :
  outcome (load_cells one_two_three) (after (load_cells two_by_two) new_world)
  = Raise (Raised ValueError invalid_shape_message)
  /\ (outcome destroy_all_cells (after (load_cells two_by_two) new_world)
      = Raise (Raised ValueError invalid_shape_message)
      \/ build_failure one_two_three
           (Raised ValueError invalid_shape_message))
  /\ next_widget (after (load_cells one_two_three)
                   (after (load_cells two_by_two) new_world))
     = next_widget (after (load_cells two_by_two) new_world)
  /\ (exists ds,
        calls (after (load_cells one_two_three)
                 (after (load_cells two_by_two) new_world))
        = calls (after (load_cells two_by_two) new_world) ++ ds
        /\ forallb (destroys_within
                      (cells_of (after (load_cells two_by_two) new_world)))
             ds = true)
  /\ (_cells_matrix (self (after (load_cells one_two_three)
                             (after (load_cells two_by_two) new_world)))
      = _cells_matrix (self (after (load_cells two_by_two) new_world))
      \/ _cells_matrix (self (after (load_cells one_two_three)
                                (after (load_cells two_by_two) new_world)))
         = []
      \/ _cells_matrix (self (after (load_cells one_two_three)
                                (after (load_cells two_by_two) new_world)))
         = [[]]).
Proof.
  assert (H : outcome (load_cells one_two_three)
                (after (load_cells two_by_two) new_world)
              = Raise (Raised ValueError invalid_shape_message))
    by (vm_compute; reflexivity).
  split; [exact H|].
  exact (failed_load_builds_nothing one_two_three _ _ H).
Defined.

(** ** The invariant of the container *)

Lemma destroyed_add (w w' : World) (cs : list tk_call) (cell : widget) :
  calls w' = calls w ++ cs ->
  destroyed w' cell = destroyed w cell || existsb (destroys cell) cs.
Proof.
  intros H. unfold destroyed. rewrite H. apply existsb_app.
Qed.

Lemma destroys_none (cs : list tk_call) (cell : widget) :
  existsb is_destroy cs = false -> existsb (destroys cell) cs = false.
Proof.
  induction cs as [|c cs IH]; [reflexivity|]. cbn [existsb].
  intros H. apply orb_false_iff in H. destruct H as [H1 H2].
  rewrite (IH H2). destruct c; try reflexivity. discriminate.
Qed.

Lemma destroys_within_In (cells : list widget) (cs : list tk_call)
    (cell : widget) :
  forallb (destroys_within cells) cs = true ->
  existsb (destroys cell) cs = true -> In cell cells.
Proof.
  intros F E. apply existsb_exists in E. destruct E as (c & Hc & Hd).
  rewrite forallb_forall in F. specialize (F c Hc).
  destruct c as [| |x]; try discriminate. cbn in F, Hd.
  apply Nat.eqb_eq in Hd. subst x.
  apply existsb_exists in F. destruct F as (y & Hy & E).
  apply Nat.eqb_eq in E. now subst y.
Qed.

Lemma destroys_within_destroy (cells : list widget) (cs : list tk_call) :
  forallb (destroys_within cells) cs = true -> forallb is_destroy cs = true.
Proof.
  intros F. apply forallb_forall. intros c Hc.
  rewrite forallb_forall in F. specialize (F c Hc). now destruct c.
Qed.

Lemma destroys_map (l : list widget) (cell : widget) :
  In cell l -> existsb (destroys cell) (map Destroy l) = true.
Proof.
  intros H. apply existsb_exists. exists (Destroy cell).
  split; [now apply in_map | apply Nat.eqb_refl].
Qed.

Lemma alive_iff (w : World) (cell : widget) :
  alive w cell = true
  <-> In cell (created (calls w)) /\ destroyed w cell = false.
Proof.
  unfold alive. rewrite andb_true_iff, negb_true_iff, existsb_exists.
  split.
  - intros [(x & Hx & E) D]. apply Nat.eqb_eq in E. subst x. now split.
  - intros [H D]. split; [|exact D]. exists cell.
    split; [exact H | apply Nat.eqb_refl].
Qed.

Lemma tidy_held (w : World) (cell : widget) :
  tidy w -> In cell (cells_of w) -> (cell < next_widget w)%nat.
Proof.
  intros (T1 & T2 & T3 & [(_ & _ & F) | Sp]) Hin.
  - apply F, alive_iff in Hin. destruct Hin as [Hin _].
    rewrite T1 in Hin. apply in_seq in Hin. lia.
  - apply T2. now apply Sp.
Qed.

Lemma tidy_new (margin padding : PyVal) (w : World) :
  init margin padding = Ok w -> tidy w.
Proof.
  intros Hi. apply init_inv in Hi.
  destruct Hi as (om & ip & _ & _ & _ & _ & Hm & Hc & Hn).
  unfold tidy, fresh, alive, destroyed, cells_of, shape_matches.
  rewrite Hm, Hc, Hn. cbn.
  split; [reflexivity|]. split; [discriminate|]. split; [discriminate|].
  left. split; [reflexivity|]. split; [constructor | intros _ []].
Qed.

(** One [load_cells] call on a tidy container: the container stays tidy,
    every cell the matrix held is destroyed, and the matrix left is fresh
    if the call returned, while no frame is left alive if it raised. *)
Lemma load_cells_tidy (a : load_args) (w : World) :
  tidy w ->
  tidy (after (load_cells a) w)
  /\ (forall cell,
        In cell (cells_of w) ->
        destroyed (after (load_cells a) w) cell = true)
  /\ match outcome (load_cells a) w with
     | Ok _ => fresh (after (load_cells a) w)
     | Raise _ => forall cell, alive (after (load_cells a) w) cell = false
     end.
Proof.
  intros T. pose proof (tidy_held w) as Hheld.
  destruct T as (T1 & T2 & T3 & T4).
  assert (Hlt : forall cell, In cell (cells_of w) ->
                             (cell < next_widget w)%nat).
  { intros cell Hin. apply Hheld; [|exact Hin]. now repeat split. }
  clear Hheld.
  destruct (load_cells_cases a w) as (w1 & (Hs & Hn & ds & Hc & Hf) & Hcase).
  assert (Hw1 : snd (destroy_all_cells w) = w1).
  { destruct Hcase as [(e & E & _) | [E _]]; now rewrite E. }
  assert (A1 : created (calls w1) = seq 0 (next_widget w)).
  { rewrite Hc, created_app, (created_destroys ds), app_nil_r; [exact T1|].
    now apply (destroys_within_destroy (cells_of w)). }
  assert (A2 : forall cell, destroyed w1 cell = true ->
                            (cell < next_widget w)%nat).
  { intros cell D. rewrite (destroyed_add w w1 ds cell Hc) in D.
    apply orb_true_iff in D. destruct D as [D | D]; [now apply T2|].
    apply Hlt. now apply (destroys_within_In _ ds). }
  assert (A3 : forall cell, In cell (cells_of w) ->
                            destroyed w1 cell = true).
  { intros cell Hin. destruct T4 as [(Hm & _) | Sp].
    - assert (Hc' : calls w1 = calls w ++ map Destroy (cells_of w))
        by (rewrite <- Hw1, (destroy_all_cells_run w Hm); reflexivity).
      rewrite (destroyed_add w w1 _ cell Hc').
      apply orb_true_iff. right. now apply destroys_map.
    - rewrite (destroyed_add w w1 ds cell Hc), (Sp cell Hin).
      reflexivity. }
  assert (A4 : forall cell, alive w1 cell = false).
  { intros cell. destruct (alive w1 cell) eqn:E; [|reflexivity].
    apply alive_iff in E. destruct E as [Hin D].
    rewrite A1, <- T1 in Hin.
    assert (D0 : destroyed w cell = false).
    { rewrite (destroyed_add w w1 ds cell Hc) in D.
      now apply orb_false_iff in D. }
    assert (Hal : alive w cell = true) by now apply alive_iff.
    apply T3, A3 in Hal. congruence. }
  assert (Hcells : cells_of w1 = cells_of w)
    by (unfold cells_of; now rewrite Hs).
  unfold outcome, after.
  destruct Hcase as [(e & _ & E)
                    | [_ [(s0 & s1 & sp & lr & lc & R & C & Hp & E)
                         | (e & o & E & Hm)]]];
    rewrite E; cbn [fst snd].
  - (* the destruction raised *)
    split; [|split; [exact A3 | exact A4]].
    split; [now rewrite Hn|]. split; [now rewrite Hn|].
    split; [intros cell Hal; now rewrite A4 in Hal|].
    right. intros cell Hin. rewrite Hcells in Hin. now apply A3.
  - (* the build ran to its end *)
    set (w' := built a s0 s1 sp lr lc R C w1).
    set (n := next_widget w) in *.
    assert (Hcs : calls w'
                  = calls w1 ++ build_calls (style_args a) sp lr lc
                                  (next_widget w1) 0 C R) by reflexivity.
    assert (Hnx : next_widget w' = (n + R * C)%nat)
      by (unfold w', built; cbn [next_widget mk_world]; now rewrite Hn).
    assert (Hcl : cells_of w' = seq n (R * C)).
    { unfold w', built, cells_of. cbn [self mk_world _cells_matrix].
      unfold set_cells_matrix. cbn [_cells_matrix].
      now rewrite fresh_rows_concat, Hn. }
    assert (Hd : forall cell, destroyed w' cell = destroyed w1 cell).
    { intros cell. rewrite (destroyed_add w1 w' _ cell Hcs).
      rewrite destroys_none; [apply orb_false_r|].
      apply no_destroy_build_calls. }
    assert (Hcr : created (calls w') = seq 0 (n + R * C)).
    { rewrite Hcs, created_app, A1, created_build_calls, Hn.
      symmetry. apply seq_app. }
    assert (Hfr : forall cell, In cell (cells_of w') ->
                               alive w' cell = true).
    { intros cell Hin. rewrite Hcl in Hin. apply in_seq in Hin.
      apply alive_iff. split; [rewrite Hcr; apply in_seq; lia|].
      rewrite Hd. destruct (destroyed w1 cell) eqn:D; [|reflexivity].
      apply A2 in D. fold n in D. lia. }
    assert (Hfresh : fresh w').
    { split; [now apply shape_matches_built|].
      split; [rewrite Hcl; apply seq_NoDup | exact Hfr]. }
    split; [|split; [|exact Hfresh]].
    + split; [now rewrite Hnx|].
      split.
      { intros cell D. rewrite Hd in D. apply A2 in D. fold n in D.
        rewrite Hnx. lia. }
      split; [|now left].
      intros cell Hal. apply alive_iff in Hal. destruct Hal as [Hin D].
      rewrite Hcr in Hin. apply in_seq in Hin. rewrite Hd in D.
      rewrite Hcl. apply in_seq.
      destruct (Nat.lt_ge_cases cell n) as [Hlo | Hhi]; [|lia].
      exfalso.
      assert (Hal : alive w1 cell = true).
      { apply alive_iff. split; [rewrite A1; apply in_seq; lia | exact D]. }
      now rewrite A4 in Hal.
    + intros cell Hin. rewrite Hd. now apply A3.
  - (* the build raised *)
    set (w' := mk_world o (next_widget w1) (calls w1)).
    assert (Hd : forall cell, destroyed w' cell = destroyed w1 cell)
      by reflexivity.
    assert (Hal : forall cell, alive w' cell = alive w1 cell)
      by reflexivity.
    split; [|split].
    + split; [unfold w'; cbn [calls next_widget mk_world]; now rewrite Hn|].
      split.
      { intros cell D. rewrite Hd in D. apply A2 in D.
        unfold w'. cbn [next_widget mk_world]. now rewrite Hn. }
      split; [intros cell H; now rewrite Hal, A4 in H|].
      right. intros cell Hin. rewrite Hd.
      unfold cells_of, w' in Hin. cbn [self mk_world] in Hin.
      destruct Hm as [Hm | [Hm | Hm]]; rewrite Hm in Hin;
        [now apply A3 | destruct Hin | destruct Hin].
    + intros cell Hin. rewrite Hd. now apply A3.
    + intros cell. now rewrite Hal.
Qed.

Lemma reachable_tidy (w : World) : reachable w -> tidy w.
Proof.
  induction 1 as [margin padding w Hi | a w _ IH].
  - now apply (tidy_new margin padding).
  - now apply load_cells_tidy.
Qed.

Lemma sound_reachable (w : World) : sound w -> reachable w.
Proof.
  induction 1 as [margin padding w Hi | a w w' _ IH E].
  - now apply (reachable_new margin padding).
  - replace w' with (after (load_cells a) w)
      by (unfold after; now rewrite E).
    now apply reachable_load.
Qed.

Lemma sound_fresh (w : World) : sound w -> fresh w.
Proof.
  intros H. destruct H as [margin padding w Hi | a w w' Hs E].
  - destruct (tidy_new margin padding w Hi) as (_ & _ & _ & [F | Sp]);
      [exact F|].
    apply init_inv in Hi.
    destruct Hi as (om & ip & _ & _ & _ & _ & Hm & _).
    unfold fresh, shape_matches, cells_of. rewrite Hm. cbn.
    split; [reflexivity|]. split; [constructor | intros _ []].
  - pose proof (load_cells_tidy a w (reachable_tidy w (sound_reachable w Hs)))
      as (_ & _ & H).
    unfold outcome, after in H. now rewrite E in H.
Qed.

(** X6. While the calls into the toolkit return, whatever calls of
    [load_cells] a container has gone through, returned or raised in a
    step of their own, no frame is lost: the handles created so far are
    all different, and every frame that was created and not destroyed is
    in the matrix [get_cells_grid] returns. *)
Theorem live_cells_are_held :
  forall (w : World),
    reachable w ->
    created (calls w) = seq 0 (next_widget w)
    /\ NoDup (created (calls w))
    /\ forall cell m,
         alive w cell = true ->
         outcome get_cells_grid w = Ok m ->
         In cell (List.concat m).
Proof.
  intros w H. apply reachable_tidy in H. destruct H as (T1 & _ & T3 & _).
  split; [exact T1|]. split; [rewrite T1; apply seq_NoDup|].
  intros cell m Hal Hm. inversion Hm; subst. now apply T3.
Qed.

Lemma live_cells_are_held_witness :
  reachable (after (load_cells one_two_three)
               (after (load_cells two_by_two) new_world))
  /\ created (calls (after (load_cells one_two_three)
                       (after (load_cells two_by_two) new_world)))
     = seq 0 (next_widget (after (load_cells one_two_three)
                             (after (load_cells two_by_two) new_world)))
  /\ NoDup (created (calls (after (load_cells one_two_three)
                              (after (load_cells two_by_two) new_world))))
  /\ forall cell m,
       alive (after (load_cells one_two_three)
                (after (load_cells two_by_two) new_world)) cell = true ->
       outcome get_cells_grid
         (after (load_cells one_two_three)
            (after (load_cells two_by_two) new_world)) = Ok m ->
       In cell (List.concat m).
Proof.
  assert (H : reachable (after (load_cells one_two_three)
                           (after (load_cells two_by_two) new_world))).
  { apply reachable_load, reachable_load.
    exact (reachable_new (VInt 0) (VInt 0) new_world eq_refl). }
  split; [exact H|].
  exact (live_cells_are_held _ H).
Defined.

(** X7. In a new container and after every [load_cells] that returned
    (none having raised), the matrix holds each cell once, and its cells
    are exactly the live frames. *)
Theorem sound_cells_are_the_live_ones :
  forall (w : World),
    sound w ->
    NoDup (cells_of w)
    /\ forall cell, In cell (cells_of w) <-> alive w cell = true.
Proof.
  intros w H. pose proof (sound_fresh w H) as (_ & Hn & Hf).
  apply sound_reachable, reachable_tidy in H.
  destruct H as (_ & _ & T3 & _).
  split; [exact Hn|]. intros cell. split; [apply Hf | apply T3].
Qed.

Lemma sound_cells_are_the_live_ones_witness :
  sound (after (load_cells one_by_three)
           (after (load_cells two_by_two) new_world))
  /\ NoDup (cells_of (after (load_cells one_by_three)
                        (after (load_cells two_by_two) new_world)))
  /\ forall cell,
       In cell (cells_of (after (load_cells one_by_three)
                            (after (load_cells two_by_two) new_world)))
       <-> alive (after (load_cells one_by_three)
                    (after (load_cells two_by_two) new_world)) cell = true.
Proof.
  assert (E1 : load_cells two_by_two new_world
               = (Ok tt, after (load_cells two_by_two) new_world))
    by (vm_compute; reflexivity).
  assert (E2 : load_cells one_by_three
                 (after (load_cells two_by_two) new_world)
               = (Ok tt, after (load_cells one_by_three)
                           (after (load_cells two_by_two) new_world)))
    by (vm_compute; reflexivity).
  assert (H : sound (after (load_cells one_by_three)
                       (after (load_cells two_by_two) new_world))).
  { apply (sound_load _ _ _ (sound_load _ _ _
             (sound_new (VInt 0) (VInt 0) new_world eq_refl) E1) E2). }
  split; [exact H|].
  exact (sound_cells_are_the_live_ones _ H).
Defined.

(** X8. While the calls into the toolkit return, a [load_cells] that
    raises, which it then does in a step of its own, leaves the container
    without a single live frame: every frame it ever created has been
    destroyed, also when [get_cells_grid] still returns their handles. *)
Theorem failed_load_leaves_no_cell :
  forall (a : load_args) (w : World) (e : exn),
    reachable w ->
    outcome (load_cells a) w = Raise e ->
    forall cell, alive (after (load_cells a) w) cell = false.
Proof.
  intros a w e H E.
  pose proof (load_cells_tidy a w (reachable_tidy w H)) as (_ & _ & Hc).
  now rewrite E in Hc.
Qed.

Lemma failed_load_leaves_no_cell_witness :
  (reachable (after (load_cells two_by_two) new_world)
   /\ outcome (load_cells (with_spacing (VStr "wide") one_by_three))
        (after (load_cells two_by_two) new_world)
      = Raise (Raised TypeError
                 (cell_invalid_type_message (VStr "wide"))))
  /\ forall cell,
       alive (after (load_cells (with_spacing (VStr "wide") one_by_three))
                (after (load_cells two_by_two) new_world)) cell = false.
Proof.
  assert (H : reachable (after (load_cells two_by_two) new_world)).
  { apply reachable_load.
    exact (reachable_new (VInt 0) (VInt 0) new_world eq_refl). }
  assert (E : outcome (load_cells (with_spacing (VStr "wide") one_by_three))
                (after (load_cells two_by_two) new_world)
              = Raise (Raised TypeError
                         (cell_invalid_type_message (VStr "wide"))))
    by (vm_compute; reflexivity).
  split; [exact (conj H E)|].
  exact (failed_load_leaves_no_cell _ _ _ H E).
Defined.

(** X9. Whatever its arguments and its outcome, [load_cells] leaves
    every cell destroyed that the matrix held when it was called. *)
Theorem load_cells_destroys_what_was_held :
  forall (a : load_args) (w : World) (cell : widget),
    reachable w ->
    In cell (cells_of w) ->
    destroyed (after (load_cells a) w) cell = true.
Proof.
  intros a w cell H Hin.
  pose proof (load_cells_tidy a w (reachable_tidy w H)) as (_ & Hd & _).
  now apply Hd.
Qed.

Lemma load_cells_destroys_what_was_held_witness :
  (reachable (after (load_cells two_by_two) new_world)
   /\ In 3%nat (cells_of (after (load_cells two_by_two) new_world)))
  /\ destroyed
       (after (load_cells (with_array (VFloat f_half) default_args))
          (after (load_cells two_by_two) new_world)) 3%nat = true.
Proof.
  assert (H : reachable (after (load_cells two_by_two) new_world)).
  { apply reachable_load.
    exact (reachable_new (VInt 0) (VInt 0) new_world eq_refl). }
  assert (Hin : In 3%nat (cells_of (after (load_cells two_by_two) new_world)))
    by (vm_compute; tauto).
  split; [exact (conj H Hin)|].
  exact (load_cells_destroys_what_was_held _ _ _ H Hin).
Defined.

(** ** A destruction that raises *)

Lemma reads_pure {A} (m : M A) :
  (forall w, snd (m w) = w) ->
  (forall w w', self w' = self w -> fst (m w') = fst (m w)) ->
  reads_object m.
Proof. intros Hs Hf w. rewrite Hs. split; [reflexivity | apply Hf]. Qed.

Lemma reads_bind {A B} (m : M A) (k : A -> M B) :
  reads_object m -> (forall a, reads_object (k a)) ->
  reads_object (bind m k).
Proof.
  intros Hm Hk w. unfold bind.
  destruct (Hm w) as [Hs Hf].
  destruct (m w) as [[a|e] w1] eqn:E; cbn [fst snd] in *.
  - destruct (Hk a w1) as [Hs1 Hf1]. split; [congruence|].
    intros w' Hw'. specialize (Hf w' Hw').
    destruct (Hm w') as [Hs' _].
    destruct (m w') as [[a'|e'] w1'] eqn:E'; cbn [fst snd] in *;
      [|discriminate].
    inversion Hf; subst a'. apply Hf1. congruence.
  - split; [exact Hs|]. intros w' Hw'. specialize (Hf w' Hw').
    destruct (m w') as [[a'|e'] w1'] eqn:E'; cbn [fst snd] in *;
      [discriminate | now inversion Hf].
Qed.

Lemma reads_for_each {A} (l : list A) (body : A -> M unit) :
  (forall x, reads_object (body x)) -> reads_object (for_each l body).
Proof.
  intros Hb. induction l as [|x l IH]; cbn [for_each].
  - now apply reads_pure.
  - apply reads_bind; auto.
Qed.

Lemma reads_lift {A} (r : result A) : reads_object (lift r).
Proof. now apply reads_pure. Qed.

Lemma reads_attr {A} (f : CellsGrid -> option A) : reads_object (attr f).
Proof.
  apply reads_pure.
  - intros w. unfold attr. now destruct (f (self w)).
  - intros w w' H. unfold attr. rewrite H. now destruct (f (self w)).
Qed.

Lemma reads_get_cells_grid : reads_object get_cells_grid.
Proof.
  apply reads_pure; [reflexivity|].
  intros w w' H. unfold get_cells_grid. cbn [fst]. now rewrite H.
Qed.

Lemma reads_shape_at (i : Z) : reads_object (shape_at i).
Proof.
  apply reads_bind; [apply reads_attr | intros s; apply reads_lift].
Qed.

Lemma reads_tk (c : tk_call) : reads_object (tk c).
Proof. intros w. split; [reflexivity | now intros w' _]. Qed.

Lemma destroy_reads_object : reads_object destroy_all_cells.
Proof.
  unfold destroy_all_cells.
  apply reads_bind; [apply reads_get_cells_grid | intros m].
  destruct m as [|r m]; [now apply reads_pure|].
  apply reads_bind; [apply reads_shape_at | intros s0].
  apply reads_bind; [apply reads_lift | intros rows].
  apply reads_for_each. intros row. unfold destroy_row.
  apply reads_bind; [apply reads_shape_at | intros s1].
  apply reads_bind; [apply reads_lift | intros cols].
  apply reads_for_each. intros col. unfold destroy_cell.
  apply reads_bind; [apply reads_get_cells_grid | intros m'].
  apply reads_bind; [apply reads_lift | intros r'].
  apply reads_bind; [apply reads_lift | intros cell].
  apply reads_tk.
Qed.

Lemma destroy_raise_load (a : load_args) (w : World) (e : exn) :
  outcome destroy_all_cells w = Raise e ->
  outcome (load_cells a) w = Raise e
  /\ self (after (load_cells a) w) = self w
  /\ outcome destroy_all_cells (after (load_cells a) w) = Raise e.
Proof.
  intros H. unfold outcome, after in *. rewrite load_cells_eq.
  destruct (destroy_reads_object w) as [Hs Hf].
  destruct (destroy_all_cells w) as [[[]|e'] w1]; cbn [fst snd] in *;
    [discriminate|].
  split; [exact H|]. split; [exact Hs|].
  rewrite <- H. now apply Hf.
Qed.

Lemma destroy_raise_outcomes (calls_made : list load_args) :
  forall (w : World) (e : exn),
    outcome destroy_all_cells w = Raise e ->
    Forall (fun r => r = Raise e) (outcomes calls_made w).
Proof.
  induction calls_made as [|a rest IH]; intros w e H; cbn [outcomes].
  - constructor.
  - destruct (destroy_raise_load a w e H) as (H1 & _ & H3).
    constructor; [exact H1 | now apply IH].
Qed.

(** X10. Once [__destroy_all_cells] raises, the container is of no more
    use: every later [load_cells], whatever its arguments, raises the
    same exception and leaves the object as it is. *)
Theorem destroy_failure_is_permanent :
  forall (w : World) (e : exn) (a : load_args) (later : list load_args),
    outcome destroy_all_cells w = Raise e ->
    outcome (load_cells a) w = Raise e
    /\ self (after (load_cells a) w) = self w
    /\ Forall (fun r => r = Raise e) (outcomes later (after (load_cells a) w)).
Proof.
  intros w e a later H.
  destruct (destroy_raise_load a w e H) as (H1 & H2 & H3).
  split; [exact H1|]. split; [exact H2|].
  now apply destroy_raise_outcomes.
Qed.

Lemma destroy_failure_is_permanent_witness :
  outcome destroy_all_cells
    (after (load_cells five_cubed) (after (load_cells two_by_two) new_world))
  = Raise (Builtin IndexError)
  /\ outcome (load_cells two_by_two)
       (after (load_cells five_cubed)
          (after (load_cells two_by_two) new_world))
     = Raise (Builtin IndexError)
  /\ self (after (load_cells two_by_two)
             (after (load_cells five_cubed)
                (after (load_cells two_by_two) new_world)))
     = self (after (load_cells five_cubed)
               (after (load_cells two_by_two) new_world))
  /\ Forall (fun r => r = Raise (Builtin IndexError))
       (outcomes [one_by_three; default_args]
          (after (load_cells two_by_two)
             (after (load_cells five_cubed)
                (after (load_cells two_by_two) new_world)))).
Proof.
  assert (H : outcome destroy_all_cells
                (after (load_cells five_cubed)
                   (after (load_cells two_by_two) new_world))
              = Raise (Builtin IndexError)) by (vm_compute; reflexivity).
  split; [exact H|].
  exact (destroy_failure_is_permanent _ _ two_by_two
           [one_by_three; default_args] H).
Defined.

(** ** The destruction on a matrix that [grid_shape] does not describe *)

Lemma for_each_app {A} (l1 l2 : list A) (body : A -> M unit) (w : World) :
  for_each (l1 ++ l2) body w
  = bind (for_each l1 body) (fun _ => for_each l2 body) w.
Proof.
  revert w. induction l1 as [|x l1 IH]; intros w; [reflexivity|].
  cbn [app for_each]. unfold bind.
  destruct (body x w) as [[[]|e] w1]; [now rewrite IH | reflexivity].
Qed.

Lemma iota_app (k n1 n2 : nat) :
  iota k (n1 + n2) = iota k n1 ++ iota (k + n1) n2.
Proof. unfold iota. now rewrite seq_app, map_app. Qed.

Lemma range_int (n : Z) : range (VInt n) = Ok (iota 0 (Z.to_nat n)).
Proof. reflexivity. Qed.

Lemma skipn_nth {A} (l : list A) (k : nat) (x : A) :
  nth_error l k = Some x -> skipn k l = x :: skipn (S k) l.
Proof.
  revert k. induction l as [|y l IH]; intros [|k] H; cbn in *;
    try discriminate.
  - now inversion H.
  - now apply IH.
Qed.

(** The first [n] cells of a row from column [k] on. *)
Lemma destroy_cells_prefix (i : nat) (r : list widget) (n : nat) :
  forall (k : nat) (w : World),
    nth_error (_cells_matrix (self w)) i = Some r ->
    (k + n <= List.length r)%nat ->
    for_each (iota k n) (destroy_cell (Z.of_nat i)) w
    = (Ok tt, add_calls (map Destroy (firstn n (skipn k r))) w).
Proof.
  induction n as [|n IH]; intros k w Hr Hk.
  - cbn. now rewrite add_calls_nil.
  - rewrite iota_S. cbn [for_each].
    destruct (nth_error r k) as [c|] eqn:Hc.
    2:{ apply nth_error_None in Hc. lia. }
    rewrite (bind_ok _ _ _ _ _ (destroy_cell_run w i k r c Hr Hc)).
    rewrite IH by (rewrite ?self_add_calls; trivial; lia).
    rewrite add_calls_app, (skipn_nth r k c Hc). reflexivity.
Qed.

Lemma destroy_cell_beyond_row (w : World) (i k : nat) (r : list widget) :
  nth_error (_cells_matrix (self w)) i = Some r ->
  (List.length r <= k)%nat ->
  fst (destroy_cell (Z.of_nat i) (Z.of_nat k) w) = Raise (Builtin IndexError).
Proof.
  intros Hr Hk. unfold destroy_cell, bind, get_cells_grid, lift.
  now rewrite (getitem_nat _ _ _ Hr), (getitem_beyond r k Hk).
Qed.

Lemma destroy_cell_beyond_matrix (w : World) (i : nat) (col : Z) :
  (List.length (_cells_matrix (self w)) <= i)%nat ->
  fst (destroy_cell (Z.of_nat i) col w) = Raise (Builtin IndexError).
Proof.
  intros Hi. unfold destroy_cell, bind, get_cells_grid, lift.
  now rewrite (getitem_beyond _ i Hi).
Qed.

Section Destruction.

Variables (w : World) (r c : Z) (rest : list PyVal).
Hypothesis shape : grid_shape (self w) = Some (VInt r :: VInt c :: rest).

Lemma shape_rows (cs : list tk_call) :
  shape_at 0 (add_calls cs w) = (Ok (VInt r), add_calls cs w).
Proof.
  apply (shape_at_run _ (VInt r :: VInt c :: rest) 0);
    [now rewrite self_add_calls | reflexivity].
Qed.

Lemma shape_columns (cs : list tk_call) :
  shape_at 1 (add_calls cs w) = (Ok (VInt c), add_calls cs w).
Proof.
  apply (shape_at_run _ (VInt r :: VInt c :: rest) 1);
    [now rewrite self_add_calls | reflexivity].
Qed.

Lemma destroy_row_eq (row : Z) (cs : list tk_call) :
  destroy_row row (add_calls cs w)
  = for_each (iota 0 (Z.to_nat c)) (destroy_cell row) (add_calls cs w).
Proof.
  unfold destroy_row. rewrite (bind_ok _ _ _ _ _ (shape_columns cs)).
  unfold bind at 1, lift. now rewrite range_int.
Qed.

(** A row within the matrix, no wider than the column count. *)
Lemma destroy_row_prefix (i : nat) (row : list widget)
    (cs : list tk_call) :
  nth_error (_cells_matrix (self w)) i = Some row ->
  (Z.to_nat c <= List.length row)%nat ->
  destroy_row (Z.of_nat i) (add_calls cs w)
  = (Ok tt,
     add_calls (cs ++ map Destroy (firstn (Z.to_nat c) row)) w).
Proof.
  intros Hr Hc. rewrite destroy_row_eq.
  rewrite (destroy_cells_prefix i row)
    by (rewrite ?self_add_calls; trivial; lia).
  now rewrite add_calls_app.
Qed.

(** A row shorter than the column count. *)
Lemma destroy_row_short (i : nat) (row : list widget) (cs : list tk_call) :
  nth_error (_cells_matrix (self w)) i = Some row ->
  (List.length row < Z.to_nat c)%nat ->
  fst (destroy_row (Z.of_nat i) (add_calls cs w))
  = Raise (Builtin IndexError).
Proof.
  intros Hr Hc. rewrite destroy_row_eq.
  replace (Z.to_nat c)
    with (List.length row + S (Z.to_nat c - S (List.length row)))%nat
    by lia.
  rewrite iota_app, for_each_app.
  rewrite (bind_ok _ _ _ _ _
             (destroy_cells_prefix i row (List.length row) 0
                (add_calls cs w)
                ltac:(now rewrite self_add_calls) ltac:(lia))).
  rewrite iota_S, for_each_cons. apply bind_fst_raise.
  apply (destroy_cell_beyond_row _ i _ row);
    [now rewrite !self_add_calls | lia].
Qed.

(** A row beyond the matrix, with at least one column to visit. *)
Lemma destroy_row_beyond (i : nat) (cs : list tk_call) :
  (List.length (_cells_matrix (self w)) <= i)%nat ->
  (0 < Z.to_nat c)%nat ->
  fst (destroy_row (Z.of_nat i) (add_calls cs w))
  = Raise (Builtin IndexError).
Proof.
  intros Hi Hc. rewrite destroy_row_eq.
  destruct (Z.to_nat c) as [|c']; [lia|].
  rewrite iota_S, for_each_cons. apply bind_fst_raise.
  apply destroy_cell_beyond_matrix. now rewrite self_add_calls.
Qed.

(** No column to visit: the rows are not even looked up. *)
Lemma destroy_rows_no_column (l : list Z) :
  Z.to_nat c = O -> for_each l destroy_row w = (Ok tt, w).
Proof.
  intros Hc. induction l as [|row l IH]; [reflexivity|].
  rewrite for_each_cons.
  pose proof (destroy_row_eq row []) as E. rewrite add_calls_nil in E.
  rewrite Hc in E. cbn [iota seq map for_each] in E.
  now rewrite (bind_ok _ _ _ _ _ E).
Qed.

Lemma destroy_rows_prefix (C n : nat) :
  forall (k : nat) (cs : list tk_call),
    Forall (fun row => List.length row = C) (_cells_matrix (self w)) ->
    (Z.to_nat c <= C)%nat ->
    (k + n <= List.length (_cells_matrix (self w)))%nat ->
    for_each (iota k n) destroy_row (add_calls cs w)
    = (Ok tt,
       add_calls
         (cs ++ map Destroy
                  (block n (Z.to_nat c) (skipn k (_cells_matrix (self w)))))
         w).
Proof.
  induction n as [|n IH]; intros k cs Hall Hc Hk.
  - cbn. now rewrite app_nil_r.
  - rewrite iota_S, for_each_cons.
    destruct (nth_error (_cells_matrix (self w)) k) as [row|] eqn:Hr.
    2:{ apply nth_error_None in Hr. lia. }
    assert (Hlen : List.length row = C).
    { rewrite Forall_forall in Hall. apply Hall.
      eapply nth_error_In; eauto. }
    rewrite (bind_ok _ _ _ _ _
               (destroy_row_prefix k row cs Hr ltac:(lia))).
    rewrite IH by (trivial; lia).
    rewrite (skipn_nth _ k row Hr). unfold block.
    cbn [firstn map List.concat].
    now rewrite map_app, app_assoc.
Qed.

End Destruction.

Lemma block_no_column (R : nat) (m : list (list widget)) : block R 0 m = [].
Proof.
  unfold block. revert m. induction R as [|R IH]; intros [|row m];
    cbn; auto.
Qed.

Lemma destroy_all_cells_block (w : World) (R C : nat) (r c : Z)
    (rest : list PyVal) :
  rectangular (_cells_matrix (self w)) R C ->
  _cells_matrix (self w) <> [] ->
  grid_shape (self w) = Some (VInt r :: VInt c :: rest) ->
  if (r <=? 0) || (c <=? 0) || ((r <=? Z.of_nat R) && (c <=? Z.of_nat C))
  then
    destroy_all_cells w
    = (Ok tt,
       add_calls
         (map Destroy
            (block (Z.to_nat r) (Z.to_nat c) (_cells_matrix (self w)))) w)
  else outcome destroy_all_cells w = Raise (Builtin IndexError).
Proof.
  intros [HR HC] Hne Hs.
  assert (Hrun : forall res,
             for_each (iota 0 (Z.to_nat r)) destroy_row w = res ->
             destroy_all_cells w = res).
  { intros res <-. unfold destroy_all_cells, bind at 1, get_cells_grid.
    destruct (_cells_matrix (self w)) as [|row0 m] eqn:Hm;
      [congruence|].
    pose proof (shape_rows w r c rest Hs []) as E.
    rewrite add_calls_nil in E.
    rewrite (bind_ok _ _ _ _ _ E). unfold bind at 1, lift.
    now rewrite range_int. }
  assert (HR1 : (0 < R)%nat).
  { destruct (_cells_matrix (self w)); [congruence | cbn in HR; lia]. }
  destruct (Z.leb_spec r 0) as [Hr0 | Hr0]; cbn [orb].
  { apply Hrun. replace (Z.to_nat r) with O by lia. cbn.
    now rewrite add_calls_nil. }
  destruct (Z.leb_spec c 0) as [Hc0 | Hc0]; cbn [orb].
  { apply Hrun. replace (Z.to_nat c) with O by lia.
    rewrite block_no_column. cbn [map]. rewrite add_calls_nil.
    apply (destroy_rows_no_column w r c rest Hs). lia. }
  destruct (Z.leb_spec c (Z.of_nat C)) as [HcC | HcC].
  - destruct (Z.leb_spec r (Z.of_nat R)) as [HrR | HrR]; cbn [andb].
    + apply Hrun.
      pose proof (destroy_rows_prefix w r c rest Hs C (Z.to_nat r) 0 []
                    HC ltac:(lia) ltac:(lia)) as E.
      rewrite add_calls_nil in E. exact E.
    + unfold outcome.
      rewrite (Hrun _ eq_refl).
      replace (Z.to_nat r) with (R + S (Z.to_nat r - S R))%nat by lia.
      rewrite iota_app, for_each_app.
      pose proof (destroy_rows_prefix w r c rest Hs C R 0 []
                    HC ltac:(lia) ltac:(lia)) as E.
      rewrite add_calls_nil in E.
      rewrite (bind_ok _ _ _ _ _ E).
      rewrite iota_S, for_each_cons. apply bind_fst_raise.
      apply (destroy_row_beyond w r c rest Hs); lia.
  - rewrite andb_false_r. unfold outcome. rewrite (Hrun _ eq_refl).
    destruct (Z.to_nat r) as [|r'] eqn:Er; [lia|].
    rewrite iota_S, for_each_cons. apply bind_fst_raise.
    destruct (_cells_matrix (self w)) as [|row0 m] eqn:Hm; [congruence|].
    pose proof (destroy_row_short w r c rest Hs 0 row0 []) as E.
    rewrite add_calls_nil in E. apply E.
    + now rewrite Hm.
    + inversion HC; subst. lia.
Qed.

(** X11. What [__destroy_all_cells] does on a matrix of [R] rows of [C]
    cells, [R] at least 1, when [grid_shape] starts with the ints [r] and
    [c]: it calls [destroy] on the first [c] cells of each of the first
    [r] rows and returns if one of the counts is not positive or both fit
    the matrix, and raises [IndexError] otherwise. *)
Theorem destroy_all_cells_by_shape :
  forall (w : World) (R C : nat) (r c : Z) (rest : list PyVal),
    rectangular (_cells_matrix (self w)) R C ->
    _cells_matrix (self w) <> [] ->
    grid_shape (self w) = Some (VInt r :: VInt c :: rest) ->
    (r <= 0 \/ c <= 0 \/ (r <= Z.of_nat R /\ c <= Z.of_nat C) ->
     destroy_all_cells w
     = (Ok tt,
        add_calls
          (map Destroy
             (block (Z.to_nat r) (Z.to_nat c) (_cells_matrix (self w))))
          w))
    /\ (0 < r -> 0 < c -> Z.of_nat R < r \/ Z.of_nat C < c ->
        outcome destroy_all_cells w = Raise (Builtin IndexError)).
Proof.
  intros w R C r c rest Hrect Hne Hs.
  pose proof (destroy_all_cells_block w R C r c rest Hrect Hne Hs) as H.
  destruct (Z.leb_spec r 0) as [Hr | Hr]; cbn [orb] in H.
  { split; [intros _; exact H | lia]. }
  destruct (Z.leb_spec c 0) as [Hc | Hc]; cbn [orb] in H.
  { split; [intros _; exact H | lia]. }
  destruct (Z.leb_spec r (Z.of_nat R)) as [HrR | HrR];
    destruct (Z.leb_spec c (Z.of_nat C)) as [HcC | HcC]; cbn [andb] in H.
  - split; [intros _; exact H | lia].
  - split; [lia | intros _ _ _; exact H].
  - split; [lia | intros _ _ _; exact H].
  - split; [lia | intros _ _ _; exact H].
Qed.

Lemma destroy_all_cells_by_shape_witness :
  (rectangular
     (_cells_matrix
        (self (after (load_cells five_cubed)
                 (after (load_cells two_by_two) new_world)))) 2 2
   /\ _cells_matrix
        (self (after (load_cells five_cubed)
                 (after (load_cells two_by_two) new_world))) <> []
   /\ grid_shape
        (self (after (load_cells five_cubed)
                 (after (load_cells two_by_two) new_world)))
      = Some [VInt 5; VInt 5; VInt 5])
  /\ outcome destroy_all_cells
       (after (load_cells five_cubed)
          (after (load_cells two_by_two) new_world))
     = Raise (Builtin IndexError).
Proof.
  assert (Hr : rectangular
                 (_cells_matrix
                    (self (after (load_cells five_cubed)
                             (after (load_cells two_by_two) new_world))))
                 2 2)
    by (vm_compute; split; [reflexivity | repeat constructor]).
  assert (Hn : _cells_matrix
                 (self (after (load_cells five_cubed)
                          (after (load_cells two_by_two) new_world)))
               <> []) by (vm_compute; discriminate).
  assert (Hs : grid_shape
                 (self (after (load_cells five_cubed)
                          (after (load_cells two_by_two) new_world)))
               = Some [VInt 5; VInt 5; VInt 5]) by (vm_compute; reflexivity).
  split; [exact (conj Hr (conj Hn Hs))|].
  exact (proj2 (destroy_all_cells_by_shape _ 2 2 5 5 [VInt 5] Hr Hn Hs)
           eq_refl eq_refl (or_introl eq_refl)).
Defined.

(** ** Counts that are not ints *)

Lemma shape_of_sequence (arr : PyVal) (items : list PyVal) :
  sequence_of arr items -> shape_of arr = Ok items.
Proof. now intros [-> | ->]. Qed.

Lemma float_columns_stop (a : load_args) (w : World) (r : Z)
    (f : spec_float) (sp : CellSpacing) :
  sequence_of (array a) [VInt r; VFloat f] ->
  0 < r ->
  normalize_cell_spacing (cells_spacing a) = Ok sp ->
  rebuild a w
  = (Raise (Builtin TypeError),
     mk_world
       (set_cells_matrix [[]]
          (restyled a (VInt r) (VFloat f) sp (VInt (r - 1))
             (VFloat (SFsub prec emax f f_one)) (self w)))
       (next_widget w) (calls w)).
Proof.
  intros Ha Hr Hsp. rewrite rebuild_eq, (shape_of_sequence _ _ Ha).
  cbv beta iota zeta. rewrite Hsp. cbn [sub_1]. rewrite range_int.
  destruct (Z.to_nat r) as [|R'] eqn:E; [lia|].
  rewrite iota_S. apply for_each_raise.
  now rewrite (build_row_stops _ _ _ (VInt r) (VFloat f)
                 (Builtin TypeError)).
Qed.

Lemma one_empty_row_stops (w : World) (r : Z) (f : spec_float)
    (rest : list PyVal) :
  _cells_matrix (self w) = [[]] ->
  grid_shape (self w) = Some (VInt r :: VFloat f :: rest) ->
  0 < r ->
  outcome destroy_all_cells w = Raise (Builtin TypeError).
Proof.
  intros Hm Hs Hr. unfold outcome, destroy_all_cells.
  unfold bind at 1, get_cells_grid. rewrite Hm.
  rewrite (bind_ok _ _ _ _ _
             (shape_at_run w _ 0 (VInt r) Hs eq_refl)).
  unfold bind at 1, lift. rewrite range_int.
  destruct (Z.to_nat r) as [|R'] eqn:E; [lia|].
  rewrite iota_S, for_each_cons. apply bind_fst_raise.
  unfold destroy_row.
  rewrite (bind_ok _ _ _ _ _
             (shape_at_run w _ 1 (VFloat f) Hs eq_refl)).
  reflexivity.
Qed.

(** X12. The column count is used as a number before it is used as a
    count: [load_cells] with one row or more and a float for the number
    of columns raises the [TypeError] of [range] with one empty row in
    the matrix, and from then on every [load_cells] on this container
    raises that [TypeError]. *)
Theorem float_column_count_breaks_container :
  forall (a : load_args) (w : World) (r : Z) (f : spec_float)
         (sp : CellSpacing) (later : list load_args),
    shape_matches w = true ->
    sequence_of (array a) [VInt r; VFloat f] ->
    0 < r ->
    normalize_cell_spacing (cells_spacing a) = Ok sp ->
    outcome (load_cells a) w = Raise (Builtin TypeError)
    /\ outcome get_cells_grid (after (load_cells a) w) = Ok [[]]
    /\ Forall (fun res => res = Raise (Builtin TypeError))
         (outcomes later (after (load_cells a) w)).
Proof.
  intros a w r f sp later Hm Ha Hr Hsp.
  assert (E : load_cells a w
              = (Raise (Builtin TypeError),
                 mk_world
                   (set_cells_matrix [[]]
                      (restyled a (VInt r) (VFloat f) sp (VInt (r - 1))
                         (VFloat (SFsub prec emax f f_one)) (self w)))
                   (next_widget w)
                   (calls w ++ map Destroy (cells_of w)))).
  { rewrite load_cells_eq, (destroy_all_cells_run w Hm).
    now rewrite (float_columns_stop a _ r f sp Ha Hr Hsp). }
  unfold outcome, after. rewrite E. cbn [fst snd].
  split; [reflexivity|]. split; [reflexivity|].
  apply destroy_raise_outcomes.
  now apply (one_empty_row_stops _ r f []).
Qed.

Lemma float_column_count_breaks_container_witness :
  (shape_matches new_world = true
   /\ sequence_of (array (with_array (VTuple [VInt 2; VFloat f_two])
                            default_args))
        [VInt 2; VFloat f_two]
   /\ 0 < 2
   /\ normalize_cell_spacing
        (cells_spacing (with_array (VTuple [VInt 2; VFloat f_two])
                          default_args))
      = Ok (f_five, f_five, f_five, f_five))
  /\ outcome (load_cells (with_array (VTuple [VInt 2; VFloat f_two])
                            default_args)) new_world
     = Raise (Builtin TypeError)
  /\ outcome get_cells_grid
       (after (load_cells (with_array (VTuple [VInt 2; VFloat f_two])
                             default_args)) new_world) = Ok [[]]
  /\ Forall (fun res => res = Raise (Builtin TypeError))
       (outcomes [two_by_two; default_args]
          (after (load_cells (with_array (VTuple [VInt 2; VFloat f_two])
                                default_args)) new_world)).
Proof.
  assert (Hm : shape_matches new_world = true) by reflexivity.
  assert (Ha : sequence_of
                 (array (with_array (VTuple [VInt 2; VFloat f_two])
                           default_args))
                 [VInt 2; VFloat f_two]) by (left; reflexivity).
  assert (Hr : 0 < 2) by lia.
  assert (Hsp : normalize_cell_spacing
                  (cells_spacing (with_array (VTuple [VInt 2; VFloat f_two])
                                    default_args))
                = Ok (f_five, f_five, f_five, f_five))
    by (vm_compute; reflexivity).
  split; [exact (conj Hm (conj Ha (conj Hr Hsp)))|].
  exact (float_column_count_breaks_container _ new_world 2 f_two _
           [two_by_two; default_args] Hm Ha Hr Hsp).
Defined.

Lemma sub_1_numeric (x : PyVal) :
  numeric x = true -> exists v, sub_1 x = Ok v.
Proof. destruct x; try discriminate; intros _; eexists; reflexivity. Qed.

(** X13. With no row to build the column count is never used as a
    count: on a container whose [grid_shape] describes its matrix, for a
    row count of zero or less and any number, a float included, for the
    columns, and a valid cell spacing, [load_cells] returns, creates no
    frame, calls [destroy] on the cells it found and leaves an empty
    matrix. *)
Theorem no_row_no_column_count :
  forall (a : load_args) (w : World) (r : Z) (x : PyVal)
         (sp : CellSpacing),
    shape_matches w = true ->
    sequence_of (array a) [VInt r; x] ->
    r <= 0 ->
    numeric x = true ->
    normalize_cell_spacing (cells_spacing a) = Ok sp ->
    outcome (load_cells a) w = Ok tt
    /\ outcome get_cells_grid (after (load_cells a) w) = Ok []
    /\ next_widget (after (load_cells a) w) = next_widget w
    /\ calls (after (load_cells a) w)
       = calls w ++ map Destroy (cells_of w).
Proof.
  intros a w r x sp Hm Ha Hr Hx Hsp.
  destruct (sub_1_numeric x Hx) as [lc Hlc].
  assert (Hp : plan a (VInt r) x sp (VInt (r - 1)) lc 0 0).
  { split; [now apply shape_of_sequence|]. split; [exact Hsp|].
    split; [reflexivity|]. split; [exact Hlc|].
    split; [|now left]. rewrite range_int.
    now replace (Z.to_nat r) with O by lia. }
  unfold outcome, after.
  rewrite (load_cells_run a _ _ _ _ _ _ _ w Hm Hp), built_no_rows.
  cbn [fst snd]. now repeat split.
Qed.

Lemma no_row_no_column_count_witness :
  (shape_matches new_world = true
   /\ sequence_of (array (with_array (VList [VInt 0; VFloat f_half])
                            default_args))
        [VInt 0; VFloat f_half]
   /\ 0 <= 0
   /\ numeric (VFloat f_half) = true
   /\ normalize_cell_spacing
        (cells_spacing (with_array (VList [VInt 0; VFloat f_half])
                          default_args))
      = Ok (f_five, f_five, f_five, f_five))
  /\ outcome (load_cells (with_array (VList [VInt 0; VFloat f_half])
                            default_args)) new_world = Ok tt
  /\ outcome get_cells_grid
       (after (load_cells (with_array (VList [VInt 0; VFloat f_half])
                             default_args)) new_world) = Ok []
  /\ next_widget
       (after (load_cells (with_array (VList [VInt 0; VFloat f_half])
                             default_args)) new_world)
     = next_widget new_world
  /\ calls (after (load_cells (with_array (VList [VInt 0; VFloat f_half])
                                 default_args)) new_world)
     = calls new_world ++ map Destroy (cells_of new_world).
Proof.
  assert (Hm : shape_matches new_world = true) by reflexivity.
  assert (Ha : sequence_of
                 (array (with_array (VList [VInt 0; VFloat f_half])
                           default_args))
                 [VInt 0; VFloat f_half]) by (right; reflexivity).
  assert (Hr : 0 <= 0) by lia.
  assert (Hx : numeric (VFloat f_half) = true) by reflexivity.
  assert (Hsp : normalize_cell_spacing
                  (cells_spacing (with_array (VList [VInt 0; VFloat f_half])
                                    default_args))
                = Ok (f_five, f_five, f_five, f_five))
    by (vm_compute; reflexivity).
  split; [exact (conj Hm (conj Ha (conj Hr (conj Hx Hsp))))|].
  exact (no_row_no_column_count _ new_world 0 (VFloat f_half) _
           Hm Ha Hr Hx Hsp).
Defined.

(** ** The two normalisers side by side *)

Lemma normalizers_agree (value : PyVal) (name : string) :
  match normalize_box_spacing value name with
  | Ok box =>
      normalize_cell_spacing value = halves box
      /\ (let '(l, t, r, b) := box in
          forallb numeric [l; t; r; b] = true)
  | Raise e =>
      exists e',
        normalize_cell_spacing value = Raise e'
        /\ error_class e' = error_class e
        /\ (error_class e = TypeError \/ error_class e = ValueError)
  end.
Proof.
  assert (Hseq : forall items,
             value = VTuple items \/ value = VList items ->
             match normalize_box_spacing value name with
             | Ok box =>
                 normalize_cell_spacing value = halves box
                 /\ (let '(l, t, r, b) := box in
                     forallb numeric [l; t; r; b] = true)
             | Raise e =>
                 exists e',
                   normalize_cell_spacing value = Raise e'
                   /\ error_class e' = error_class e
                   /\ (error_class e = TypeError
                       \/ error_class e = ValueError)
             end).
  { intros items Hv.
    assert (Hlen : (List.length items = 2%nat \/ List.length items = 4%nat)
                   \/ (List.length items <> 2%nat
                       /\ List.length items <> 4%nat)) by lia.
    destruct Hlen as [Hlen | [H2 H4]].
    - destruct (forallb numeric items) eqn:Hnum.
      + destruct Hlen as [Hlen | Hlen].
        * destruct items as [|x [|y [|z items]]]; try discriminate.
          cbn [forallb] in Hnum. rewrite andb_true_r in Hnum.
          apply andb_true_iff in Hnum. destruct Hnum as [Hx Hy].
          rewrite (box_spacing_2 value x y name Hv Hx Hy).
          split; [|cbn [forallb]; now rewrite Hx, Hy].
          assert (Hn : forallb numeric [x; y] = true)
            by (cbn [forallb]; now rewrite Hx, Hy).
          destruct Hv as [-> | ->]; unfold normalize_cell_spacing;
            cbn -[truediv_2 ensure_numeric_sequence];
            rewrite (ensure_numeric_ok _ [x; y] "cells_spacing");
            try reflexivity; try exact Hn;
            [now left | now right].
        * destruct items as [|x [|y [|z [|u [|v items]]]]];
            try discriminate.
          cbn [forallb] in Hnum. rewrite andb_true_r in Hnum.
          apply andb_true_iff in Hnum. destruct Hnum as [Hx Hnum].
          apply andb_true_iff in Hnum. destruct Hnum as [Hy Hnum].
          apply andb_true_iff in Hnum. destruct Hnum as [Hz Hu].
          rewrite (box_spacing_4 value x y z u name Hv Hx Hy Hz Hu).
          split; [|cbn [forallb]; now rewrite Hx, Hy, Hz, Hu].
          assert (Hn : forallb numeric [x; y; z; u] = true)
            by (cbn [forallb]; now rewrite Hx, Hy, Hz, Hu).
          destruct Hv as [-> | ->]; unfold normalize_cell_spacing;
            cbn -[truediv_2 ensure_numeric_sequence];
            rewrite (ensure_numeric_ok _ [x; y; z; u] "cells_spacing");
            try reflexivity; try exact Hn;
            [now left | now right].
      + destruct (spacing_non_numeric value items name Hv Hlen Hnum)
          as [-> ->].
        eexists. split; [reflexivity|]. split; [reflexivity | now left].
    - destruct (spacing_wrong_length value items name Hv H2 H4) as [-> ->].
      eexists. split; [reflexivity|]. split; [reflexivity | now right]. }
  destruct value as [| b | z | f | s | items | items];
    try (apply (Hseq items); auto; fail).
  - destruct (spacing_wrong_type VNone name eq_refl) as [-> ->].
    eexists. split; [reflexivity|]. split; [reflexivity | now left].
  - rewrite (box_spacing_int (VBool b) name eq_refl). split; reflexivity.
  - rewrite (box_spacing_int (VInt z) name eq_refl). split; reflexivity.
  - destruct (spacing_wrong_type (VFloat f) name eq_refl) as [-> ->].
    eexists. split; [reflexivity|]. split; [reflexivity | now left].
  - destruct (spacing_wrong_type (VStr s) name eq_refl) as [-> ->].
    eexists. split; [reflexivity|]. split; [reflexivity | now left].
Qed.

(** X14. The cell normaliser is the box normaliser followed by a
    division by two: where the box normaliser returns [(l, t, r, b)] the
    cell normaliser gives [(l/2, t/2, r/2, b/2)], the divisions made from
    left to right, and where the box normaliser raises, the cell
    normaliser raises an exception of the same class. *)
Theorem cell_spacing_halves_box :
  forall (value : PyVal) (name : string),
    match normalize_box_spacing value name with
    | Ok box => normalize_cell_spacing value = halves box
    | Raise e =>
        exists e',
          normalize_cell_spacing value = Raise e'
          /\ error_class e' = error_class e
    end.
Proof.
  intros value name. pose proof (normalizers_agree value name) as H.
  destruct (normalize_box_spacing value name) as [box|e].
  - now destruct H.
  - destruct H as (e' & H1 & H2 & _). now exists e'.
Qed.

(** X15. A box that the box normaliser returns is made of four numbers
    and is its own normal form: given back as a tuple or as a list, under
    any parameter name, it is returned as it is. *)
Theorem box_spacing_normal_form :
  forall (value : PyVal) (name : string) (l t r b : PyVal),
    normalize_box_spacing value name = Ok (l, t, r, b) ->
    forallb numeric [l; t; r; b] = true
    /\ forall name',
         both_sequences [l; t; r; b]
           (fun v => normalize_box_spacing v name' = Ok (l, t, r, b)).
Proof.
  intros value name l t r b H.
  pose proof (normalizers_agree value name) as Ha. rewrite H in Ha.
  destruct Ha as [_ Hn]. split; [exact Hn|].
  cbn [forallb] in Hn. rewrite andb_true_r in Hn.
  apply andb_true_iff in Hn. destruct Hn as [Hl Hn].
  apply andb_true_iff in Hn. destruct Hn as [Ht Hn].
  apply andb_true_iff in Hn. destruct Hn as [Hr Hb].
  intros name'. split; apply box_spacing_4; auto; [now left | now right].
Qed.

Lemma box_spacing_normal_form_witness :
  normalize_box_spacing (VList [VInt 3; VFloat f_half]) "margin"
  = Ok (VInt 3, VFloat f_half, VInt 3, VFloat f_half)
  /\ forallb numeric [VInt 3; VFloat f_half; VInt 3; VFloat f_half] = true
  /\ forall name',
       both_sequences [VInt 3; VFloat f_half; VInt 3; VFloat f_half]
         (fun v => normalize_box_spacing v name'
                   = Ok (VInt 3, VFloat f_half, VInt 3, VFloat f_half)).
Proof.
  assert (H : normalize_box_spacing (VList [VInt 3; VFloat f_half]) "margin"
              = Ok (VInt 3, VFloat f_half, VInt 3, VFloat f_half))
    by reflexivity.
  split; [exact H|].
  exact (box_spacing_normal_form _ "margin" _ _ _ _ H).
Defined.

(** ** The frames of the cells *)

(** X16. After a [load_cells] that returned, every cell of the matrix
    was created with a transparent background, the border colour, border
    width, corner radius and foreground colour given, and the height and
    the width given, or [cells_size] where they were [None]. *)
Theorem cells_frame_arguments :
  forall (a : load_args) (w w' : World) (i j : nat) (cell : widget),
    load_cells a w = (Ok tt, w') ->
    cell_at (_cells_matrix (self w')) i j = Some cell ->
    frame_of w' cell
    = Some {| bg_color := VStr "transparent";
              border_color := cells_border_color a;
              border_width := cells_border_width a;
              corner_radius := cells_corner_radius a;
              fg_color := cells_fg_color a;
              height := if_not_none (cells_height a) (cells_size a);
              width := if_not_none (cells_width a) (cells_size a) |}.
Proof.
  intros a w w' i j cell H Hc.
  apply load_cells_inv in H.
  destruct H as (ds & s0 & s1 & sp & lr & lc & R & C & _ & _ & _ & ->).
  now apply (frame_built _ _ _ _ _ _ _ _ _ i j).
Qed.

Lemma cells_frame_arguments_witness :
  (load_cells (with_array (VInt 2) default_args) new_world
   = (Ok tt, after (load_cells (with_array (VInt 2) default_args)) new_world)
   /\ cell_at
        (_cells_matrix
           (self (after (load_cells (with_array (VInt 2) default_args))
                    new_world))) 1 0 = Some 2%nat)
  /\ frame_of (after (load_cells (with_array (VInt 2) default_args))
                 new_world) 2%nat
     = Some {| bg_color := VStr "transparent";
               border_color := VNone; border_width := VInt 0;
               corner_radius := VInt 30; fg_color := VNone;
               height := VInt 100; width := VInt 100 |}.
Proof.
  assert (H : load_cells (with_array (VInt 2) default_args) new_world
              = (Ok tt, after (load_cells (with_array (VInt 2) default_args))
                          new_world)) by (vm_compute; reflexivity).
  assert (Hc : cell_at
                 (_cells_matrix
                    (self (after (load_cells
                                    (with_array (VInt 2) default_args))
                             new_world))) 1 0 = Some 2%nat)
    by (vm_compute; reflexivity).
  split; [exact (conj H Hc)|].
  exact (cells_frame_arguments _ _ _ 1 0 2%nat H Hc).
Defined.

(** ** The outcome and the arguments *)

Lemma rebuild_outcome (a : load_args) (w w' : World) :
  fst (rebuild a w) = fst (rebuild a w').
Proof.
  rewrite !rebuild_eq.
  destruct (shape_of (array a)) as [shape|e]; [|reflexivity].
  destruct shape as [|s0 [|s1 [|s2 shape]]]; try reflexivity.
  cbn zeta.
  destruct (normalize_cell_spacing (cells_spacing a)) as [sp|e];
    [|reflexivity].
  destruct (sub_1 s0) as [lr|e]; [|reflexivity].
  destruct (sub_1 s1) as [lc|e]; [|reflexivity].
  destruct (range s0) as [rows|e] eqn:H0; [|reflexivity].
  rewrite (range_iota _ _ H0).
  destruct (List.length rows) as [|R']; [reflexivity|].
  destruct (range s1) as [cols|e] eqn:H1.
  - assert (HC : S R' = O \/ range s1 = Ok (iota 0 (List.length cols))).
    { right. rewrite H1. f_equal. now apply (range_iota s1). }
    now rewrite !(build_loop_run a s0 s1 sp lr lc (S R') _ _ HC).
  - rewrite iota_S, !for_each_cons.
    rewrite !(bind_fst_raise _ _ _ e); trivial;
      apply (build_row_raise _ _ _ s0 s1); trivial.
Qed.

(** X17. On a container whose [grid_shape] describes its matrix the
    outcome of [load_cells] is decided by its arguments alone: two such
    containers, whatever they hold, give the same call the same
    outcome. *)
Theorem load_cells_outcome_by_arguments :
  forall (a : load_args) (w w' : World),
    shape_matches w = true ->
    shape_matches w' = true ->
    outcome (load_cells a) w = outcome (load_cells a) w'.
Proof.
  intros a w w' H H'. unfold outcome.
  rewrite !load_cells_eq, (destroy_all_cells_run w H),
    (destroy_all_cells_run w' H').
  apply rebuild_outcome.
Qed.

Lemma load_cells_outcome_by_arguments_witness :
  (shape_matches new_world = true
   /\ shape_matches (after (load_cells two_by_two) new_world) = true)
  /\ outcome (load_cells one_two_three) new_world
     = outcome (load_cells one_two_three)
         (after (load_cells two_by_two) new_world).
Proof.
  assert (H : shape_matches new_world = true) by reflexivity.
  assert (H' : shape_matches (after (load_cells two_by_two) new_world)
               = true) by (vm_compute; reflexivity).
  split; [exact (conj H H')|].
  exact (load_cells_outcome_by_arguments one_two_three _ _ H H').
Defined.

(** ** The exceptions [load_cells] can raise *)

Lemma raises_only_pure {A} (P : exn -> Prop) (m : M A) :
  (forall w, snd (m w) = w) ->
  (forall w e, fst (m w) = Raise e -> P e) ->
  raises_only P m.
Proof. intros Hs Hf w Hw. rewrite Hs. split; [exact Hw | apply Hf]. Qed.

Lemma raises_only_bind {A B} (P : exn -> Prop) (m : M A) (k : A -> M B) :
  raises_only P m -> (forall a, raises_only P (k a)) ->
  raises_only P (bind m k).
Proof.
  intros Hm Hk w Hw. unfold bind. destruct (Hm w Hw) as [Hs Hf].
  destruct (m w) as [[a|e] w1]; cbn [fst snd] in *.
  - now apply Hk.
  - split; [exact Hs|]. intros e' E. inversion E; subst e'.
    now apply Hf.
Qed.

Lemma raises_only_for_each {A} (P : exn -> Prop) (l : list A)
    (body : A -> M unit) :
  (forall x, raises_only P (body x)) -> raises_only P (for_each l body).
Proof.
  intros Hb. induction l as [|x l IH]; cbn [for_each].
  - apply raises_only_pure; [reflexivity | discriminate].
  - apply raises_only_bind; auto.
Qed.

Lemma getitem_error {A} (l : list A) (i : Z) (e : exn) :
  getitem l i = Raise e -> e = Builtin IndexError.
Proof.
  unfold getitem. destruct ((_ <? 0) || _); [now inversion 1|].
  destruct (nth_error l _); [discriminate | now inversion 1].
Qed.

Lemma range_error (v : PyVal) (e : exn) :
  range v = Raise e -> e = Builtin TypeError.
Proof. destruct v; cbn; now inversion 1. Qed.

Lemma sub_1_error (v : PyVal) (e : exn) :
  sub_1 v = Raise e -> e = Builtin TypeError.
Proof. destruct v; cbn; now inversion 1. Qed.

Lemma shape_of_error (v : PyVal) (e : exn) :
  shape_of v = Raise e -> e = Builtin TypeError.
Proof. destruct v; cbn; now inversion 1. Qed.

Lemma raises_only_getitem {A} (l : list A) (i : Z) :
  raises_only index_or_type (lift (getitem l i)).
Proof.
  apply raises_only_pure; [reflexivity|].
  intros w e H. left. now apply (getitem_error l i).
Qed.

Lemma raises_only_range (v : PyVal) :
  raises_only index_or_type (lift (range v)).
Proof.
  apply raises_only_pure; [reflexivity|].
  intros w e H. right. now apply (range_error v).
Qed.

Lemma raises_only_shape_at (i : Z) : raises_only index_or_type (shape_at i).
Proof.
  intros w Hw. unfold shape_at, bind, attr. destruct Hw as [shape Hs].
  rewrite Hs. now apply raises_only_getitem; exists shape.
Qed.

Lemma destroy_raises_only : raises_only index_or_type destroy_all_cells.
Proof.
  unfold destroy_all_cells.
  apply raises_only_bind;
    [apply raises_only_pure; [reflexivity | discriminate] | intros m].
  destruct m as [|r m];
    [apply raises_only_pure; [reflexivity | discriminate]|].
  apply raises_only_bind; [apply raises_only_shape_at | intros s0].
  apply raises_only_bind; [apply raises_only_range | intros rows].
  apply raises_only_for_each. intros row. unfold destroy_row.
  apply raises_only_bind; [apply raises_only_shape_at | intros s1].
  apply raises_only_bind; [apply raises_only_range | intros cols].
  apply raises_only_for_each. intros col. unfold destroy_cell.
  apply raises_only_bind;
    [apply raises_only_pure; [reflexivity | discriminate] | intros m'].
  apply raises_only_bind; [apply raises_only_getitem | intros r'].
  apply raises_only_bind; [apply raises_only_getitem | intros cell].
  intros w Hw. split; [exact Hw | discriminate].
Qed.

Lemma halves_error (l t r b : PyVal) (e : exn) :
  forallb numeric [l; t; r; b] = true ->
  halves (l, t, r, b) = Raise e -> e = Builtin OverflowError.
Proof.
  assert (H1 : forall v, numeric v = true ->
                 forall e', truediv_2 v = Raise e' ->
                            e' = Builtin OverflowError).
  { intros v Hv e' H. destruct v; try discriminate; cbn in H;
      unfold int_truediv_2 in H;
      destruct (binary_normalize _ _ _ _ _); now inversion H. }
  intros Hn. cbn [forallb] in Hn. rewrite andb_true_r in Hn.
  apply andb_true_iff in Hn. destruct Hn as [Hl Hn].
  apply andb_true_iff in Hn. destruct Hn as [Ht Hn].
  apply andb_true_iff in Hn. destruct Hn as [Hr Hb].
  unfold halves.
  destruct (truediv_2 l) eqn:El; cbn [rbind];
    [|intros E; inversion E; subst; now apply (H1 l)].
  destruct (truediv_2 t) eqn:Et; cbn [rbind];
    [|intros E; inversion E; subst; now apply (H1 t)].
  destruct (truediv_2 r) eqn:Er; cbn [rbind];
    [|intros E; inversion E; subst; now apply (H1 r)].
  destruct (truediv_2 b) eqn:Eb; cbn [rbind];
    [discriminate | intros E; inversion E; subst; now apply (H1 b)].
Qed.

Lemma cell_spacing_error (value : PyVal) (e : exn) :
  normalize_cell_spacing value = Raise e ->
  error_class e = TypeError \/ error_class e = ValueError
  \/ error_class e = OverflowError.
Proof.
  intros H. pose proof (normalizers_agree value "cells_spacing") as Ha.
  destruct (normalize_box_spacing value "cells_spacing")
    as [[[[l t] r] b]|e0].
  - destruct Ha as [Hc Hn]. rewrite Hc in H.
    rewrite (halves_error l t r b e Hn H). now right; right.
  - destruct Ha as (e' & Hc & He & Hcl). rewrite Hc in H.
    inversion H; subst e'. rewrite He. tauto.
Qed.

(** A build that raises: the class of the exception, and the shape. *)
Lemma rebuild_raise_inv (a : load_args) (w w' : World) (e : exn) :
  rebuild a w = (Raise e, w') ->
  (error_class e = TypeError \/ error_class e = ValueError
   \/ error_class e = OverflowError)
  /\ (self w' = self w \/ has_shape w').
Proof.
  rewrite rebuild_eq.
  destruct (shape_of (array a)) as [shape|e0] eqn:Hs.
  2:{ intros H. inversion H; subst. apply shape_of_error in Hs.
      subst e. split; [now left | now left]. }
  assert (Hbad : forall shape',
             (raise ValueError invalid_shape_message : result unit,
              mk_world (set_grid_shape shape' (self w)) (next_widget w)
                (calls w)) = (Raise e, w') ->
             (error_class e = TypeError \/ error_class e = ValueError
              \/ error_class e = OverflowError)
             /\ (self w' = self w \/ has_shape w')).
  { intros shape' H. inversion H; subst.
    split; [right; now left|]. right. now exists shape'. }
  destruct shape as [|s0 [|s1 [|s2 shape]]]; try apply Hbad.
  clear Hbad. cbn zeta.
  destruct (normalize_cell_spacing (cells_spacing a)) as [sp|e0] eqn:Hsp.
  2:{ intros H. inversion H; subst.
      split; [now apply (cell_spacing_error (cells_spacing a))|].
      right. now exists [s0; s1]. }
  destruct (sub_1 s0) as [lr|e0] eqn:Hlr.
  2:{ intros H. inversion H; subst. apply sub_1_error in Hlr. subst e.
      split; [now left|]. right. now exists [s0; s1]. }
  destruct (sub_1 s1) as [lc|e0] eqn:Hlc.
  2:{ intros H. inversion H; subst. apply sub_1_error in Hlc. subst e.
      split; [now left|]. right. now exists [s0; s1]. }
  destruct (range s0) as [rows|e0] eqn:H0.
  2:{ intros H. inversion H; subst. apply range_error in H0. subst e.
      split; [now left|]. right. now exists [s0; s1]. }
  rewrite (range_iota _ _ H0).
  destruct (List.length rows) as [|R']; [discriminate|].
  destruct (range s1) as [cols|e0] eqn:H1.
  - assert (HC : S R' = O \/ range s1 = Ok (iota 0 (List.length cols))).
    { right. rewrite H1. f_equal. now apply (range_iota s1). }
    now rewrite (build_loop_run a s0 s1 sp lr lc (S R') _ _ HC).
  - rewrite iota_S.
    erewrite for_each_raise
      by (apply (build_row_stops _ _ _ s0 s1); [reflexivity | exact H1]).
    intros H. inversion H; subst. apply range_error in H1. subst e.
    split; [now left|]. right. now exists [s0; s1].
Qed.

Lemma reachable_shaped (w : World) :
  reachable w -> _cells_matrix (self w) = [] \/ has_shape w.
Proof.
  induction 1 as [margin padding w Hi | a w _ IH].
  - left. apply init_inv in Hi.
    now destruct Hi as (om & ip & _ & _ & _ & _ & Hm & _).
  - unfold after.
    destruct (load_cells_cases a w) as (w1 & (Hs & _) & Hcase).
    destruct Hcase as [(e & _ & E)
                      | [Hd [(s0 & s1 & sp & lr & lc & R & C & _ & E)
                            | (e & o & E & _)]]].
    + rewrite E. cbn [snd]. unfold has_shape. now rewrite Hs.
    + rewrite E. cbn [snd]. right. now exists [s0; s1].
    + pose proof E as E'. rewrite load_cells_eq, Hd in E'.
      apply rebuild_raise_inv in E'. destruct E' as [_ [E' | E']].
      * rewrite E. cbn [snd]. unfold has_shape. rewrite E', Hs.
        exact IH.
      * rewrite E. now right.
Qed.

(** X18. On a container a program can hold, and while the calls into
    the toolkit return, [load_cells] raises nothing but a [TypeError], a
    [ValueError], an [OverflowError] or an [IndexError]: its own steps
    never read an attribute before it is assigned.  And it raises no
    [IndexError] where [grid_shape] describes the matrix. *)
Theorem load_cells_error_classes :
  forall (a : load_args) (w : World) (e : exn),
    reachable w ->
    outcome (load_cells a) w = Raise e ->
    (error_class e = TypeError \/ error_class e = ValueError
     \/ error_class e = OverflowError \/ error_class e = IndexError)
    /\ (shape_matches w = true -> error_class e <> IndexError).
Proof.
  intros a w e Hr H. unfold outcome in H.
  assert (Hb : forall w1, rebuild a w1 = load_cells a w ->
                 error_class e = TypeError \/ error_class e = ValueError
                 \/ error_class e = OverflowError).
  { intros w1 E. destruct (load_cells a w) as [res w'] eqn:El.
    cbn [fst] in H. subst res. now apply rebuild_raise_inv in E. }
  split.
  - rewrite load_cells_eq in H, Hb.
    destruct (destroy_all_cells w) as [[[]|e'] w1] eqn:Hd.
    + specialize (Hb w1 eq_refl). tauto.
    + cbn [fst] in H. inversion H; subst e'.
      assert (He : index_or_type e).
      { destruct (reachable_shaped w Hr) as [Hm | Hsh].
        - rewrite (destroy_nothing w Hm) in Hd. discriminate.
        - apply (destroy_raises_only w Hsh). now rewrite Hd. }
      destruct He as [-> | ->]; cbn; tauto.
  - intros Hm. rewrite load_cells_eq, (destroy_all_cells_run w Hm) in Hb.
    specialize (Hb _ eq_refl).
    destruct Hb as [-> | [-> | ->]]; discriminate.
Qed.

Lemma load_cells_error_classes_witness :
  (reachable (after (load_cells two_by_two) new_world)
   /\ outcome (load_cells one_two_three)
        (after (load_cells two_by_two) new_world)
      = Raise (Raised ValueError invalid_shape_message))
  /\ (error_class (Raised ValueError invalid_shape_message) = TypeError
      \/ error_class (Raised ValueError invalid_shape_message) = ValueError
      \/ error_class (Raised ValueError invalid_shape_message)
         = OverflowError
      \/ error_class (Raised ValueError invalid_shape_message) = IndexError)
  /\ (shape_matches (after (load_cells two_by_two) new_world) = true ->
      error_class (Raised ValueError invalid_shape_message) <> IndexError).
Proof.
  assert (H : reachable (after (load_cells two_by_two) new_world)).
  { apply reachable_load.
    exact (reachable_new (VInt 0) (VInt 0) new_world eq_refl). }
  assert (E : outcome (load_cells one_two_three)
                (after (load_cells two_by_two) new_world)
              = Raise (Raised ValueError invalid_shape_message))
    by (vm_compute; reflexivity).
  split; [exact (conj H E)|].
  exact (load_cells_error_classes _ _ _ H E).
Defined.

(** ** The order of the cells *)

(** X19. A [load_cells] that returns creates its frames row by row, each
    row from left to right, with consecutive handles: the cell at row
    [i], column [j] is the frame number [i * width + j] of the call, and
    the frames were created in the order in which the matrix lists
    them. *)
Theorem cells_made_row_by_row :
  forall (a : load_args) (w w' : World),
    load_cells a w = (Ok tt, w') ->
    created (calls w') = created (calls w) ++ cells_of w'
    /\ forall (i j : nat) (row : list widget) (cell : widget),
         nth_error (_cells_matrix (self w')) i = Some row ->
         nth_error row j = Some cell ->
         cell = (next_widget w + i * List.length row + j)%nat.
Proof.
  intros a w w' H. apply load_cells_inv in H.
  destruct H as (ds & s0 & s1 & sp & lr & lc & R & C & _ & Hd & _ & ->).
  split.
  - unfold built, cells_of. cbn [calls self mk_world add_calls next_widget].
    unfold set_cells_matrix. cbn [_cells_matrix].
    rewrite !created_app, (created_destroys ds Hd), app_nil_r.
    now rewrite created_build_calls, fresh_rows_concat.
  - intros i j row cell Hr Hc.
    unfold built in Hr. cbn [self mk_world add_calls next_widget] in Hr.
    unfold set_cells_matrix in Hr. cbn [_cells_matrix] in Hr.
    assert (Hi : (i < R)%nat).
    { assert (Hn : nth_error (fresh_rows (next_widget w) C R) i <> None)
        by congruence.
      apply nth_error_Some in Hn. now rewrite fresh_rows_length in Hn. }
    rewrite (fresh_rows_nth C R _ i Hi) in Hr. inversion Hr; subst row.
    rewrite length_seq.
    assert (Hj : (j < C)%nat).
    { assert (Hn : nth_error (seq (next_widget w + i * C) C) j <> None)
        by congruence.
      apply nth_error_Some in Hn. now rewrite length_seq in Hn. }
    rewrite (seq_nth _ C j Hj) in Hc. now inversion Hc.
Qed.

Lemma cells_made_row_by_row_witness :
  load_cells one_by_three (after (load_cells two_by_two) new_world)
  = (Ok tt,
     after (load_cells one_by_three) (after (load_cells two_by_two) new_world))
  /\ created (calls (after (load_cells one_by_three)
                       (after (load_cells two_by_two) new_world)))
     = created (calls (after (load_cells two_by_two) new_world))
       ++ cells_of (after (load_cells one_by_three)
                      (after (load_cells two_by_two) new_world))
  /\ forall (i j : nat) (row : list widget) (cell : widget),
       nth_error
         (_cells_matrix
            (self (after (load_cells one_by_three)
                     (after (load_cells two_by_two) new_world)))) i
       = Some row ->
       nth_error row j = Some cell ->
       cell = (next_widget (after (load_cells two_by_two) new_world)
               + i * List.length row + j)%nat.
Proof.
  assert (H : load_cells one_by_three
                (after (load_cells two_by_two) new_world)
              = (Ok tt,
                 after (load_cells one_by_three)
                   (after (load_cells two_by_two) new_world)))
    by (vm_compute; reflexivity).
  split; [exact H|].
  exact (cells_made_row_by_row _ _ _ H).
Defined.

(** ** After a spacing error *)

Lemma spacing_error_state (a : load_args) (w : World) (s0 s1 : PyVal)
    (e : exn) :
  shape_of (array a) = Ok [s0; s1] ->
  normalize_cell_spacing (cells_spacing a) = Raise e ->
  rebuild a w
  = (Raise e,
     mk_world (set_style_of a (set_grid_shape [s0; s1] (self w)))
       (next_widget w) (calls w)).
Proof.
  intros Hs Hsp. rewrite rebuild_eq, Hs. cbv beta iota zeta.
  now rewrite Hsp.
Qed.

(** X20. A [load_cells] with a valid shape of ints [(r, c)] and an
    invalid [cells_spacing], on a matrix of [R] rows of [C] cells that
    [grid_shape] describes, raises the spacing error with [grid_shape]
    already set to the new shape and the old matrix kept.  The next
    [load_cells] then behaves as on a new container if one of [r], [c] is
    not positive or both fit the old matrix, and raises [IndexError]
    otherwise. *)
Theorem spacing_error_then_load_cells :
  forall (a a' : load_args) (w : World) (R C : nat) (r c : Z) (e : exn),
    shape_matches w = true ->
    rectangular (_cells_matrix (self w)) R C ->
    _cells_matrix (self w) <> [] ->
    shape_of (array a) = Ok [VInt r; VInt c] ->
    normalize_cell_spacing (cells_spacing a) = Raise e ->
    outcome (load_cells a) w = Raise e
    /\ grid_shape (self (after (load_cells a) w)) = Some [VInt r; VInt c]
    /\ _cells_matrix (self (after (load_cells a) w))
       = _cells_matrix (self w)
    /\ outcome (load_cells a') (after (load_cells a) w)
       = if (r <=? 0) || (c <=? 0)
            || ((r <=? Z.of_nat R) && (c <=? Z.of_nat C))
         then outcome (load_cells a') new_world
         else Raise (Builtin IndexError).
Proof.
  intros a a' w R C r c e Hm Hrect Hne Hs Hsp.
  assert (E : load_cells a w
              = (Raise e,
                 mk_world
                   (set_style_of a
                      (set_grid_shape [VInt r; VInt c] (self w)))
                   (next_widget w)
                   (calls w ++ map Destroy (cells_of w)))).
  { rewrite load_cells_eq, (destroy_all_cells_run w Hm).
    now rewrite (spacing_error_state a _ (VInt r) (VInt c) e Hs Hsp). }
  unfold outcome at 1, after. rewrite E. cbn [fst snd].
  split; [reflexivity|]. split; [reflexivity|]. split; [reflexivity|].
  set (w1 := mk_world _ _ _).
  pose proof (destroy_all_cells_block w1 R C r c [] Hrect Hne eq_refl) as Hd.
  destruct ((r <=? 0) || (c <=? 0)
            || ((r <=? Z.of_nat R) && (c <=? Z.of_nat C))).
  - unfold outcome. rewrite !load_cells_eq, Hd.
    rewrite (destroy_nothing new_world eq_refl).
    apply rebuild_outcome.
  - now destruct (destroy_raise_load a' w1 _ Hd).
Qed.

Lemma spacing_error_then_load_cells_witness :
  (shape_matches (after (load_cells two_by_two) new_world) = true
   /\ rectangular
        (_cells_matrix (self (after (load_cells two_by_two) new_world))) 2 2
   /\ _cells_matrix (self (after (load_cells two_by_two) new_world)) <> []
   /\ shape_of (array (with_spacing (VStr "wide")
                         (with_array (VInt 3) default_args)))
      = Ok [VInt 3; VInt 3]
   /\ normalize_cell_spacing
        (cells_spacing (with_spacing (VStr "wide")
                          (with_array (VInt 3) default_args)))
      = Raise (Raised TypeError (cell_invalid_type_message (VStr "wide"))))
  /\ outcome (load_cells (with_spacing (VStr "wide")
                            (with_array (VInt 3) default_args)))
       (after (load_cells two_by_two) new_world)
     = Raise (Raised TypeError (cell_invalid_type_message (VStr "wide")))
  /\ grid_shape
       (self (after (load_cells (with_spacing (VStr "wide")
                                   (with_array (VInt 3) default_args)))
                (after (load_cells two_by_two) new_world)))
     = Some [VInt 3; VInt 3]
  /\ _cells_matrix
       (self (after (load_cells (with_spacing (VStr "wide")
                                   (with_array (VInt 3) default_args)))
                (after (load_cells two_by_two) new_world)))
     = _cells_matrix (self (after (load_cells two_by_two) new_world))
  /\ outcome (load_cells two_by_two)
       (after (load_cells (with_spacing (VStr "wide")
                             (with_array (VInt 3) default_args)))
          (after (load_cells two_by_two) new_world))
     = Raise (Builtin IndexError).
Proof.
  assert (Hm : shape_matches (after (load_cells two_by_two) new_world)
               = true) by (vm_compute; reflexivity).
  assert (Hr : rectangular
                 (_cells_matrix
                    (self (after (load_cells two_by_two) new_world))) 2 2)
    by (vm_compute; split; [reflexivity | repeat constructor]).
  assert (Hn : _cells_matrix (self (after (load_cells two_by_two) new_world))
               <> []) by (vm_compute; discriminate).
  assert (Hs : shape_of (array (with_spacing (VStr "wide")
                                  (with_array (VInt 3) default_args)))
               = Ok [VInt 3; VInt 3]) by reflexivity.
  assert (Hsp : normalize_cell_spacing
                  (cells_spacing (with_spacing (VStr "wide")
                                    (with_array (VInt 3) default_args)))
                = Raise (Raised TypeError
                           (cell_invalid_type_message (VStr "wide"))))
    by reflexivity.
  split; [exact (conj Hm (conj Hr (conj Hn (conj Hs Hsp))))|].
  exact (spacing_error_then_load_cells _ two_by_two _ 2 2 3 3 _
           Hm Hr Hn Hs Hsp).
Defined.
